(** * wiki_grabber: the Wikipedia / Commons extraction pipeline

    A shallow embedding of [wiki_grabber.py] and the properties of its
    title resolver, content renderer, image locator, thumbnail upgrader
    and image downloader.

    Conventions of the embedding.
    - A Python [str] is the sequence of its Unicode code points
      ([list N]); [bytes] is a list of octets.
    - A parsed document is the BeautifulSoup tree ([node]); the HTML
      parser itself, the network, the image decoder and the file system
      are the collaborators of the program and are gathered in the
      record [Env].
    - Code that can raise computes in [Result]; code that talks to the
      network or the disk threads a [World] and computes in [M].
      [print] calls write to the console only and are left out. *)

From Stdlib Require Import ZArith NArith List Bool Lia String Ascii DecimalString.
From stdpp Require Import base option list gmap.
Import ListNotations.

Local Open Scope N_scope.
Local Open Scope list_scope.

(** ** Python strings *)

Module Py.

Definition str := list N.
Definition bytes := list N.

(** A literal of the source (ASCII only). *)
Definition lit (s : string) : str :=
  List.map N_of_ascii (list_ascii_of_string s).

Definition nl : str := [10].

Definition eqb (a b : str) : bool := bool_decide (a = b).

(** [str.isspace] on one character (CPython's [_PyUnicode_IsWhitespace]). *)
Definition isspace (c : N) : bool :=
  ((9 <=? c) && (c <=? 13)) || ((28 <=? c) && (c <=? 32))
  || (c =? 133) || (c =? 160) || (c =? 5760)
  || ((8192 <=? c) && (c <=? 8202))
  || (c =? 8232) || (c =? 8233) || (c =? 8239) || (c =? 8287)
  || (c =? 12288).

Fixpoint lstrip (s : str) : str :=
  match s with
  | c :: s' => if isspace c then lstrip s' else s
  | [] => []
  end.

Definition rstrip (s : str) : str := rev (lstrip (rev s)).

(** [s.strip()] *)
Definition strip (s : str) : str := rstrip (lstrip s).

(** [s.startswith(p)] *)
Fixpoint startswith (s p : str) {struct p} : bool :=
  match p, s with
  | [], _ => true
  | _ :: _, [] => false
  | a :: p', b :: s' => (a =? b) && startswith s' p'
  end.

(** [sub in s] *)
Fixpoint contains (sub s : str) : bool :=
  startswith s sub ||
  match s with
  | [] => false
  | _ :: s' => contains sub s'
  end.

(** [s.split(sep)] for a non-empty [sep]: [skip] counts the characters
    of a separator that is being stepped over, [cur] is the piece read
    so far. *)
Fixpoint split_aux (sep s : str) (skip : nat) (cur : str) : list str :=
  match s with
  | [] => [cur]
  | c :: s' =>
      match skip with
      | S k => split_aux sep s' k cur
      | O =>
          if startswith s sep
          then cur :: split_aux sep s' (pred (length sep)) []
          else split_aux sep s' O (cur ++ [c])
      end
  end.

Definition split (sep s : str) : list str := split_aux sep s O [].

(** [s.replace(old, new)] for a non-empty [old]. *)
Fixpoint replace_aux (old new s : str) (skip : nat) : str :=
  match s with
  | [] => []
  | c :: s' =>
      match skip with
      | S k => replace_aux old new s' k
      | O =>
          if startswith s old
          then new ++ replace_aux old new s' (pred (length old))
          else c :: replace_aux old new s' O
      end
  end.

(** [s.replace(old, new)]; an empty [old] matches before every
    character and at the end. *)
Definition replace (old new s : str) : str :=
  match old with
  | [] => new ++ flat_map (fun c => c :: new) s
  | _ => replace_aux old new s O
  end.

(** [sep.join(parts)] *)
Fixpoint join (sep : str) (parts : list str) : str :=
  match parts with
  | [] => []
  | [p] => p
  | p :: ps => p ++ sep ++ join sep ps
  end.

(** [c * n] for a one-character string *)
Definition repeat_char (c : N) (n : nat) : str := repeat c n.

End Py.

Import Py.

(** ** Exceptions

    Every exception the modelled code can meet is a subclass of
    [Exception], which is what the [except Exception] clauses catch. *)

Inductive exn : Type :=
| KeyError | IndexError | AttributeError | UnicodeEncodeError
| ValueError | NameError | RequestException | OSError
| UnidentifiedImageError.

Inductive Result (A : Type) : Type :=
| Ok (a : A)
| Raise (e : exn).
Arguments Ok {A} a.
Arguments Raise {A} e.

Definition rbind {A B} (r : Result A) (k : A -> Result B) : Result B :=
  match r with
  | Ok a => k a
  | Raise e => Raise e
  end.

Declare Scope result_scope.
Delimit Scope result_scope with result.
Notation "'try!' x ':=' r 'in' k" := (rbind r (fun x => k))
  (at level 10, x pattern, r at level 100, k at level 200,
   format "'try!'  x  ':='  r  'in' '//' k") : result_scope.

(** ** urllib.parse *)

Module Urllib.

Definition is_hex (c : N) : bool :=
  ((48 <=? c) && (c <=? 57)) || ((65 <=? c) && (c <=? 70))
  || ((97 <=? c) && (c <=? 102)).

Definition hex_val (c : N) : N :=
  if c <=? 57 then c - 48 else if c <=? 70 then c - 55 else c - 87.

(** [unquote_to_bytes] on an ASCII run: [%XX] with two hex digits is
    one octet, any other [%] stays. *)
Fixpoint unquote_to_bytes (s : str) : bytes :=
  match s with
  | [] => []
  | c :: s' =>
      if c =? 37 then
        match s' with
        | h1 :: h2 :: s'' =>
            if is_hex h1 && is_hex h2
            then (16 * hex_val h1 + hex_val h2) :: unquote_to_bytes s''
            else 37 :: unquote_to_bytes s'
        | _ => 37 :: unquote_to_bytes s'
        end
      else c :: unquote_to_bytes s'
  end.

Definition is_cont (b : N) : bool := (128 <=? b) && (b <=? 191).

Definition replacement : N := 65533.

(** [bytes.decode('utf-8', 'replace')]: an invalid start byte, and a
    sequence cut short by a byte that cannot continue it or by the end
    of the data, each become one U+FFFD. *)
Fixpoint utf8_decode (bs : bytes) : str :=
  match bs with
  | [] => []
  | b :: r1 =>
      if b <? 128 then b :: utf8_decode r1
      else if b <? 194 then replacement :: utf8_decode r1
      else if b <? 224 then
        match r1 with
        | [] => [replacement]
        | b2 :: r2 =>
            if is_cont b2
            then ((b - 192) * 64 + (b2 - 128)) :: utf8_decode r2
            else replacement :: utf8_decode r1
        end
      else if b <? 240 then
        match r1 with
        | [] => [replacement]
        | b2 :: r2 =>
            if negb (is_cont b2)
               || (if b2 <? 160 then b =? 224 else b =? 237)
            then replacement :: utf8_decode r1
            else
              match r2 with
              | [] => [replacement]
              | b3 :: r3 =>
                  if is_cont b3
                  then ((b - 224) * 4096 + (b2 - 128) * 64 + (b3 - 128))
                         :: utf8_decode r3
                  else replacement :: utf8_decode r2
              end
        end
      else if b <? 245 then
        match r1 with
        | [] => [replacement]
        | b2 :: r2 =>
            if negb (is_cont b2)
               || (if b2 <? 144 then b =? 240 else b =? 244)
            then replacement :: utf8_decode r1
            else
              match r2 with
              | [] => [replacement]
              | b3 :: r3 =>
                  if negb (is_cont b3) then replacement :: utf8_decode r2
                  else
                    match r3 with
                    | [] => [replacement]
                    | b4 :: r4 =>
                        if is_cont b4
                        then ((b - 240) * 262144 + (b2 - 128) * 4096
                              + (b3 - 128) * 64 + (b4 - 128))
                               :: utf8_decode r4
                        else replacement :: utf8_decode r3
                    end
              end
        end
      else replacement :: utf8_decode r1
  end.

(** The pieces of [unquote]: every maximal run of ASCII characters is
    percent-decoded and read as UTF-8, the other characters are kept.
    [run] is the ASCII run read so far. *)
Fixpoint unquote_parts (s run : str) : str :=
  match s with
  | [] => utf8_decode (unquote_to_bytes run)
  | c :: s' =>
      if c <? 128 then unquote_parts s' (run ++ [c])
      else utf8_decode (unquote_to_bytes run) ++ c :: unquote_parts s' []
  end.

(** [urllib.parse.unquote(s)] *)
Definition unquote (s : str) : str :=
  if contains (lit "%") s then unquote_parts s [] else s.

(** [str.encode('utf-8')] (strict): a surrogate cannot be encoded. *)
Definition utf8_encode_char (c : N) : Result bytes :=
  if c <? 128 then Ok [c]
  else if c <? 2048 then Ok [192 + c / 64; 128 + c mod 64]
  else if (55296 <=? c) && (c <=? 57343) then Raise UnicodeEncodeError
  else if c <? 65536 then
    Ok [224 + c / 4096; 128 + (c / 64) mod 64; 128 + c mod 64]
  else if c <? 1114112 then
    Ok [240 + c / 262144; 128 + (c / 4096) mod 64;
        128 + (c / 64) mod 64; 128 + c mod 64]
  else Raise UnicodeEncodeError.

Fixpoint utf8_encode (s : str) : Result bytes :=
  match s with
  | [] => Ok []
  | c :: s' =>
      (try! b := utf8_encode_char c in
       try! bs := utf8_encode s' in
       Ok (b ++ bs))%result
  end.

Definition hex_digit (d : N) : N := if d <? 10 then 48 + d else 55 + d.

(** The characters [quote] never escapes: letters, digits, [_.-~],
    and the default [safe='/']. *)
Definition quote_safe (b : N) : bool :=
  ((48 <=? b) && (b <=? 57)) || ((65 <=? b) && (b <=? 90))
  || ((97 <=? b) && (b <=? 122))
  || (b =? 95) || (b =? 46) || (b =? 45) || (b =? 126) || (b =? 47).

Definition quote_byte (b : N) : str :=
  if quote_safe b then [b] else [37; hex_digit (b / 16); hex_digit (b mod 16)].

(** [urllib.parse.quote(s)] *)
Definition quote (s : str) : Result str :=
  (try! bs := utf8_encode s in Ok (flat_map quote_byte bs))%result.

End Urllib.

(** ** BeautifulSoup trees *)

Module Bs4.

(** The value of an attribute: a string, or the list of tokens the
    tree builder makes of a multi-valued attribute such as [class]. *)
Inductive attr_value : Type :=
| AStr (s : str)
| AList (l : list str).

Definition attrs_t := gmap str attr_value.

(** The attribute dictionary with the given entries. *)
Definition mk_attrs (entries : list (str * attr_value)) : attrs_t :=
  list_to_map entries.

(** [Text] is a NavigableString; [Special] is a comment, a
    declaration or another string container that [get_text] leaves
    out; [Elem] is a Tag. *)
#[local] Unset Elimination Schemes.
Inductive node : Type :=
| Text (s : str)
| Special (s : str)
| Elem (name : str) (attrs : attrs_t) (children : list node).
#[local] Set Elimination Schemes.

(** The contents of a [BeautifulSoup] object. *)
Definition soup := list node.

Definition name_of (n : node) : str :=
  match n with Elem nm _ _ => nm | _ => [] end.

Definition attrs_of (n : node) : attrs_t :=
  match n with Elem _ a _ => a | _ => ∅ end.

Definition children_of (n : node) : list node :=
  match n with Elem _ _ cs => cs | _ => [] end.

(** [tag.get_text()] *)
Fixpoint get_text (n : node) : str :=
  match n with
  | Text s => s
  | Special _ => []
  | Elem _ _ cs => flat_map get_text cs
  end.

(** [soup.get_text()] *)
Definition soup_text (s : soup) : str := flat_map get_text s.

(** A tag found in a tree, with the attributes of its ancestors
    (nearest first, the [BeautifulSoup] object last): what
    [tag.parents] gives access to. *)
Definition located : Type := list attrs_t * node.

Fixpoint walk_node (parents : list attrs_t) (n : node) : list located :=
  match n with
  | Elem _ a cs => (parents, n) :: flat_map (walk_node (a :: parents)) cs
  | _ => []
  end.

(** Every tag below a point of the tree, in document order. *)
Definition walk (parents : list attrs_t) (f : list node) : list located :=
  flat_map (walk_node parents) f.

Definition descendants (n : node) : list node :=
  List.map snd (walk [] (children_of n)).

Definition soup_tags (s : soup) : list located := walk [∅] s.

Definition has_name (names : list str) (n : node) : bool :=
  existsb (Py.eqb (name_of n)) names.

(** How a search value matches an attribute value. *)
Definition matches (v : attr_value) (c : str) : bool :=
  match v with
  | AStr s => Py.eqb s c
  | AList l => existsb (fun t => Py.eqb t c) l || Py.eqb (join (lit " ") l) c
  end.

Definition has_attr (k c : str) (n : node) : bool :=
  match attrs_of n !! k with
  | Some v => matches v c
  | None => false
  end.

(** [soup.find_all(names)] with the ancestors of each result *)
Definition find_all_located (names : list str) (s : soup) : list located :=
  List.filter (fun l => has_name names (snd l)) (soup_tags s).

(** [soup.find_all(name)] *)
Definition soup_find_all (nm : str) (s : soup) : list node :=
  List.filter (has_name [nm]) (List.map snd (soup_tags s)).

(** [soup.find_all(name, {'class': c})] *)
Definition soup_find_all_class (nm c : str) (s : soup) : list node :=
  List.filter (fun n => has_name [nm] n && has_attr (lit "class") c n)
    (List.map snd (soup_tags s)).

(** [soup.find(name, {'class': c})] *)
Definition soup_find_class (nm c : str) (s : soup) : option node :=
  head (soup_find_all_class nm c s).

(** [tag.find_all(name, {'class': c})] *)
Definition find_all_class (nm c : str) (n : node) : list node :=
  List.filter (fun d => has_name [nm] d && has_attr (lit "class") c d)
    (descendants n).

(** [tag.find(name)] *)
Definition find (nm : str) (n : node) : option node :=
  head (List.filter (has_name [nm]) (descendants n)).

(** [tag.find(name, {'class': c})] *)
Definition find_class (nm c : str) (n : node) : option node :=
  head (find_all_class nm c n).

(** [tag.find_all(name, recursive=False)] *)
Definition find_all_children (nm : str) (n : node) : list node :=
  List.filter (fun d => match d with Elem _ _ _ => has_name [nm] d | _ => false end)
    (children_of n).

(** The tokens of a [class] value as a CSS selector sees them. *)
Definition css_space (c : N) : bool :=
  (c =? 32) || (c =? 9) || (c =? 13) || (c =? 10) || (c =? 12).

Fixpoint css_tokens (s cur : str) : list str :=
  match s with
  | [] => match cur with [] => [] | _ => [cur] end
  | c :: s' =>
      if css_space c
      then match cur with [] => css_tokens s' [] | _ => cur :: css_tokens s' [] end
      else css_tokens s' (cur ++ [c])
  end.

Definition css_classes (a : attrs_t) : list str :=
  match a !! lit "class" with
  | Some (AList l) => l
  | Some (AStr s) => css_tokens s []
  | None => []
  end.

(** Whether the selector group [.c1, .c2, ...] selects a tag. *)
Definition selected (classes : list str) (a : attrs_t) : bool :=
  existsb (fun c => existsb (Py.eqb c) (css_classes a)) classes.

(** [for t in soup.select('.c1, .c2, ...'): t.decompose()]: every
    selected tag leaves the tree with all it contains. *)
Fixpoint decompose_node (classes : list str) (n : node) : list node :=
  match n with
  | Elem nm a cs =>
      if selected classes a then []
      else [Elem nm a (flat_map (decompose_node classes) cs)]
  | _ => [n]
  end.

Definition decompose_selected (classes : list str) (s : soup) : soup :=
  flat_map (decompose_node classes) s.

End Bs4.

Import Bs4.

(** ** The collaborators of the program *)

(** What [requests.get] returns. *)
Record Response : Type := {
  url : str;            (* the address after redirects *)
  status_code : Z;
  text : str;
  content : bytes
}.

(** The world outside the program.  [requests_get n u] is the outcome
    of the [n]-th request of a run when it asks for [u] (the headers
    are drawn at random and do not enter the model: the outcome is
    arbitrary anyway).  [html_parser] is
    [BeautifulSoup(markup, 'html.parser')]; [Image_open] is
    [PIL.Image.open] and gives the size of the picture; [writable] says
    whether [open(path, 'wb')] and the write succeed; [can_makedirs]
    whether [os.makedirs] does; [unicode_alnum] is [str.isalnum] on
    the characters beyond ASCII. *)
Record Env : Type := {
  requests_get : nat -> str -> Result Response;
  html_parser : str -> soup;
  Image_open : bytes -> Result (Z * Z);
  writable : str -> bool;
  can_makedirs : str -> bool;
  unicode_alnum : N -> bool
}.

(** The state a run changes: the number of requests made so far, the
    files written and the folders that exist. *)
Record World : Type := {
  clock : nat;
  files : gmap str bytes;
  folders : gset str
}.

(** The world after one more request. *)
Definition tick (w : World) : World :=
  {| clock := S (clock w); files := files w; folders := folders w |}.

Definition M (A : Type) : Type := World -> Result A * World.

Definition ret {A} (a : A) : M A := fun w => (Ok a, w).

Definition raise {A} (e : exn) : M A := fun w => (Raise e, w).

Definition bind {A B} (m : M A) (k : A -> M B) : M B :=
  fun w =>
    match m w with
    | (Ok a, w') => k a w'
    | (Raise e, w') => (Raise e, w')
    end.

(** [try: body  except Exception: handler] *)
Definition try_except {A} (body : M A) (handler : exn -> M A) : M A :=
  fun w =>
    match body w with
    | (Ok a, w') => (Ok a, w')
    | (Raise e, w') => handler e w'
    end.

Definition lift {A} (r : Result A) : M A := fun w => (r, w).

Declare Scope m_scope.
Delimit Scope m_scope with M.
Notation "'do!' x ':=' m 'in' k" := (bind m (fun x => k))
  (at level 10, x pattern, m at level 100, k at level 200,
   format "'do!'  x  ':='  m  'in' '//' k") : m_scope.

(** ** The regular expressions of the program *)

Module Re.

Definition strip_prefix (p s : str) : option str :=
  if startswith s p then Some (drop (length p) s) else None.

(** [re.sub(r'^\[\s*edit\s*\]', '', s)]: the pattern can only match
    at the start, and [\s*] takes all the white space there is. *)
Definition sub_edit_marker (s : str) : str :=
  match strip_prefix (lit "[") s with
  | Some s1 =>
      match strip_prefix (lit "edit") (lstrip s1) with
      | Some s2 =>
          match strip_prefix (lit "]") (lstrip s2) with
          | Some s3 => s3
          | None => s
          end
      | None => s
      end
  | None => s
  end.

(** The character class of the file-name pattern: backslash, slash,
    star, question mark, colon, double quote, less, greater, bar. *)
Definition illegal (c : N) : bool :=
  (c =? 92) || (c =? 47) || (c =? 42) || (c =? 63) || (c =? 58)
  || (c =? 34) || (c =? 60) || (c =? 62) || (c =? 124).

(** [re.sub] of that class by an underscore *)
Definition sub_illegal (s : str) : str :=
  List.map (fun c => if illegal c then 95 else c) s.

(** [f"{n:,}"] for a natural number *)
Fixpoint commas_rev (ds : str) (k : nat) : str :=
  match ds with
  | [] => []
  | d :: ds' =>
      match k with
      | 3%nat => 44 :: d :: commas_rev ds' 1
      | _ => d :: commas_rev ds' (S k)
      end
  end.

Definition format_comma (n : N) : str :=
  rev (commas_rev (rev (lit (NilZero.string_of_uint (N.to_uint n)))) 0).

(** What [.*] can cross: the characters up to the first newline. *)
Fixpoint first_line (s : str) : str :=
  match s with
  | [] => []
  | c :: s' => if c =? 10 then [] else c :: first_line s'
  end.

Section Word.
Variable E : Env.

(** [\w] *)
Definition is_word (c : N) : bool :=
  ((48 <=? c) && (c <=? 57)) || ((65 <=? c) && (c <=? 90))
  || ((97 <=? c) && (c <=? 122)) || (c =? 95)
  || ((128 <=? c) && unicode_alnum E c).

Definition word_at (o : option N) : bool :=
  match o with Some c => is_word c | None => false end.

(** [\b] between two neighbours *)
Definition boundary (prev next : option N) : bool :=
  xorb (word_at prev) (word_at next).

(** [\b<num>\b.*pixel] matched at the start of [s], [prev] being
    the character before it: [.] is any character but a newline. *)
Definition match_size_here (num s : str) (prev : option N) : bool :=
  boundary prev (head s) && startswith s num &&
  (let rest := drop (length num) s in
   boundary (last num) (head rest) &&
   contains (lit "pixel") (first_line rest)).

Fixpoint search_size_from (num s : str) (prev : option N) : bool :=
  match_size_here num s prev ||
  match s with
  | [] => false
  | c :: s' => search_size_from num s' (Some c)
  end.

(** [re.search(rf'\b{size:,}\b.*pixel', s)] *)
Definition search_size (size : N) (s : str) : bool :=
  search_size_from (format_comma size) s None.

End Word.

End Re.

(** ** The content tree of the parse API *)

Module Api.

(** One entry of [sections]. *)
Record section : Type := {
  index : str;
  line : str
}.

(** The [parse] object.  A field is [None] when its key is absent;
    [text] holds the object under the key [text], which in turn may
    or may not have the key [*]; an entry of [categories] is its
    [*] field. *)
Record data : Type := {
  text : option (option str);
  displaytitle : option str;
  title : option str;
  sections : option (list section);
  categories : option (list str);
  externallinks : option (list str)
}.

End Api.

(** ** The program *)

(** [l[i]] *)
Definition index {A} (l : list A) (i : nat) : Result A :=
  match l !! i with
  | Some a => Ok a
  | None => Raise IndexError
  end.

(** [l[-1]] *)
Definition index_last {A} (l : list A) : Result A :=
  match last l with
  | Some a => Ok a
  | None => Raise IndexError
  end.

(** [int(c)] for one character *)
Definition int_of_char (c : N) : Result nat :=
  if (48 <=? c) && (c <=? 57) then Ok (N.to_nat (c - 48)) else Raise ValueError.

(** *** Title Resolver *)

(** [extract_wiki_title]: [Ok None] is the [None] of the source. *)
Definition extract_wiki_title (wiki_url : str) : Result (option str) :=
  if contains (lit "/wiki/") wiki_url then
    (try! after := index (split (lit "/wiki/") wiki_url) 1 in
     try! no_fragment := index (split (lit "#") after) 0 in
     try! title := index (split (lit "?") no_fragment) 0 in
     let title := replace (lit "_") (lit " ") (Urllib.unquote title) in
     Ok (Some title))%result
  else Ok None.

(** *** Content Renderer *)

Definition failure_placeholder : str := lit "Failed to retrieve page content".

Definition unwanted_classes : list str :=
  [lit "mw-editsection"; lit "reference"; lit "mw-empty-elt";
   lit "noprint"; lit "mbox-image"].

Definition block_names : list str :=
  [lit "p"; lit "h1"; lit "h2"; lit "h3"; lit "h4"; lit "h5"; lit "h6";
   lit "ul"; lit "ol"; lit "table"].

Definition skip_markers : list str :=
  [lit "toc"; lit "sidebar"; lit "navbox"; lit "vertical-navbox"].

(** The test on one [parent]:
    [parent.get('class', '') and any(c in ' '.join(parent.get('class', '')) for c in ...)].
    Joining a string puts a space between its characters. *)
Definition class_marked (a : attrs_t) : bool :=
  match a !! lit "class" with
  | None => false
  | Some (AList l) =>
      negb (bool_decide (l = []))
      && existsb (fun c => contains c (join (lit " ") l)) skip_markers
  | Some (AStr s) =>
      negb (bool_decide (s = []))
      && existsb (fun c => contains c (join (lit " ") (List.map (fun x => [x]) s)))
           skip_markers
  end.

(** [any(... for parent in element.parents)] *)
Definition in_unwanted_section (parents : list attrs_t) : bool :=
  existsb class_marked parents.

(** The lines a list contributes: one per direct [li] child. *)
Definition render_list (element : node) : str :=
  flat_map (fun li => lit "- " ++ strip (get_text li) ++ nl)
    (find_all_children (lit "li") element)
  ++ nl.

(** What one element of the traversal appends to [plain_text]. *)
Definition render_element (element : node) : Result str :=
  let name := name_of element in
  if startswith name (lit "h") then
    (try! digit := index name 1 in
     try! level := int_of_char digit in
     let heading_text := strip (get_text element) in
     let heading_text := Re.sub_edit_marker heading_text in
     Ok (nl ++ repeat_char 35 level ++ lit " " ++ heading_text ++ nl ++ nl))%result
  else if Py.eqb name (lit "p") then
    let paragraph_text := strip (get_text element) in
    Ok (match paragraph_text with
        | [] => []
        | _ => paragraph_text ++ nl ++ nl
        end)
  else if existsb (Py.eqb name) [lit "ul"; lit "ol"] then
    Ok (render_list element)
  else if Py.eqb name (lit "table") then
    match find (lit "caption") element with
    | Some caption => Ok (lit "[Table: " ++ strip (get_text caption) ++ lit "]" ++ nl ++ nl)
    | None => Ok (lit "[Table content]" ++ nl ++ nl)
    end
  else Ok [].

(** The loop over [soup.find_all([...])]. *)
Fixpoint render_elements (elements : list located) (plain_text : str)
  : Result str :=
  match elements with
  | [] => Ok plain_text
  | (parents, element) :: rest =>
      if in_unwanted_section parents then render_elements rest plain_text
      else
        (try! block := render_element element in
         render_elements rest (plain_text ++ block))%result
  end.

Definition render_categories (cats : list str) : str :=
  nl ++ lit "## Categories" ++ nl
  ++ flat_map (fun cat => lit "- " ++ replace (lit "Category:") [] cat ++ nl) cats.

Definition render_links (links : list str) : str :=
  nl ++ lit "## External Links" ++ nl
  ++ flat_map (fun link => lit "- " ++ link ++ nl) links.

(** [{section['index']: section for section in sections}]: a later
    entry replaces an earlier one with the same index. *)
Definition section_dict (sections : list Api.section) : gmap str Api.section :=
  list_to_map (rev (List.map (fun s => (Api.index s, s)) sections)).

Section Renderer.
Variable E : Env.

(** [process_wiki_content]: the pair (plain_text, html_text). *)
Definition process_wiki_content (api_data : option Api.data)
  : Result (str * option str) :=
  match api_data with
  | None => Ok (failure_placeholder, None)
  | Some d =>
      match Api.text d with
      | None | Some None => Ok (failure_placeholder, None)
      | Some (Some html_content) =>
          let soup := html_parser E html_content in
          let soup := decompose_selected unwanted_classes soup in
          let title :=
            match Api.displaytitle d, Api.title d with
            | Some t, _ => t
            | None, Some t => t
            | None, None => lit "Untitled"
            end in
          let title := soup_text (html_parser E title) in
          let plain_text := lit "# " ++ title ++ nl ++ nl in
          let sections := default [] (Api.sections d) in
          let section_dict := section_dict sections in
          (try! plain_text :=
             render_elements (find_all_located block_names soup) plain_text in
           let plain_text :=
             match Api.categories d with
             | Some cats => plain_text ++ render_categories cats
             | None => plain_text
             end in
           let plain_text :=
             match Api.externallinks d with
             | Some links => plain_text ++ render_links links
             | None => plain_text
             end in
           Ok (strip plain_text, Some html_content))%result
      end
  end.

End Renderer.

(** *** Image Locator *)

(** An Image Descriptor: the dictionary with the keys [filename],
    [thumbnail_url] and [file_page]. *)
Record descriptor : Type := {
  filename : str;
  thumbnail_url : str;
  file_page : str
}.

(** [tag[key]] used as a string: a missing key raises, and so does
    calling [startswith] on a list value. *)
Definition attr_str (key : str) (tag : node) : Result str :=
  match attrs_of tag !! key with
  | Some (AStr s) => Ok s
  | Some (AList _) => Raise AttributeError
  | None => Raise KeyError
  end.

(** [key in tag.attrs] *)
Definition has_key (key : str) (tag : node) : bool :=
  bool_decide (is_Some (attrs_of tag !! key)).

(** [u if u.startswith('http') else prefix + u] *)
Definition absolute (prefix u : str) : str :=
  if startswith u (lit "http") then u else prefix ++ u.

Definition commons_origin : str := lit "https://commons.wikimedia.org".

(** [urllib.parse.unquote(file_page.split('/')[-1])] *)
Definition filename_of (file_page : str) : Result str :=
  (try! last_segment := index_last (split (lit "/") file_page) in
   Ok (Urllib.unquote last_segment))%result.

(** The body of the gallery loop and of the thumbnail loop: [thumb] is
    the first [img] of the item and [link] its first [a] of class
    [image]. *)
Definition extract_thumb_item (item : node) : Result (option descriptor) :=
  let thumb := find (lit "img") item in
  let link := find_class (lit "a") (lit "image") item in
  match thumb, link with
  | Some thumb, Some link =>
      if has_key (lit "src") thumb && has_key (lit "href") link then
        (try! thumb_url := attr_str (lit "src") thumb in
         let thumb_url := absolute (lit "https:") thumb_url in
         try! file_page := attr_str (lit "href") link in
         let file_page := absolute commons_origin file_page in
         try! filename := filename_of file_page in
         Ok (Some {| filename := filename;
                     thumbnail_url := thumb_url;
                     file_page := file_page |}))%result
      else Ok None
  | _, _ => Ok None
  end.

(** The body of the loop over the [sdms-image-result] anchors. *)
Definition extract_modern_result (result : node) : Result (option descriptor) :=
  if has_key (lit "href") result then
    (try! file_page := attr_str (lit "href") result in
     let file_page := absolute commons_origin file_page in
     match find (lit "img") result with
     | Some img =>
         if has_key (lit "src") img then
           try! thumb_url := attr_str (lit "src") img in
           let thumb_url := absolute (lit "https:") thumb_url in
           try! filename := filename_of file_page in
           Ok (Some {| filename := filename;
                       thumbnail_url := thumb_url;
                       file_page := file_page |})
         else Ok None
     | None => Ok None
     end)%result
  else Ok None.

(** The body of the loop over the [searchResultImage] blocks. *)
Definition extract_legacy_result (result : node) : Result (option descriptor) :=
  let link := find (lit "a") result in
  let img := find (lit "img") result in
  match link, img with
  | Some link, Some img =>
      if has_key (lit "href") link && has_key (lit "src") img then
        (try! file_page := attr_str (lit "href") link in
         let file_page := absolute commons_origin file_page in
         try! thumb_url := attr_str (lit "src") img in
         let thumb_url := absolute (lit "https:") thumb_url in
         try! filename := filename_of file_page in
         Ok (Some {| filename := filename;
                     thumbnail_url := thumb_url;
                     file_page := file_page |}))%result
      else Ok None
  | _, _ => Ok None
  end.

(** One scanning loop: it leaves at the first item met with
    [count >= max_images], and appends what the body extracts. *)
Fixpoint scan (extract : node -> Result (option descriptor)) (max_images : Z)
    (items : list node) (images : list descriptor) (count : Z)
  : Result (list descriptor * Z) :=
  match items with
  | [] => Ok (images, count)
  | item :: rest =>
      if (count >=? max_images)%Z then Ok (images, count)
      else
        (try! found := extract item in
         match found with
         | Some d => scan extract max_images rest (images ++ [d]) (count + 1)%Z
         | None => scan extract max_images rest images count
         end)%result
  end.

(** The scans of the category page. *)
Definition scan_category (soup : soup) (max_images : Z)
  : Result (list descriptor) :=
  (try! (images, count) :=
     match soup_find_class (lit "ul") (lit "gallery") soup with
     | Some gallery =>
         scan extract_thumb_item max_images
           (find_all_class (lit "li") (lit "gallerybox") gallery) [] 0%Z
     | None => Ok ([], 0%Z)
     end in
   try! (images, count) :=
     if (count <? max_images)%Z then
       scan extract_thumb_item max_images
         (soup_find_all_class (lit "div") (lit "thumb") soup) images count
     else Ok (images, count) in
   Ok images)%result.

(** The scans of the media-search page. *)
Definition scan_search (soup : soup) (max_images : Z)
  : Result (list descriptor) :=
  (try! (images, count) :=
     scan extract_modern_result max_images
       (soup_find_all_class (lit "a") (lit "sdms-image-result") soup) [] 0%Z in
   try! (images, count) :=
     match images with
     | [] =>
         scan extract_legacy_result max_images
           (soup_find_all_class (lit "div") (lit "searchResultImage") soup)
           images count
     | _ => Ok (images, count)
     end in
   Ok images)%result.

Section Locator.
Variable E : Env.

(** [requests.get(url, headers=get_headers())] *)
Definition get (u : str) : M Response :=
  fun w => (requests_get E (clock w) u, tick w).

Definition search_url (quoted : str) : str :=
  lit "https://commons.wikimedia.org/w/index.php?search=" ++ quoted
  ++ lit "&title=Special:MediaSearch&type=image".

(** Tier 2.  The address is built before the [try]. *)
Definition get_commons_file_namespace (page_name : str) (max_images : Z)
  : M (list descriptor) :=
  (do! quoted := lift (Urllib.quote page_name) in
   let search_url := search_url quoted in
   try_except
     (do! response := get search_url in
      if negb (status_code response =? 200)%Z then ret []
      else
        let soup := html_parser E (text response) in
        lift (scan_search soup max_images))
     (fun _ => ret []))%M.

Definition commons_url (page_name : str) : str :=
  lit "https://commons.wikimedia.org/wiki/Category:"
  ++ replace (lit " ") (lit "_") page_name.

(** Tier 1. *)
Definition get_commons_category_images (page_name : str) (max_images : Z)
  : M (list descriptor) :=
  let commons_url := commons_url page_name in
  try_except
    (do! response := get commons_url in
     if contains (lit "Special:Search") (url response)
     then get_commons_file_namespace page_name max_images
     else if negb (status_code response =? 200)%Z then ret []
     else
       let soup := html_parser E (text response) in
       do! images := lift (scan_category soup max_images) in
       match images with
       | [] => get_commons_file_namespace page_name max_images
       | _ => ret images
       end)%M
    (fun _ => ret []).

End Locator.

(** *** Thumbnail Upgrader *)

Definition candidate_sizes : list N := [1600; 1200; 1000; 800; 600; 400; 300].

(** [link.get('href', '')] *)
Definition href_of (link : node) : attr_value :=
  default (AStr []) (attrs_of link !! lit "href").

(** [href and '/thumb/' in href] *)
Definition thumb_href (href : attr_value) : bool :=
  match href with
  | AStr s => negb (bool_decide (s = [])) && contains (lit "/thumb/") s
  | AList l => negb (bool_decide (l = [])) && existsb (Py.eqb (lit "/thumb/")) l
  end.

(** [href if href.startswith('http') else 'https:' + href] *)
Definition absolute_href (href : attr_value) : Result str :=
  match href with
  | AStr s => Ok (absolute (lit "https:") s)
  | AList _ => Raise AttributeError
  end.

Section Upgrader.
Variable E : Env.

(** The inner loop: the first anchor whose text matches the size and
    whose target has the thumbnail marker. *)
Fixpoint first_size_link (size : N) (size_links : list node)
  : option attr_value :=
  match size_links with
  | [] => None
  | link :: rest =>
      let text := strip (get_text link) in
      let href := href_of link in
      if Re.search_size E size text && thumb_href href
      then Some href
      else first_size_link size rest
  end.

(** The outer loop over the candidate sizes: those below [min_width]
    are passed over. *)
Fixpoint first_sized (sizes : list N) (min_width : Z) (soup : soup)
  : option attr_value :=
  match sizes with
  | [] => None
  | size :: rest =>
      if (Z.of_N size <? min_width)%Z then first_sized rest min_width soup
      else
        match first_size_link size (soup_find_all (lit "a") soup) with
        | Some href => Some href
        | None => first_sized rest min_width soup
        end
  end.

(** The last resort: the picture of the [fullImageLink] block. *)
Definition full_image (soup : soup) : Result (option str) :=
  match soup_find_class (lit "div") (lit "fullImageLink") soup with
  | Some img_div =>
      match find (lit "img") img_div with
      | Some img =>
          if has_key (lit "src") img then
            (try! src := attr_str (lit "src") img in
             Ok (Some (absolute (lit "https:") src)))%result
          else Ok None
      | None => Ok None
      end
  | None => Ok None
  end.

(** [find_larger_thumbnail]: [None] is the [None] of the source. *)
Definition find_larger_thumbnail (file_page : str) (min_width : Z)
  : M (option str) :=
  try_except
    (do! response := get E file_page in
     if negb (status_code response =? 200)%Z then ret None
     else
       let soup := html_parser E (text response) in
       match first_sized candidate_sizes min_width soup with
       | Some href =>
           do! u := lift (absolute_href href) in
           ret (Some u)
       | None => lift (full_image soup)
       end)%M
    (fun _ => ret None).

End Upgrader.

(** *** Image Downloader *)

(** [os.path.join(folder, name)] on a POSIX system *)
Definition os_path_join (folder name : str) : str :=
  if startswith name (lit "/") then name
  else
    match last folder with
    | None => name
    | Some c => if c =? 47 then folder ++ name else folder ++ lit "/" ++ name
    end.

Section Downloader.
Variable E : Env.

(** [os.path.exists(path)] *)
Definition path_exists (path : str) : M bool :=
  fun w =>
    (Ok (bool_decide (path ∈ folders w) || bool_decide (is_Some (files w !! path))), w).

(** [os.makedirs(path)] *)
Definition makedirs (path : str) : M unit :=
  fun w =>
    if can_makedirs E path
    then (Ok tt, {| clock := clock w; files := files w;
                    folders := {[path]} ∪ folders w |})
    else (Raise OSError, w).

(** [with open(path, 'wb') as f: f.write(data)] *)
Definition write_file (path : str) (data : bytes) : M unit :=
  fun w =>
    if writable E path
    then (Ok tt, {| clock := clock w; files := <[path := data]> (files w);
                    folders := folders w |})
    else (Raise OSError, w).

(** [a if a else b] for an optional string: [None] and the empty
    string are false. *)
Definition or_else (a : option str) (b : str) : str :=
  match a with
  | Some (c :: s) => c :: s
  | _ => b
  end.

(** The handler of the outer [try] prints the variable [filename],
    which is bound only once an iteration has passed its assignment. *)
Definition report_error (filename_var : option str) (saved_images : list str)
  : M (list str * option str) :=
  match filename_var with
  | Some _ => ret (saved_images, filename_var)
  | None => raise NameError
  end.

(** The statements of the outer [try] that follow [filename = ...]. *)
Definition fetch_and_save (img_url filename folder : str)
    (saved_images : list str) : M (list str) :=
  (do! response := get E img_url in
   if (status_code response =? 200)%Z then
     let safe_filename := Re.sub_illegal filename in
     try_except
       (do! img := lift (Image_open E (content response)) in
        let file_path := os_path_join folder safe_filename in
        do! _ := write_file file_path (content response) in
        ret (saved_images ++ [file_path]))
       (fun _ => ret saved_images)
   else ret saved_images)%M.

(** One iteration of the loop.  The state of the loop is the list
    [saved_images] and the binding of the variable [filename]. *)
Definition download_one (folder : str) (min_width : Z) (img_info : descriptor)
    (saved_images : list str) (filename_var : option str)
  : M (list str * option str) :=
  fun w =>
    match find_larger_thumbnail E (file_page img_info) min_width w with
    | (Raise _, w1) => report_error filename_var saved_images w1
    | (Ok larger_thumb, w1) =>
        let img_url := or_else larger_thumb (thumbnail_url img_info) in
        let filename := filename img_info in
        match fetch_and_save img_url filename folder saved_images w1 with
        | (Raise _, w2) => report_error (Some filename) saved_images w2
        | (Ok saved_images, w2) => (Ok (saved_images, Some filename), w2)
        end
    end.

Fixpoint download_loop (folder : str) (min_width : Z)
    (images_list : list descriptor) (saved_images : list str)
    (filename_var : option str) : M (list str) :=
  match images_list with
  | [] => ret saved_images
  | img_info :: rest =>
      (do! (saved_images, filename_var) :=
         download_one folder min_width img_info saved_images filename_var in
       download_loop folder min_width rest saved_images filename_var)%M
  end.

(** [download_thumbnail_images] *)
Definition download_thumbnail_images (images_list : list descriptor)
    (folder : str) (min_width : Z) : M (list str) :=
  (do! exists_ := path_exists folder in
   do! _ := (if exists_ then ret tt else makedirs folder) in
   download_loop folder min_width images_list [] None)%M.

End Downloader.

(** ** Vocabulary of the statements *)

(** The text after the first occurrence of [sep] in [s]. *)
Fixpoint after_first (sep s : str) : option str :=
  if startswith s sep then Some (drop (length sep) s)
  else
    match s with
    | [] => None
    | _ :: s' => after_first sep s'
    end.

(** The text before the first occurrence of [sep] in [s], all of [s]
    when there is none. *)
Fixpoint before_first (sep s : str) : str :=
  if startswith s sep then []
  else
    match s with
    | [] => []
    | c :: s' => c :: before_first sep s'
    end.

(** [s] cut at its first fragment or query delimiter. *)
Fixpoint truncate_at_delimiter (s : str) : str :=
  match s with
  | [] => []
  | c :: s' => if (c =? 35) || (c =? 63) then [] else c :: truncate_at_delimiter s'
  end.

(** The title as the specification words it: the substring after the
    marker, cut at the first fragment or query delimiter,
    percent-decoded, underscores replaced by spaces; [None] when the
    marker is missing. *)
Definition spec_extract_wiki_title (wiki_url : str) : option str :=
  match after_first (lit "/wiki/") wiki_url with
  | Some rest =>
      Some (replace (lit "_") (lit " ")
              (Urllib.unquote (truncate_at_delimiter rest)))
  | None => None
  end.

(** The text after the marker gives an empty title at once: nothing
    follows, or a delimiter follows. *)
Definition empty_title_segment (rest : str) : bool :=
  bool_decide (rest = []) || startswith rest (lit "#")
  || startswith rest (lit "?").

(** The raw markup of a content tree, when it has one. *)
Definition markup_of (api_data : option Api.data) : option str :=
  match api_data with
  | Some d =>
      match Api.text d with
      | Some (Some html_content) => Some html_content
      | _ => None
      end
  | None => None
  end.

(** The block an element adds to the text (nothing where
    [render_element] would raise). *)
Definition block_of (element : node) : str :=
  match render_element element with
  | Ok block => block
  | Raise _ => []
  end.

(** The blocks of a traversal, those under a marked ancestor left out. *)
Definition visible_blocks (elements : list located) : str :=
  flat_map (fun l => if in_unwanted_section (fst l) then [] else block_of (snd l))
    elements.

(** The markup as the renderer traverses it: parsed, the unwanted
    elements taken out. *)
Definition cleaned_soup (E : Env) (html_content : str) : soup :=
  decompose_selected unwanted_classes (html_parser E html_content).

Definition is_tag (n : node) : Prop :=
  match n with Elem _ _ _ => True | _ => False end.

Definition is_list_element (element : node) : bool :=
  has_name [lit "ul"; lit "ol"] element.

(** The display title, markup stripped. *)
Definition title_of (E : Env) (d : Api.data) : str :=
  soup_text (html_parser E
    (match Api.displaytitle d, Api.title d with
     | Some t, _ => t
     | None, Some t => t
     | None, None => lit "Untitled"
     end)).

(** The category and link sections that close the text. *)
Definition trailer_of (d : Api.data) : str :=
  match Api.categories d with Some cats => render_categories cats | None => [] end
  ++ match Api.externallinks d with Some links => render_links links | None => [] end.

(** The text of a tree with markup, before the final [strip]. *)
Definition plain_text_of (E : Env) (d : Api.data) (html_content : str) : str :=
  lit "# " ++ title_of E d ++ nl ++ nl
  ++ visible_blocks (find_all_located block_names (cleaned_soup E html_content))
  ++ trailer_of d.

(** A world whose next request is the [n]-th. *)
Definition world_at (n : nat) : World :=
  {| clock := n; files := ∅; folders := ∅ |}.

(** What the Thumbnail Upgrader returns when its request is the
    [n]-th of the run. *)
Definition larger_thumbnail_at (E : Env) (file_page : str) (min_width : Z)
    (n : nat) : option str :=
  match fst (find_larger_thumbnail E file_page min_width (world_at n)) with
  | Ok larger_thumb => larger_thumb
  | Raise _ => None
  end.

(** The path and the bytes the downloader writes for a descriptor
    whose two requests are the [n]-th and the next, [None] when the
    transfer, the status, the decoding or the writing fails. *)
Definition saved_at (E : Env) (folder : str) (min_width : Z) (n : nat)
    (img_info : descriptor) : option (str * bytes) :=
  let img_url :=
    or_else (larger_thumbnail_at E (file_page img_info) min_width n)
      (thumbnail_url img_info) in
  match requests_get E (S n) img_url with
  | Ok response =>
      if (status_code response =? 200)%Z then
        match Image_open E (content response) with
        | Ok _ =>
            let file_path :=
              os_path_join folder (Re.sub_illegal (filename img_info)) in
            if writable E file_path then Some (file_path, content response)
            else None
        | Raise _ => None
        end
      else None
  | Raise _ => None
  end.

Definition saves_of (s : option (str * bytes)) : list (str * bytes) :=
  match s with Some s => [s] | None => [] end.

(** The writes of a batch whose first request is the [n]-th: every
    descriptor takes two requests. *)
Fixpoint saves_from (E : Env) (folder : str) (min_width : Z) (n : nat)
    (images_list : list descriptor) : list (str * bytes) :=
  match images_list with
  | [] => []
  | img_info :: rest =>
      saves_of (saved_at E folder min_width n img_info)
      ++ saves_from E folder min_width (S (S n)) rest
  end.

(** The files after a sequence of writes. *)
Definition write_all (saves : list (str * bytes)) (fs : gmap str bytes)
  : gmap str bytes :=
  fold_left (fun m s => <[fst s := snd s]> m) saves fs.

(** The destination folder is there or can be made. *)
Definition folder_ready (E : Env) (folder : str) (w : World) : Prop :=
  folder ∈ folders w \/ is_Some (files w !! folder)
  \/ can_makedirs E folder = true.

(** ** Example data

    The parser of the examples returns, for the markup the examples
    use, the trees [html.parser] builds for it; any other text is
    taken to be free of tags. *)

Module ExampleRenderer.

Definition gravity_markup : str := lit "<p>Gravity is...</p>".

Definition gravity_soup : soup :=
  [Elem (lit "p") ∅ [Text (lit "Gravity is...")]].

Definition nested_markup : str :=
  lit "<ul><li>A<ul><li>B</li></ul></li></ul>".

Definition inner_list : node :=
  Elem (lit "ul") ∅ [Elem (lit "li") ∅ [Text (lit "B")]].

Definition nested_item : node :=
  Elem (lit "li") ∅ [Text (lit "A"); inner_list].

Definition outer_list : node := Elem (lit "ul") ∅ [nested_item].

Definition parser (markup : str) : soup :=
  if Py.eqb markup gravity_markup then gravity_soup
  else if Py.eqb markup nested_markup then [outer_list]
  else match markup with [] => [] | _ => [Text markup] end.

Definition env : Env := {|
  requests_get := fun _ _ => Raise RequestException;
  html_parser := parser;
  Image_open := fun _ => Raise UnidentifiedImageError;
  writable := fun _ => true;
  can_makedirs := fun _ => true;
  unicode_alnum := fun _ => false
|}.

Definition gravity : Api.data := {|
  Api.text := Some (Some gravity_markup);
  Api.displaytitle := Some (lit "Gravity");
  Api.title := None;
  Api.sections := None;
  Api.categories := Some [lit "Category:Physics"];
  Api.externallinks := None
|}.

(** The text the renderer returns for [gravity]: three newlines
    separate the paragraph from the category heading. *)
Definition gravity_text : str :=
  lit "# Gravity" ++ nl ++ nl ++ lit "Gravity is..." ++ nl ++ nl ++ nl
  ++ lit "## Categories" ++ nl ++ lit "- Physics".

(** The text the specification expects for it. *)
Definition gravity_text_claimed : str :=
  lit "# Gravity" ++ nl ++ nl ++ lit "Gravity is..." ++ nl ++ nl
  ++ lit "## Categories" ++ nl ++ lit "- Physics".

(** A tree whose markup is the empty string. *)
Definition empty_markup : Api.data := {|
  Api.text := Some (Some []);
  Api.displaytitle := Some (lit "Gravity");
  Api.title := None;
  Api.sections := None;
  Api.categories := None;
  Api.externallinks := None
|}.

Definition nested : Api.data := {|
  Api.text := Some (Some nested_markup);
  Api.displaytitle := Some (lit "Lists");
  Api.title := None;
  Api.sections := None;
  Api.categories := None;
  Api.externallinks := None
|}.

(** What the renderer returns for [nested]: the block of the outer
    list, then a block of its own for the nested list. *)
Definition nested_text : str :=
  lit "# Lists" ++ nl ++ nl ++ lit "- AB" ++ nl ++ nl ++ lit "- B".

End ExampleRenderer.


Module ExampleLocator.

(** The result page of the media search: one result. *)
Definition search_markup : str :=
  lit "<a class='sdms-image-result' href='/wiki/File:Apple.jpg'><img src='//upload.wikimedia.org/thumb/Apple.jpg'></a>".

Definition search_soup : soup :=
  [Elem (lit "a")
     (mk_attrs [(lit "class", AList [lit "sdms-image-result"]);
                (lit "href", AStr (lit "/wiki/File:Apple.jpg"))])
     [Elem (lit "img")
        (mk_attrs [(lit "src", AStr (lit "//upload.wikimedia.org/thumb/Apple.jpg"))])
        []]].

(** A category page with an empty gallery. *)
Definition empty_gallery_markup : str := lit "<ul class='gallery'></ul>".

Definition empty_gallery_soup : soup :=
  [Elem (lit "ul") (mk_attrs [(lit "class", AList [lit "gallery"])]) []].

Definition parser (markup : str) : soup :=
  if Py.eqb markup search_markup then search_soup
  else if Py.eqb markup empty_gallery_markup then empty_gallery_soup
  else match markup with [] => [] | _ => [Text markup] end.

(** The category of "Gravity" answers 404, the category of "Apple"
    has an empty gallery, the media search has one result. *)
Definition respond (n : nat) (u : str) : Result Response :=
  if contains (lit "Special:MediaSearch") u then
    Ok {| url := u; status_code := 200; text := search_markup; content := [] |}
  else if contains (lit "Category:Gravity") u then
    Ok {| url := u; status_code := 404; text := []; content := [] |}
  else if contains (lit "Category:Apple") u then
    Ok {| url := u; status_code := 200; text := empty_gallery_markup;
          content := [] |}
  else Raise RequestException.

Definition env : Env := {|
  requests_get := respond;
  html_parser := parser;
  Image_open := fun _ => Raise UnidentifiedImageError;
  writable := fun _ => true;
  can_makedirs := fun _ => true;
  unicode_alnum := fun _ => false
|}.

(** The descriptor of the search result. *)
Definition apple : descriptor := {|
  filename := lit "File:Apple.jpg";
  thumbnail_url := lit "https://upload.wikimedia.org/thumb/Apple.jpg";
  file_page := lit "https://commons.wikimedia.org/wiki/File:Apple.jpg"
|}.

End ExampleLocator.


Module ExampleUpgrader.

Definition detail_page : str :=
  lit "https://commons.wikimedia.org/wiki/File:Tower.jpg".

Definition portrait_page : str :=
  lit "https://commons.wikimedia.org/wiki/File:Portrait.jpg".

Definition preview_page : str :=
  lit "https://commons.wikimedia.org/wiki/File:Preview.jpg".

(** The address of a rendition 600 pixels wide. *)
Definition thumb_600 : str :=
  lit "//upload.wikimedia.org/wikipedia/commons/thumb/a/ab/X.jpg/600px-X.jpg".

(** The label of a size link: width, multiplication sign, height. *)
Definition size_label (width height : str) : str :=
  width ++ lit " " ++ [215] ++ lit " " ++ height ++ lit " pixels".

(** A detail page whose only size link is a rendition 600 wide and
    450 high, and one whose only size link is 600 wide and 800 high. *)
Definition landscape_markup : str :=
  lit "<a href='" ++ thumb_600 ++ lit "'>" ++ size_label (lit "600") (lit "450")
  ++ lit "</a>".

Definition portrait_markup : str :=
  lit "<a href='" ++ thumb_600 ++ lit "'>" ++ size_label (lit "600") (lit "800")
  ++ lit "</a>".

(** The address of the picture shown on the page. *)
Definition preview_src : str :=
  lit "//upload.wikimedia.org/wikipedia/commons/thumb/a/ab/X.jpg/640px-X.jpg".

(** A detail page with the 600 by 450 size link and a full-image
    block. *)
Definition preview_markup : str :=
  landscape_markup ++ lit "<div class='fullImageLink'><img src='"
  ++ preview_src ++ lit "'></div>".

Definition preview_block : node :=
  Elem (lit "div") (mk_attrs [(lit "class", AList [lit "fullImageLink"])])
    [Elem (lit "img") (mk_attrs [(lit "src", AStr preview_src)]) []].

Definition size_link (width height : str) : node :=
  Elem (lit "a") (mk_attrs [(lit "href", AStr thumb_600)])
    [Text (size_label width height)].

Definition parser (markup : str) : soup :=
  if Py.eqb markup landscape_markup then [size_link (lit "600") (lit "450")]
  else if Py.eqb markup portrait_markup then [size_link (lit "600") (lit "800")]
  else if Py.eqb markup preview_markup then
    [size_link (lit "600") (lit "450"); preview_block]
  else match markup with [] => [] | _ => [Text markup] end.

Definition respond (n : nat) (u : str) : Result Response :=
  if Py.eqb u detail_page then
    Ok {| url := u; status_code := 200; text := landscape_markup; content := [] |}
  else if Py.eqb u preview_page then
    Ok {| url := u; status_code := 200; text := preview_markup; content := [] |}
  else if Py.eqb u portrait_page then
    Ok {| url := u; status_code := 200; text := portrait_markup; content := [] |}
  else Raise RequestException.

Definition env : Env := {|
  requests_get := respond;
  html_parser := parser;
  Image_open := fun _ => Raise UnidentifiedImageError;
  writable := fun _ => true;
  can_makedirs := fun _ => true;
  unicode_alnum := fun _ => false
|}.

End ExampleUpgrader.

Module ExampleDownloader.

Definition thumb (name : str) : str :=
  lit "https://upload.wikimedia.org/t/" ++ name.

Definition describe (filename name : str) : descriptor := {|
  filename := filename;
  thumbnail_url := thumb name;
  file_page := lit "https://commons.wikimedia.org/wiki/File:" ++ filename
|}.

(** Two descriptors whose file names differ and sanitize to the same
    name, and three that fail: a transport error, a status 404, bytes
    that are no picture. *)
Definition first : descriptor := describe (lit "a:b.jpg") (lit "1.jpg").
Definition second : descriptor := describe (lit "a?b.jpg") (lit "2.jpg").
Definition broken : descriptor := describe (lit "broken.jpg") (lit "broken.jpg").
Definition missing : descriptor := describe (lit "missing.jpg") (lit "missing.jpg").
Definition textual : descriptor := describe (lit "text.jpg") (lit "text.jpg").

Definition batch : list descriptor := [first; broken; missing; textual; second].

(** No detail page can be reached, so the original thumbnails are
    fetched. *)
Definition respond (n : nat) (u : str) : Result Response :=
  if Py.eqb u (thumb (lit "1.jpg")) then
    Ok {| url := u; status_code := 200; text := []; content := [1] |}
  else if Py.eqb u (thumb (lit "2.jpg")) then
    Ok {| url := u; status_code := 200; text := []; content := [2] |}
  else if Py.eqb u (thumb (lit "missing.jpg")) then
    Ok {| url := u; status_code := 404; text := []; content := [] |}
  else if Py.eqb u (thumb (lit "text.jpg")) then
    Ok {| url := u; status_code := 200; text := []; content := [] |}
  else Raise RequestException.

Definition env : Env := {|
  requests_get := respond;
  html_parser := fun markup => match markup with [] => [] | _ => [Text markup] end;
  Image_open := fun data =>
    match data with [] => Raise UnidentifiedImageError | _ => Ok (1%Z, 1%Z) end;
  writable := fun _ => true;
  can_makedirs := fun _ => true;
  unicode_alnum := fun _ => false
|}.

Definition folder : str := lit "wiki_images".

Definition saved_path : str := lit "wiki_images/a_b.jpg".

End ExampleDownloader.


(** ** Vocabulary of the further properties *)

(** An address with a scheme, as the normalisation of the locator and
    of the upgrader leaves it. *)
Definition absolute_address (u : str) : bool := startswith u (lit "http").

(** A character [str.encode('utf-8')] accepts: a code point that is
    not a surrogate. *)
Definition encodable (c : N) : bool :=
  (c <? 55296) || ((57343 <? c) && (c <? 1114112)).

(** The characters a page name must not hold for its category address
    to resolve back to it: underscore, fragment and query delimiters,
    percent sign. *)
Definition plain_title_char (c : N) : bool :=
  negb ((c =? 95) || (c =? 35) || (c =? 63) || (c =? 37)).

(** What a descriptor of the locator satisfies: both addresses are
    absolute and the file name is the decoded last segment of the
    address of the detail page. *)
Definition normalised (d : descriptor) : Prop :=
  absolute_address (thumbnail_url d) = true /\
  absolute_address (file_page d) = true /\
  filename_of (file_page d) = Ok (filename d).

(** The descriptors the items of a page give, in page order: an item
    the body of the loop skips gives none. *)
Definition extracted (extract : node -> Result (option descriptor))
    (items : list node) : list descriptor :=
  flat_map (fun item =>
              match extract item with
              | Ok (Some d) => [d]
              | _ => []
              end) items.

(** The body of the loop raises on no item. *)
Definition extracts_cleanly (extract : node -> Result (option descriptor))
    (items : list node) : Prop :=
  List.Forall (fun item => exists found, extract item = Ok found) items.

(** [max_images] as a number of items to take: none when it is not
    positive. *)
Definition quota (max_images : Z) : nat := Z.to_nat max_images.

(** The items of the two scans of a category page and of the two scans
    of a search page. *)
Definition gallery_items (s : soup) : list node :=
  match soup_find_class (lit "ul") (lit "gallery") s with
  | Some gallery => find_all_class (lit "li") (lit "gallerybox") gallery
  | None => []
  end.

Definition thumb_items (s : soup) : list node :=
  soup_find_all_class (lit "div") (lit "thumb") s.

Definition modern_items (s : soup) : list node :=
  soup_find_all_class (lit "a") (lit "sdms-image-result") s.

Definition legacy_items (s : soup) : list node :=
  soup_find_all_class (lit "div") (lit "searchResultImage") s.

(** The path the downloader writes a descriptor to. *)
Definition destination (folder : str) (img_info : descriptor) : str :=
  os_path_join folder (Re.sub_illegal (filename img_info)).

Module ExampleOrder.

(** A section heading, a paragraph and a list, in this order. *)
Definition markup : str :=
  lit "<h2>History</h2><p>Text.</p><ul><li>One</li></ul>".

Definition heading : node := Elem (lit "h2") ∅ [Text (lit "History")].
Definition paragraph : node := Elem (lit "p") ∅ [Text (lit "Text.")].
Definition items : node :=
  Elem (lit "ul") ∅ [Elem (lit "li") ∅ [Text (lit "One")]].

Definition parser (markup0 : str) : soup :=
  if Py.eqb markup0 markup then [heading; paragraph; items]
  else match markup0 with [] => [] | _ => [Text markup0] end.

Definition env : Env := {|
  requests_get := fun _ _ => Raise RequestException;
  html_parser := parser;
  Image_open := fun _ => Raise UnidentifiedImageError;
  writable := fun _ => true;
  can_makedirs := fun _ => true;
  unicode_alnum := fun _ => false
|}.

Definition page : Api.data := {|
  Api.text := Some (Some markup);
  Api.displaytitle := Some (lit "Page");
  Api.title := None;
  Api.sections := None;
  Api.categories := None;
  Api.externallinks := None
|}.

End ExampleOrder.

Module ExampleGallery.

Definition picture (name : str) : list node :=
  [Elem (lit "a")
     (mk_attrs [(lit "class", AList [lit "image"]);
                (lit "href", AStr (lit "/wiki/File:" ++ name))])
     [Elem (lit "img")
        (mk_attrs [(lit "src", AStr (lit "//upload.wikimedia.org/t/" ++ name))])
        []]].

(** A category page: a gallery of one picture, then two thumbnail
    blocks. *)
Definition category_soup : soup :=
  [Elem (lit "ul") (mk_attrs [(lit "class", AList [lit "gallery"])])
     [Elem (lit "li") (mk_attrs [(lit "class", AList [lit "gallerybox"])])
        (picture (lit "One.jpg"))];
   Elem (lit "div") (mk_attrs [(lit "class", AList [lit "thumb"])])
     (picture (lit "Two.jpg"));
   Elem (lit "div") (mk_attrs [(lit "class", AList [lit "thumb"])])
     (picture (lit "Three.jpg"))].

Definition found (name : str) : descriptor := {|
  filename := lit "File:" ++ name;
  thumbnail_url := lit "https://upload.wikimedia.org/t/" ++ name;
  file_page := lit "https://commons.wikimedia.org/wiki/File:" ++ name
|}.

End ExampleGallery.

(** A list of sizes in strictly descending order. *)
Fixpoint descending (sizes : list N) : Prop :=
  match sizes with
  | [] => True
  | size :: rest => List.Forall (fun smaller => smaller < size) rest /\ descending rest
  end.

(** The anchors of a detail page. *)
Definition anchors (s : soup) : list node := soup_find_all (lit "a") s.

(** [os.path.exists(folder)] in a world. *)
Definition folder_exists (folder : str) (w : World) : bool :=
  bool_decide (folder ∈ folders w) || bool_decide (is_Some (files w !! folder)).

(** * The script

    What the module runs when it is started as a program (the block
    under [if __name__ == '__main__']), and the function it calls to
    fetch the page from the API. *)

(** The object under the key [parse] of an answer of the API: the
    keys the renderer reads, and whether the object has any key
    besides them (the request asks for [images], [links] and
    [templates] too). *)
Record parse_object : Type := {
  read_keys : Api.data;
  other_keys : bool
}.

(** The decoded body of an answer, a JSON object: whether it has the
    key [error], and what it has under the key [parse]. *)
Record answer_body : Type := {
  has_error : bool;
  parse : option parse_object
}.

(** The answer to a request to the API: its status, and what
    [response.json()] gives. *)
Record ApiResponse : Type := {
  api_status_code : Z;
  json : Result answer_body
}.

(** What the script uses besides the world of the functions:
    [api_get n page_title] is the outcome of the [n]-th request of a
    run when it asks the API to parse [page_title]; [lower] is
    [str.lower]; [int] is [int] on a string, [None] when it raises
    [ValueError]. *)
Record Runtime : Type := {
  api_get : nat -> str -> Result ApiResponse;
  lower : str -> str;
  int : str -> option Z
}.

(** The ways a run ends before the last line of the script: [exit],
    an exception of the functions, the end of the input at a prompt,
    and the [TypeError] of writing what is no string. *)
Inductive stop : Type :=
| SystemExit (code : Z)
| Exception (e : exn)
| EOFError
| TypeError.

Inductive step (A : Type) : Type :=
| Next (a : A)
| Stop (s : stop).
Arguments Next {A} a.
Arguments Stop {A} s.

(** A piece of the script: it reads lines of the standard input and
    changes the world. *)
Definition Script (A : Type) : Type :=
  list str -> World -> step A * list str * World.

Definition finish {A} (a : A) : Script A :=
  fun stdin w => (Next a, stdin, w).

Definition halt {A} (s : stop) : Script A :=
  fun stdin w => (Stop s, stdin, w).

Definition then_ {A B} (m : Script A) (k : A -> Script B) : Script B :=
  fun stdin w =>
    match m stdin w with
    | (Next a, stdin', w') => k a stdin' w'
    | (Stop s, stdin', w') => (Stop s, stdin', w')
    end.

Declare Scope script_scope.
Delimit Scope script_scope with script.
Notation "'run!' x ':=' m 'in' k" := (then_ m (fun x => k))
  (at level 10, x pattern, m at level 100, k at level 200,
   format "'run!'  x  ':='  m  'in' '//' k") : script_scope.

(** A call of a function of the module: its exception is not caught. *)
Definition call {A} (m : M A) : Script A :=
  fun stdin w =>
    match m w with
    | (Ok a, w') => (Next a, stdin, w')
    | (Raise e, w') => (Stop (Exception e), stdin, w')
    end.

(** [input(prompt)]: the next line, without its end. *)
Definition input : Script str :=
  fun stdin w =>
    match stdin with
    | line :: stdin' => (Next line, stdin', w)
    | [] => (Stop EOFError, [], w)
    end.

(** [exit(code)] *)
Definition exit {A} (code : Z) : Script A := halt (SystemExit code).

(** How a run ended, and the world it left. *)
Definition ending {A} (r : step A * list str * World) : step A := fst (fst r).
Definition unread {A} (r : step A * list str * World) : list str := snd (fst r).
Definition world {A} (r : step A * list str * World) : World := snd r.

(** [bool(d)] of a dict: whether it has a key. *)
Definition present {A} (field : option A) : bool :=
  match field with Some _ => true | None => false end.

Definition truthy (wiki_data : parse_object) : bool :=
  let d := read_keys wiki_data in
  other_keys wiki_data
  || present (Api.text d) || present (Api.displaytitle d)
  || present (Api.title d) || present (Api.sections d)
  || present (Api.categories d) || present (Api.externallinks d).

(** The number a prompt gives: the default for a blank line and for a
    line [int] refuses. *)
Definition number_or (R : Runtime) (default : Z) (user : str) : Z :=
  match strip user with
  | [] => default
  | _ => match int R user with
         | Some n => n
         | None => default
         end
  end.

Section Script.
Variable E : Env.
Variable R : Runtime.

(** [requests.get(api_url, params=params)] *)
Definition api_request (page_title : str) : M ApiResponse :=
  fun w => (api_get R (clock w) page_title, tick w).

(** [get_wiki_content_via_api] *)
Definition get_wiki_content_via_api (page_title : str)
  : M (option parse_object) :=
  (do! response := api_request page_title in
   if negb (api_status_code response =? 200)%Z then ret None
   else
     do! data := lift (json response) in
     if has_error data then ret None
     else ret (parse data))%M.

(** [with open(path, 'w', encoding='utf-8') as f: f.write(text)]:
    opening empties the file; a text that cannot be encoded, and what
    is no text, leave it empty. *)
Definition write_text (path : str) (text : option str) : Script unit :=
  fun stdin w =>
    let holding data :=
      {| clock := clock w; files := <[path := data]> (files w);
         folders := folders w |} in
    if writable E path then
      match text with
      | Some s =>
          match Urllib.utf8_encode s with
          | Ok data => (Next tt, stdin, holding data)
          | Raise e => (Stop (Exception e), stdin, holding [])
          end
      | None => (Stop TypeError, stdin, holding [])
      end
    else (Stop (Exception OSError), stdin, w).

(** A prompt for a number: [try: user = input(...); if user.strip():
    number = int(user)  except ValueError: print(...)], the number
    keeping its default in the handler. *)
Definition ask_number (default : Z) : Script Z :=
  (run! user := input in
   finish (number_or R default user))%script.

(** The part of the script that gets and saves the text content. *)
Definition content_part (page_title : str) : Script unit :=
  (run! wiki_data := call (get_wiki_content_via_api page_title) in
   match wiki_data with
   | Some d =>
       if truthy d then
         run! content :=
           call (lift (process_wiki_content E (Some (read_keys d)))) in
         run! _ := write_text (lit "wiki_content.txt") (Some (fst content)) in
         write_text (lit "wiki_content.html") (snd content)
       else finish tt
   | None => finish tt
   end)%script.

(** The part that gets the images from Commons and downloads them. *)
Definition images_part (page_title : str) : Script unit :=
  (run! max_imgs := ask_number 15 in
   run! min_width := ask_number 800 in
   run! images := call (get_commons_category_images E page_title max_imgs) in
   match images with
   | [] => finish tt
   | _ =>
       run! saved_imgs :=
         call (download_thumbnail_images E images (lit "wiki_images")
                 min_width) in
       finish tt
   end)%script.

(** The script. *)
Definition main : Script unit :=
  (run! wiki_url := input in
   run! page_title := call (lift (extract_wiki_title wiki_url)) in
   match page_title with
   | None | Some [] => exit 1
   | Some page_title =>
       run! _ := content_part page_title in
       run! download_images := input in
       if negb (Py.eqb (strip (lower R download_images)) (lit "y")) then exit 0
       else images_part page_title
   end)%script.

End Script.

(** The paths the script writes to: the two content files, and what
    lies in the folder of the pictures. *)
Definition script_path (path : str) : bool :=
  Py.eqb path (lit "wiki_content.txt")
  || Py.eqb path (lit "wiki_content.html")
  || startswith path (lit "wiki_images/").

(** The number of pictures a run asks for: what the third line of the
    input gives, 15 when there is none. *)
Definition asked_count (R : Runtime) (stdin : list str) : Z :=
  number_or R 15 (default [] (stdin !! 2%nat)).

(** The width a run asks for, from the fourth line. *)
Definition asked_width (R : Runtime) (stdin : list str) : Z :=
  number_or R 800 (default [] (stdin !! 3%nat)).

Module ExampleScript.

(** [str.lower] and [int] on ASCII text: decimal digits, no sign. *)
Definition lower_char (c : N) : N :=
  if (65 <=? c) && (c <=? 90) then c + 32 else c.

Fixpoint decimal (acc : Z) (s : str) : option Z :=
  match s with
  | [] => Some acc
  | c :: s' =>
      if (48 <=? c) && (c <=? 57)
      then decimal (10 * acc + Z.of_N (c - 48)) s'
      else None
  end.

Definition int_ascii (s : str) : option Z :=
  match strip s with
  | [] => None
  | digits => decimal 0 digits
  end.

(** A parse object with a title and no text. *)
Definition titled : parse_object := {|
  read_keys := {|
    Api.text := None;
    Api.displaytitle := Some (lit "Gravity");
    Api.title := None;
    Api.sections := None;
    Api.categories := None;
    Api.externallinks := None
  |};
  other_keys := false
|}.

Definition runtime : Runtime := {|
  api_get := fun _ _ =>
    Ok {| api_status_code := 200;
          json := Ok {| has_error := false; parse := Some titled |} |};
  lower := List.map lower_char;
  int := int_ascii
|}.

Definition env : Env := ExampleDownloader.env.

Definition address : str := lit "https://en.wikipedia.org/wiki/Gravity".

End ExampleScript.

(** An address the script refuses: it has no marker, or right after
    its first marker comes the end, a delimiter or a second marker. *)
Definition refused (wiki_url : str) : bool :=
  match after_first (lit "/wiki/") wiki_url with
  | None => true
  | Some rest => empty_title_segment rest || startswith rest (lit "/wiki/")
  end.

(** The two content files. *)
Definition content_path (path : str) : bool :=
  Py.eqb path (lit "wiki_content.txt") || Py.eqb path (lit "wiki_content.html").

(** The title the renderer shows, as the parse object gives it. *)
Definition shown_title (d : Api.data) : str :=
  match Api.displaytitle d, Api.title d with
  | Some t, _ => t
  | None, Some t => t
  | None, None => lit "Untitled"
  end.

(** * Properties *)

#[local] Arguments N.eqb : simpl never.
#[local] Arguments N.leb : simpl never.
#[local] Arguments N.ltb : simpl never.
#[local] Arguments Z.eqb : simpl never.
#[local] Arguments Z.ltb : simpl never.
#[local] Arguments Z.geb : simpl never.

(** ** The library models on concrete inputs *)

Example unquote_utf8 :
  Urllib.unquote (lit "Caf%C3%A9_%E2%82%AC") = lit "Caf" ++ [233] ++ lit "_" ++ [8364].
Proof. vm_compute. reflexivity. Qed.

Example unquote_invalid_bytes :
  Urllib.unquote (lit "%E2%82A%ff%zz") = [65533; 65; 65533] ++ lit "%zz".
Proof. vm_compute. reflexivity. Qed.

Example quote_title :
  Urllib.quote (lit "Gravity (film)" ++ [233]) = Ok (lit "Gravity%20%28film%29%C3%A9").
Proof. vm_compute. reflexivity. Qed.

Example split_twice :
  split (lit "/wiki/") (lit "a/wiki/b/wiki/c") = [lit "a"; lit "b"; lit "c"].
Proof. vm_compute. reflexivity. Qed.

Example strip_spaces :
  strip ([160; 32; 10] ++ lit "a b" ++ [9; 8195]) = lit "a b".
Proof. vm_compute. reflexivity. Qed.

Example format_comma_1600 : Re.format_comma 1600 = lit "1,600".
Proof. vm_compute. reflexivity. Qed.

Example edit_marker :
  Re.sub_edit_marker (lit "[ edit ]History") = lit "History".
Proof. vm_compute. reflexivity. Qed.

Example sanitized_name :
  Re.sub_illegal (lit "File:What?.jpg") = lit "File_What_.jpg".
Proof. vm_compute. reflexivity. Qed.

Example category_line :
  render_categories [lit "Category:Rivers"]
    = nl ++ lit "## Categories" ++ nl ++ lit "- Rivers" ++ nl.
Proof. vm_compute. reflexivity. Qed.

Example join_posix :
  os_path_join (lit "wiki_images") (lit "a_b.jpg") = lit "wiki_images/a_b.jpg".
Proof. vm_compute. reflexivity. Qed.

(** ** Strings *)

Section PyFacts.

Lemma startswith_app (s p : str) :
  startswith s p = true <-> exists r, s = p ++ r.
Proof.
  revert s. induction p as [|a p IH]; intros s; simpl.
  - split; [intros _; by exists s | done].
  - destruct s as [|b s].
    + split; [done | by intros [r Hr]].
    + rewrite andb_true_iff, N.eqb_eq, IH. split.
      * intros [-> [r ->]]. by exists r.
      * intros [r Hr]. injection Hr as -> ->. eauto.
Qed.

Lemma startswith_length (s p : str) :
  startswith s p = true -> (length p <= length s)%nat.
Proof.
  intros [r ->]%startswith_app. rewrite length_app. lia.
Qed.

Lemma startswith_nil_l (p : str) : p <> [] -> startswith [] p = false.
Proof. by destruct p. Qed.

Lemma contains_after_first (sep s : str) :
  contains sep s = true <-> is_Some (after_first sep s).
Proof.
  induction s as [|c s IH]; simpl.
  - rewrite orb_false_r.
    destruct (startswith [] sep); [split; eauto | split; [done | by intros [? ?]]].
  - destruct (startswith (c :: s) sep); simpl; [split; eauto | done].
Qed.

Lemma contains_false_after_first (sep s : str) :
  contains sep s = false <-> after_first sep s = None.
Proof.
  rewrite <- not_true_iff_false, contains_after_first.
  rewrite <- eq_None_not_Some. done.
Qed.

(** Stepping over the rest of a separator. *)
Lemma split_aux_skip (sep s cur : str) (k : nat) :
  (k <= length s)%nat ->
  split_aux sep s k cur = split_aux sep (drop k s) 0 cur.
Proof.
  revert k. induction s as [|c s IH]; intros k Hk; simpl in *.
  - assert (k = 0%nat) as -> by lia. done.
  - destruct k as [|k]; [done|]. simpl. apply IH. lia.
Qed.

(** [split] peels the text before the first separator. *)
Lemma split_aux_first (sep s cur : str) :
  sep <> [] ->
  split_aux sep s 0 cur =
    match after_first sep s with
    | Some rest => (cur ++ before_first sep s) :: split sep rest
    | None => [cur ++ s]
    end.
Proof.
  intros Hsep. revert cur. induction s as [|c s IH]; intros cur.
  - simpl. rewrite startswith_nil_l by done. by rewrite app_nil_r.
  - cbn [split_aux after_first before_first].
    destruct (startswith (c :: s) sep) eqn:Hp.
    + rewrite app_nil_r. f_equal. unfold split.
      apply startswith_length in Hp. simpl in Hp.
      destruct sep as [|a sep]; [done|]. simpl in *.
      rewrite split_aux_skip by lia. done.
    + rewrite IH. rewrite <- !app_assoc. simpl. done.
Qed.

Lemma split_first (sep s : str) :
  sep <> [] ->
  split sep s =
    match after_first sep s with
    | Some rest => before_first sep s :: split sep rest
    | None => [s]
    end.
Proof. intros H. unfold split at 1. by rewrite split_aux_first. Qed.

Lemma before_first_nil (sep s : str) :
  sep <> [] ->
  before_first sep s = [] <-> s = [] \/ startswith s sep = true.
Proof.
  intros Hsep. destruct s as [|c s]; simpl.
  - rewrite startswith_nil_l by done. split; [by left | done].
  - destruct (startswith (c :: s) sep); split; try done; [by right | by intros [?|?]].
Qed.

(** Cutting at a fragment mark and then at a query mark is cutting at
    the first of the two. *)
Lemma before_first_delimiters (s : str) :
  before_first (lit "?") (before_first (lit "#") s) = truncate_at_delimiter s.
Proof.
  induction s as [|c s IH]; [done|].
  change (lit "#") with [35] in *. change (lit "?") with [63] in *.
  cbn [before_first startswith truncate_at_delimiter].
  rewrite andb_true_r, (N.eqb_sym 35 c).
  destruct (c =? 35) eqn:H1; simpl; [done|].
  rewrite andb_true_r, (N.eqb_sym 63 c).
  destruct (c =? 63); simpl; [done|]. by rewrite IH.
Qed.

(** Replacing one character by another keeps the length. *)
Lemma replace_char_nil (a b : N) (s : str) :
  replace [a] [b] s = [] <-> s = [].
Proof.
  destruct s as [|c s]; [done|]. unfold replace. simpl.
  rewrite andb_true_r. by destruct (a =? c).
Qed.

End PyFacts.

(** ** urllib *)

Section UrllibFacts.
Import Urllib.

Lemma unquote_to_bytes_nil (s : str) : unquote_to_bytes s = [] <-> s = [].
Proof.
  destruct s as [|c s]; [done|]. simpl.
  split; [|done]. repeat case_match; done.
Qed.

Lemma utf8_decode_nil (bs : bytes) : utf8_decode bs = [] <-> bs = [].
Proof.
  destruct bs as [|b r1]; [done|]. simpl.
  split; [|done]. repeat case_match; done.
Qed.

Lemma unquote_parts_nil (s run : str) :
  unquote_parts s run = [] <-> s = [] /\ run = [].
Proof.
  revert run. induction s as [|c s IH]; intros run; simpl.
  - rewrite utf8_decode_nil, unquote_to_bytes_nil. tauto.
  - destruct (c <? 128).
    + rewrite IH. split; [|by intros [? _]].
      intros [_ Hr]. by destruct run.
    + split; [|by intros [? _]]. intros H.
      by apply app_eq_nil in H as [_ ?].
Qed.

(** Decoding never empties a text. *)
Lemma unquote_nil (s : str) : unquote s = [] <-> s = [].
Proof.
  unfold unquote. destruct (contains (lit "%") s); [|done].
  rewrite unquote_parts_nil. tauto.
Qed.

End UrllibFacts.

(** ** Title Resolver *)

Section TitleResolver.

Lemma after_first_None_before (sep s : str) :
  after_first sep s = None -> before_first sep s = s.
Proof.
  induction s as [|c s IH]; simpl.
  - by destruct (startswith [] sep).
  - destruct (startswith (c :: s) sep); [done|]. intros H. by rewrite IH.
Qed.

Lemma split_head (sep s : str) :
  sep <> [] -> index (split sep s) 0 = Ok (before_first sep s).
Proof.
  intros H. rewrite split_first by done.
  destruct (after_first sep s) eqn:Ha; [done|].
  by rewrite after_first_None_before.
Qed.

(** What the resolver computes: the text between the first marker and
    the next one, cut at the first delimiter, decoded and spaced. *)
Lemma extract_wiki_title_eq (wiki_url : str) :
  extract_wiki_title wiki_url =
    Ok (match after_first (lit "/wiki/") wiki_url with
        | Some rest =>
            Some (replace (lit "_") (lit " ")
                    (Urllib.unquote
                       (truncate_at_delimiter (before_first (lit "/wiki/") rest))))
        | None => None
        end).
Proof.
  unfold extract_wiki_title.
  destruct (contains (lit "/wiki/") wiki_url) eqn:Hc.
  - apply contains_after_first in Hc as [rest Hrest]. rewrite Hrest.
    rewrite (split_first (lit "/wiki/")) by done. rewrite Hrest.
    change (index (?a :: ?l) 1) with (index l 0).
    rewrite (split_head (lit "/wiki/")) by done. cbn [rbind].
    rewrite (split_head (lit "#")) by done. cbn [rbind].
    rewrite (split_head (lit "?")) by done. cbn [rbind].
    by rewrite before_first_delimiters.
  - apply contains_false_after_first in Hc. by rewrite Hc.
Qed.

Lemma truncate_at_delimiter_nil (s : str) :
  truncate_at_delimiter s = [] <->
  s = [] \/ startswith s (lit "#") = true \/ startswith s (lit "?") = true.
Proof.
  destruct s as [|c s]; [by split; [left|] |].
  change (lit "#") with [35]. change (lit "?") with [63].
  cbn [truncate_at_delimiter startswith].
  rewrite !andb_true_r, (N.eqb_sym 35 c), (N.eqb_sym 63 c).
  destruct (c =? 35), (c =? 63); simpl; split; try done; auto.
  intros [?|[?|?]]; done.
Qed.

Lemma contains_false_startswith (sep s : str) :
  contains sep s = false -> startswith s sep = false.
Proof. destruct s; simpl; by intros [? _]%orb_false_elim. Qed.

Lemma title_segment_nil (rest : str) :
  contains (lit "/wiki/") rest = false ->
  truncate_at_delimiter (before_first (lit "/wiki/") rest) = [] <->
  empty_title_segment rest = true.
Proof.
  intros Hone%contains_false_startswith. unfold empty_title_segment.
  destruct rest as [|c s]; [done|].
  cbn [before_first]. rewrite Hone.
  rewrite truncate_at_delimiter_nil.
  change (lit "#") with [35]. change (lit "?") with [63].
  cbn [startswith]. rewrite bool_decide_eq_false_2 by done.
  rewrite orb_true_iff. simpl. split; [intros [?|?]; [done|tauto] | tauto].
Qed.

(** Where one marker only occurs, the resolver returns the title the
    specification describes. *)
Lemma extract_wiki_title_single_marker (wiki_url rest : str) :
  after_first (lit "/wiki/") wiki_url = Some rest ->
  contains (lit "/wiki/") rest = false ->
  extract_wiki_title wiki_url = Ok (spec_extract_wiki_title wiki_url).
Proof.
  intros Hrest Hone. rewrite extract_wiki_title_eq.
  unfold spec_extract_wiki_title. rewrite Hrest.
  apply contains_false_after_first in Hone.
  by rewrite (after_first_None_before _ _ Hone).
Qed.

End TitleResolver.

(** C6 (amended).  For every URL that contains the marker [/wiki/] the
    Title Resolver returns a title and never fails; where the marker
    occurs once, the title is empty exactly when the marker is followed
    at once by the end of the URL or by a delimiter [#] or [?] (the
    caller treats an empty title as a failure).  For every URL without
    the marker it returns [None]. *)
Theorem title_resolver_result (wiki_url : str) :
  (contains (lit "/wiki/") wiki_url = true ->
   exists rest title,
     after_first (lit "/wiki/") wiki_url = Some rest /\
     extract_wiki_title wiki_url = Ok (Some title) /\
     (contains (lit "/wiki/") rest = false ->
      title = [] <-> empty_title_segment rest = true)) /\
  (contains (lit "/wiki/") wiki_url = false ->
   extract_wiki_title wiki_url = Ok None).
Proof.
  rewrite extract_wiki_title_eq. split.
  - intros [rest Hrest]%contains_after_first. rewrite Hrest.
    eexists rest, _. split; [done|]. split; [done|]. intros Hone.
    change (lit "_") with [95]. change (lit " ") with [32].
    by rewrite replace_char_nil, unquote_nil, title_segment_nil.
  - intros Hc%contains_false_after_first. by rewrite Hc.
Qed.

(** C6, as stated, fails: this URL contains the marker and the title
    returned for it is the empty string. *)
Lemma title_resolver_empty_title :
  contains (lit "/wiki/") (lit "https://en.wikipedia.org/wiki/") = true /\
  extract_wiki_title (lit "https://en.wikipedia.org/wiki/") = Ok (Some []).
Proof. split; vm_compute; reflexivity. Qed.

(** C8 (the code at the failing input).  When the marker occurs twice
    the resolver stops at the second occurrence, where the
    specification keeps everything up to the first delimiter. *)
Theorem title_resolver_second_marker :
  extract_wiki_title (lit "https://en.wikipedia.org/wiki/A/wiki/B")
    = Ok (Some (lit "A")) /\
  spec_extract_wiki_title (lit "https://en.wikipedia.org/wiki/A/wiki/B")
    = Some (lit "A/wiki/B").
Proof. split; vm_compute; reflexivity. Qed.


(** ** Content Renderer *)

(** Evaluate the closed tests and lookups that guard a program text. *)
Ltac eval_guard :=
  match goal with
  | |- context [rbind ?r _] =>
      let v := eval vm_compute in r in change r with v; cbn [rbind]
  | |- context [if ?b then _ else _] =>
      let v := eval vm_compute in b in change b with v; cbv iota
  end.

Section RendererFacts.

Lemma render_element_ok (element : node) :
  has_name block_names element = true ->
  exists block, render_element element = Ok block.
Proof.
  unfold has_name, block_names, Py.eqb. cbn [existsb].
  rewrite !orb_true_iff, !bool_decide_eq_true. intros H.
  unfold render_element.
  repeat destruct H as [H|H]; try done; rewrite H;
    repeat eval_guard; try destruct (find _ _); eauto.
Qed.

Lemma render_element_block (element : node) :
  has_name block_names element = true ->
  render_element element = Ok (block_of element).
Proof.
  intros [block H]%render_element_ok. unfold block_of. by rewrite H.
Qed.

(** The loop never raises on what [find_all] returns, and appends the
    visible blocks in order. *)
Lemma render_elements_eq (elements : list located) (plain_text : str) :
  List.Forall (fun l => has_name block_names (snd l) = true) elements ->
  render_elements elements plain_text
    = Ok (plain_text ++ visible_blocks elements).
Proof.
  intros H. revert plain_text.
  induction H as [|[parents element] rest Hx _ IH]; intros plain_text.
  - simpl. by rewrite app_nil_r.
  - cbn [render_elements visible_blocks flat_map fst snd] in *.
    destruct (in_unwanted_section parents); [apply IH|].
    rewrite (render_element_block _ Hx). cbn [rbind].
    rewrite IH. by rewrite app_assoc.
Qed.

Lemma find_all_located_names (names : list str) (s : soup) :
  List.Forall (fun l => has_name names (snd l) = true)
    (find_all_located names s).
Proof.
  apply List.Forall_forall. intros l Hl.
  unfold find_all_located in Hl. by apply filter_In in Hl as [_ ?].
Qed.

(** The renderer on a tree that has markup. *)
Lemma process_wiki_content_eq (E : Env) (d : Api.data) (html_content : str) :
  Api.text d = Some (Some html_content) ->
  process_wiki_content E (Some d)
    = Ok (strip (plain_text_of E d html_content), Some html_content).
Proof.
  intros Ht. unfold process_wiki_content. rewrite Ht.
  rewrite render_elements_eq by apply find_all_located_names.
  cbn [rbind]. unfold plain_text_of, trailer_of, title_of, cleaned_soup.
  do 2 f_equal.
  destruct (Api.categories d), (Api.externallinks d);
    rewrite ?app_nil_r, <- ?app_assoc; reflexivity.
Qed.

Lemma lstrip_snoc (s : str) (c : N) :
  isspace c = false -> exists s', lstrip (s ++ [c]) = s' ++ [c].
Proof.
  intros Hc. induction s as [|a s IH]; simpl.
  - rewrite Hc. by exists [].
  - destruct (isspace a); [done|]. by exists (a :: s).
Qed.

(** [strip] keeps a first character that is not white space. *)
Lemma strip_first (c : N) (s : str) :
  isspace c = false -> exists s', strip (c :: s) = c :: s'.
Proof.
  intros Hc. unfold strip, rstrip. simpl. rewrite Hc. simpl.
  destruct (lstrip_snoc (rev s) c Hc) as [s' ->].
  rewrite rev_app_distr. simpl. eauto.
Qed.

End RendererFacts.

(** C5 (amended).  When the content tree has no raw markup (the tree
    is missing, or has no [text] entry, or the entry has no [*] field)
    the Content Renderer returns the fixed placeholder and no HTML
    output.  When the tree has markup, were it the empty string, the
    renderer returns a text that begins with the title line, hence is
    not the placeholder, and the markup as HTML output. *)
Theorem renderer_failure_placeholder (E : Env) (api_data : option Api.data) :
  match markup_of api_data with
  | None =>
      process_wiki_content E api_data = Ok (failure_placeholder, None)
  | Some html_content =>
      exists plain_text,
        process_wiki_content E api_data = Ok (plain_text, Some html_content) /\
        startswith plain_text (lit "#") = true /\
        plain_text <> failure_placeholder
  end.
Proof.
  destruct api_data as [d|]; [|reflexivity].
  unfold markup_of. destruct (Api.text d) as [[html_content|]|] eqn:Ht.
  - rewrite (process_wiki_content_eq E d html_content Ht).
    unfold plain_text_of. change (lit "# ") with [35; 32]. cbn [app].
    destruct (strip_first 35 (32 :: title_of E d ++ nl ++ nl
      ++ visible_blocks (find_all_located block_names (cleaned_soup E html_content))
      ++ trailer_of d) eq_refl) as [rest ->].
    eexists. split; [done|]. split; [done|]. discriminate.
  - unfold process_wiki_content. by rewrite Ht.
  - unfold process_wiki_content. by rewrite Ht.
Qed.

(** C5, as stated, fails for an empty markup: the renderer returns the
    title line and the empty markup as HTML output. *)
Lemma renderer_empty_markup :
  markup_of (Some ExampleRenderer.empty_markup) = Some [] /\
  process_wiki_content ExampleRenderer.env (Some ExampleRenderer.empty_markup)
    = Ok (lit "# Gravity", Some []).
Proof. split; vm_compute; reflexivity. Qed.

(** C2 (amended).  For a content tree with display title "Gravity",
    whose markup holds one block, a paragraph with text "Gravity is...",
    whose categories are ["Category:Physics"] and which has no list of
    external links, the text output is
    "# Gravity\n\nGravity is...\n\n\n## Categories\n- Physics": an
    empty line closes the paragraph and the category heading is
    preceded by a newline of its own, which makes three. *)
Theorem renderer_gravity (E : Env) (d : Api.data) (html_content : str)
    (parents : list attrs_t) (paragraph : node) :
  Api.text d = Some (Some html_content) ->
  Api.displaytitle d = Some (lit "Gravity") ->
  soup_text (html_parser E (lit "Gravity")) = lit "Gravity" ->
  Api.categories d = Some [lit "Category:Physics"] ->
  Api.externallinks d = None ->
  find_all_located block_names (cleaned_soup E html_content)
    = [(parents, paragraph)] ->
  in_unwanted_section parents = false ->
  name_of paragraph = lit "p" ->
  strip (get_text paragraph) = lit "Gravity is..." ->
  process_wiki_content E (Some d)
    = Ok (ExampleRenderer.gravity_text, Some html_content).
Proof.
  intros Ht Hd Hp Hc Hl Hs Hu Hn Hg.
  rewrite (process_wiki_content_eq E d html_content Ht).
  unfold plain_text_of, title_of, trailer_of, visible_blocks, block_of,
    render_element.
  rewrite Hd, Hp, Hc, Hl, Hs. cbn [flat_map fst snd]. rewrite Hu, Hn.
  rewrite !Hg. vm_compute. reflexivity.
Qed.

(** The scenario with the parser of the examples. *)
Lemma renderer_gravity_witness :
  process_wiki_content ExampleRenderer.env (Some ExampleRenderer.gravity)
    = Ok (ExampleRenderer.gravity_text, Some ExampleRenderer.gravity_markup).
Proof.
  apply (renderer_gravity ExampleRenderer.env ExampleRenderer.gravity
           ExampleRenderer.gravity_markup [∅]
           (Elem (lit "p") ∅ [Text (lit "Gravity is...")]));
    vm_compute; reflexivity.
Defined.

(** C2, as stated, fails: the text returned for the scenario is not
    the one the specification gives, which has one newline less before
    the category heading. *)
Lemma renderer_gravity_claimed_text :
  process_wiki_content ExampleRenderer.env (Some ExampleRenderer.gravity)
    = Ok (ExampleRenderer.gravity_text, Some ExampleRenderer.gravity_markup) /\
  ExampleRenderer.gravity_text <> ExampleRenderer.gravity_text_claimed.
Proof. split; [vm_compute; reflexivity | vm_compute; discriminate]. Qed.

Section StripFacts.

Lemma lstrip_head (s : str) (c : N) :
  head (lstrip s) = Some c -> isspace c = false.
Proof.
  induction s as [|a s IH]; [done|]. cbn [lstrip].
  destruct (isspace a) eqn:Ha; [done|]. cbn. by intros [= <-].
Qed.

Lemma lstrip_suffix (s : str) : exists pre, s = pre ++ lstrip s.
Proof.
  induction s as [|a s [pre IH]]; [by exists []|]. cbn [lstrip].
  destruct (isspace a).
  - exists (a :: pre). cbn. by rewrite <- IH.
  - by exists [].
Qed.

Lemma last_rev_head (s : str) : last (rev s) = head s.
Proof. destruct s as [|a s]; [done|]. cbn [rev]. apply last_snoc. Qed.

(** [strip] leaves no white space at the end, *)
Lemma strip_last (s : str) (c : N) :
  last (strip s) = Some c -> isspace c = false.
Proof.
  unfold strip, rstrip. rewrite last_rev_head. apply lstrip_head.
Qed.

(** and none at the start. *)
Lemma strip_head (s : str) (c : N) :
  head (strip s) = Some c -> isspace c = false.
Proof.
  unfold strip, rstrip.
  destruct (lstrip_suffix (rev (lstrip s))) as [pre Hpre].
  intros Hh. apply (lstrip_head s).
  rewrite <- (rev_involutive (lstrip s)), Hpre, rev_app_distr.
  destruct (rev (lstrip (rev (lstrip s)))) as [|x xs]; [done|].
  cbn in *. done.
Qed.

(** A text occurs in another. *)
Lemma occurs_trans (u t s : str) :
  (exists pre post, t = pre ++ u ++ post) ->
  (exists pre post, s = pre ++ t ++ post) ->
  exists pre post, s = pre ++ u ++ post.
Proof.
  intros (p1 & q1 & ->) (p2 & q2 & ->).
  exists (p2 ++ p1), (q1 ++ q2). by rewrite <- !app_assoc.
Qed.

Lemma occurs_rev (u s : str) :
  (exists pre post, s = pre ++ u ++ post) ->
  exists pre post, rev s = pre ++ rev u ++ post.
Proof.
  intros (p & q & ->). exists (rev q), (rev p).
  by rewrite !rev_app_distr, <- app_assoc.
Qed.

(** [lstrip] takes nothing from an occurrence that begins with a
    character that is not white space. *)
Lemma occurs_lstrip (c : N) (u s : str) :
  isspace c = false ->
  (exists pre post, s = pre ++ (c :: u) ++ post) ->
  exists pre post, lstrip s = pre ++ (c :: u) ++ post.
Proof.
  intros Hc. induction s as [|a s IH]; intros (p & q & Hs).
  - by destruct p.
  - cbn [lstrip]. destruct (isspace a) eqn:Ha; [|by exists p, q].
    destruct p as [|b p]; cbn in Hs; injection Hs as -> Hs; [congruence|].
    apply IH. eauto.
Qed.

Lemma strip_occurs (s : str) : exists pre post, s = pre ++ strip s ++ post.
Proof.
  unfold strip, rstrip.
  destruct (lstrip_suffix s) as [pre Hpre].
  destruct (lstrip_suffix (rev (lstrip s))) as [post Hpost].
  exists pre, (rev post). rewrite Hpre at 1. f_equal.
  rewrite <- (rev_involutive (lstrip s)) at 1.
  rewrite Hpost at 1. by rewrite rev_app_distr.
Qed.

(** The stripped text of a part occurs in the stripped text of the
    whole. *)
Lemma strip_occurs_in (t s : str) :
  (exists pre post, s = pre ++ t ++ post) ->
  exists pre post, strip s = pre ++ strip t ++ post.
Proof.
  intros Hts.
  destruct (strip t) as [|c u] eqn:Ht; [by exists (strip s), []; rewrite app_nil_r|].
  assert (isspace c = false) as Hc by (apply (strip_head t); by rewrite Ht).
  assert (exists pre post, s = pre ++ (c :: u) ++ post) as Hs.
  { apply (occurs_trans _ t); [|done]. rewrite <- Ht. apply strip_occurs. }
  apply (occurs_lstrip c u _ Hc) in Hs.
  destruct (rev (c :: u)) as [|c' u'] eqn:Hrev.
  { apply (f_equal (@length N)) in Hrev. rewrite length_rev in Hrev. done. }
  assert (isspace c' = false) as Hc'.
  { apply (strip_last t).
    by rewrite Ht, <- (rev_involutive (c :: u)), last_rev_head, Hrev. }
  apply occurs_rev in Hs. rewrite Hrev in Hs.
  apply (occurs_lstrip c' u' _ Hc') in Hs.
  apply occurs_rev in Hs. rewrite <- Hrev, rev_involutive in Hs.
  exact Hs.
Qed.

End StripFacts.

Section TreeFacts.

(** Induction on trees, the children taken as a list. *)
Lemma node_ind (P : node -> Prop) :
  (forall s, P (Text s)) ->
  (forall s, P (Special s)) ->
  (forall name attrs children,
      List.Forall P children -> P (Elem name attrs children)) ->
  forall n, P n.
Proof.
  intros HT HS HE. fix IH 1. intros [s|s|name attrs children].
  - apply HT.
  - apply HS.
  - apply HE. induction children as [|c cs IHcs]; constructor.
    + apply IH.
    + apply IHcs.
Qed.

Lemma walk_node_self (parents : list attrs_t) (n : node) :
  is_tag n -> In (parents, n) (walk_node parents n).
Proof. destruct n; try done. intros _. simpl. by left. Qed.

(** Document order: what lies below a child of a tag comes after the
    tag. *)
Lemma walk_node_order (top : node) :
  forall (parents0 parents : list attrs_t) (n child : node) (x : located),
    In (parents, n) (walk_node parents0 top) ->
    In child (children_of n) ->
    In x (walk_node (attrs_of n :: parents) child) ->
    exists l1 l2 l3,
      walk_node parents0 top = l1 ++ (parents, n) :: l2 ++ x :: l3.
Proof.
  induction top as [s|s|name attrs children IH] using node_ind;
    intros parents0 parents n child x Hn Hc Hx; try done.
  cbn [walk_node] in *. destruct Hn as [Hn|Hn].
  - injection Hn as <- <-. cbn [children_of attrs_of] in *.
    apply in_split in Hc as (cs1 & cs2 & ->).
    apply in_split in Hx as (w1 & w2 & Hx).
    rewrite flat_map_app. cbn [flat_map]. rewrite Hx.
    exists [], (flat_map (walk_node (attrs :: parents0)) cs1 ++ w1),
      (w2 ++ flat_map (walk_node (attrs :: parents0)) cs2).
    cbn [app]. by rewrite <- !app_assoc.
  - apply in_flat_map in Hn as (sub & Hsub & Hn).
    rewrite List.Forall_forall in IH.
    destruct (IH sub Hsub _ _ _ _ _ Hn Hc Hx) as (l1 & l2 & l3 & Heq).
    apply in_split in Hsub as (cs1 & cs2 & ->).
    rewrite flat_map_app. cbn [flat_map]. rewrite Heq.
    exists ((parents0, Elem name attrs (cs1 ++ sub :: cs2))
              :: flat_map (walk_node (attrs :: parents0)) cs1 ++ l1),
      l2, (l3 ++ flat_map (walk_node (attrs :: parents0)) cs2).
    cbn [app]. rewrite <- !app_assoc. cbn [app]. by rewrite <- !app_assoc.
Qed.

Lemma walk_order (parents0 parents : list attrs_t) (f : list node)
    (n child : node) (x : located) :
  In (parents, n) (walk parents0 f) ->
  In child (children_of n) ->
  In x (walk_node (attrs_of n :: parents) child) ->
  exists l1 l2 l3, walk parents0 f = l1 ++ (parents, n) :: l2 ++ x :: l3.
Proof.
  unfold walk. intros (top & Htop & Hn)%in_flat_map Hc Hx.
  destruct (walk_node_order top _ _ _ _ _ Hn Hc Hx) as (l1 & l2 & l3 & Heq).
  apply in_split in Htop as (f1 & f2 & ->).
  rewrite flat_map_app. cbn [flat_map]. rewrite Heq.
  exists (flat_map (walk_node parents0) f1 ++ l1), l2,
    (l3 ++ flat_map (walk_node parents0) f2).
  rewrite <- !app_assoc. cbn [app]. by rewrite <- !app_assoc.
Qed.

(** The text of a tag includes the text of each of its children. *)
Lemma get_text_child (n child : node) :
  In child (children_of n) ->
  exists pre post, get_text n = pre ++ get_text child ++ post.
Proof.
  destruct n as [s|s|name attrs children]; try done. cbn [children_of get_text].
  intros (cs1 & cs2 & ->)%in_split. rewrite flat_map_app. cbn [flat_map].
  eauto.
Qed.

End TreeFacts.

Section ListBlocks.

Lemma visible_blocks_app (l1 l2 : list located) :
  visible_blocks (l1 ++ l2) = visible_blocks l1 ++ visible_blocks l2.
Proof. unfold visible_blocks. apply flat_map_app. Qed.

Lemma list_element_block_name (element : node) :
  is_list_element element = true -> has_name block_names element = true.
Proof.
  unfold is_list_element, has_name, Py.eqb. cbn [existsb].
  rewrite !orb_true_iff, !bool_decide_eq_true.
  intros [H|[H|H]]; [ | |done]; rewrite H; reflexivity.
Qed.

(** The block of a list is its [render_list]. *)
Lemma list_element_block (element : node) :
  is_list_element element = true -> block_of element = render_list element.
Proof.
  unfold is_list_element, has_name, Py.eqb. cbn [existsb].
  rewrite !orb_true_iff, !bool_decide_eq_true. intros H.
  unfold block_of, render_element.
  repeat destruct H as [H|H]; try done; rewrite H;
    repeat eval_guard; reflexivity.
Qed.

End ListBlocks.

(** Every list element of the cleaned markup that has no marked
    ancestor, whatever its depth, is rendered as one block. *)
Lemma list_block_rendered (E : Env) (d : Api.data) (html_content : str)
    (parents : list attrs_t) (element : node) :
  Api.text d = Some (Some html_content) ->
  In (parents, element) (soup_tags (cleaned_soup E html_content)) ->
  is_list_element element = true ->
  in_unwanted_section parents = false ->
  exists before after,
    process_wiki_content E (Some d)
      = Ok (strip (before ++ render_list element ++ after), Some html_content).
Proof.
  intros Ht Hin Hl Hu.
  rewrite (process_wiki_content_eq E d html_content Ht).
  assert (In (parents, element)
            (find_all_located block_names (cleaned_soup E html_content)))
    as Hf.
  { apply filter_In. split; [done|]. by apply list_element_block_name. }
  apply in_split in Hf as [l1 [l2 Hf]].
  unfold plain_text_of. rewrite Hf, visible_blocks_app.
  unfold visible_blocks at 2. cbn [flat_map fst snd].
  rewrite Hu, (list_element_block _ Hl). fold (visible_blocks l2).
  exists (lit "# " ++ title_of E d ++ nl ++ nl ++ visible_blocks l1),
    (visible_blocks l2 ++ trailer_of d).
  by rewrite <- !app_assoc.
Qed.

(** A list and a list nested in one of its children: the block of the
    first, and further on the block of the second. *)
Lemma nested_list_blocks (E : Env) (d : Api.data) (html_content : str)
    (parents : list attrs_t) (outer item inner : node) :
  Api.text d = Some (Some html_content) ->
  In (parents, outer) (soup_tags (cleaned_soup E html_content)) ->
  is_list_element outer = true ->
  In item (children_of outer) ->
  In inner (children_of item) ->
  is_list_element inner = true ->
  in_unwanted_section (attrs_of item :: attrs_of outer :: parents) = false ->
  exists before between after,
    process_wiki_content E (Some d)
      = Ok (strip (before ++ render_list outer ++ between
                   ++ render_list inner ++ after),
            Some html_content).
Proof.
  intros Ht Hin Hlo Hitem Hinner Hli Hui.
  assert (in_unwanted_section parents = false) as Hu.
  { cbn [in_unwanted_section existsb] in Hui.
    apply orb_false_elim in Hui as [_ Hui].
    by apply orb_false_elim in Hui as [_ Hui]. }
  assert (In (attrs_of item :: attrs_of outer :: parents, inner)
            (walk_node (attrs_of outer :: parents) item)) as Hx.
  { destruct item as [s|s|name attrs children]; try done.
    cbn [walk_node attrs_of children_of] in *. right.
    apply in_flat_map. exists inner. split; [done|].
    apply walk_node_self. by destruct inner. }
  destruct (walk_order _ _ _ _ _ _ Hin Hitem Hx) as (l1 & l2 & l3 & Heq).
  rewrite (process_wiki_content_eq E d html_content Ht).
  unfold plain_text_of, find_all_located, soup_tags.
  rewrite Heq, List.filter_app. cbn [List.filter snd].
  rewrite (list_element_block_name _ Hlo), List.filter_app. cbn [List.filter snd].
  rewrite (list_element_block_name _ Hli).
  rewrite visible_blocks_app. unfold visible_blocks at 2.
  cbn [flat_map fst snd]. rewrite Hu, (list_element_block _ Hlo).
  rewrite flat_map_app. cbn [flat_map fst snd].
  rewrite Hui, (list_element_block _ Hli).
  fold (visible_blocks
          (List.filter (fun l => has_name block_names (snd l)) l2)).
  fold (visible_blocks
          (List.filter (fun l => has_name block_names (snd l)) l3)).
  exists (lit "# " ++ title_of E d ++ nl ++ nl
          ++ visible_blocks
               (List.filter (fun l => has_name block_names (snd l)) l1)),
    (visible_blocks (List.filter (fun l => has_name block_names (snd l)) l2)),
    (visible_blocks (List.filter (fun l => has_name block_names (snd l)) l3)
     ++ trailer_of d).
  by rewrite <- !app_assoc.
Qed.

(** The stripped text of a direct item of a list nested in an item
    occurs in the stripped text of that item. *)
Lemma nested_item_text (item inner nested_item : node) :
  In inner (children_of item) ->
  In nested_item (find_all_children (lit "li") inner) ->
  exists pre post,
    strip (get_text item) = pre ++ strip (get_text nested_item) ++ post.
Proof.
  intros Hinner [Hnested _]%filter_In.
  apply strip_occurs_in.
  apply (occurs_trans _ (get_text inner)); by apply get_text_child.
Qed.

(** C3 (amended).  For every content tree whose markup has a list
    element with a sub-list nested in one of its direct [li] items,
    none of them under an ancestor marked as table of contents,
    sidebar or navigation box.  The text holds the block of the list:
    for each of its direct [li] children, in their order, the line
    made of "- ", the stripped text of the item and a newline, and
    after them an empty line.  The stripped text of the item that
    holds the sub-list, hence its line, includes the stripped text of
    every direct item of the sub-list.  And, the traversal going down
    into the items, the sub-list is rendered once more, further on in
    the text, as a list block of its own, with a line for each of its
    direct [li] children. *)
Theorem renderer_nested_list (E : Env) (d : Api.data) (html_content : str)
    (parents : list attrs_t) (outer item inner : node) :
  Api.text d = Some (Some html_content) ->
  In (parents, outer) (soup_tags (cleaned_soup E html_content)) ->
  is_list_element outer = true ->
  In item (find_all_children (lit "li") outer) ->
  In inner (children_of item) ->
  is_list_element inner = true ->
  in_unwanted_section (attrs_of item :: attrs_of outer :: parents) = false ->
  exists first_items later_items before between after,
    find_all_children (lit "li") outer = first_items ++ item :: later_items /\
    process_wiki_content E (Some d)
      = Ok (strip
              (before
               ++ (flat_map (fun li => lit "- " ++ strip (get_text li) ++ nl)
                     first_items
                   ++ (lit "- " ++ strip (get_text item) ++ nl)
                   ++ flat_map (fun li => lit "- " ++ strip (get_text li) ++ nl)
                        later_items
                   ++ nl)
               ++ between
               ++ (flat_map (fun li => lit "- " ++ strip (get_text li) ++ nl)
                     (find_all_children (lit "li") inner)
                   ++ nl)
               ++ after),
            Some html_content) /\
    forall nested_item,
      In nested_item (find_all_children (lit "li") inner) ->
      exists pre post,
        strip (get_text item) = pre ++ strip (get_text nested_item) ++ post.
Proof.
  intros Ht Hin Hlo Hitem Hinner Hli Hui.
  pose proof Hitem as [Hchild _]%filter_In.
  destruct (nested_list_blocks E d html_content parents outer item inner
              Ht Hin Hlo Hchild Hinner Hli Hui)
    as (before & between & after & Heq).
  pose proof Hitem as (first_items & later_items & Hsplit)%in_split.
  exists first_items, later_items, before, between, after.
  split; [done|]. split; [|intros nested_item; by apply nested_item_text].
  rewrite Heq. unfold render_list. rewrite Hsplit, flat_map_app.
  cbn [flat_map]. by rewrite <- !app_assoc.
Qed.

(** The list of the examples, its item and the list nested in it. *)
Lemma renderer_nested_list_witness :
  exists first_items later_items before between after,
    find_all_children (lit "li") ExampleRenderer.outer_list
      = first_items ++ ExampleRenderer.nested_item :: later_items /\
    process_wiki_content ExampleRenderer.env (Some ExampleRenderer.nested)
      = Ok (strip
              (before
               ++ (flat_map (fun li => lit "- " ++ strip (get_text li) ++ nl)
                     first_items
                   ++ (lit "- " ++ strip (get_text ExampleRenderer.nested_item)
                       ++ nl)
                   ++ flat_map (fun li => lit "- " ++ strip (get_text li) ++ nl)
                        later_items
                   ++ nl)
               ++ between
               ++ (flat_map (fun li => lit "- " ++ strip (get_text li) ++ nl)
                     (find_all_children (lit "li") ExampleRenderer.inner_list)
                   ++ nl)
               ++ after),
            Some ExampleRenderer.nested_markup) /\
    forall nested_item,
      In nested_item (find_all_children (lit "li") ExampleRenderer.inner_list) ->
      exists pre post,
        strip (get_text ExampleRenderer.nested_item)
          = pre ++ strip (get_text nested_item) ++ post.
Proof.
  apply (renderer_nested_list ExampleRenderer.env ExampleRenderer.nested
           ExampleRenderer.nested_markup [∅] ExampleRenderer.outer_list
           ExampleRenderer.nested_item ExampleRenderer.inner_list).
  - reflexivity.
  - vm_compute. left. reflexivity.
  - vm_compute. reflexivity.
  - vm_compute. left. reflexivity.
  - vm_compute. right. left. reflexivity.
  - vm_compute. reflexivity.
  - vm_compute. reflexivity.
Defined.

(** C3, as stated, fails: for a list with a list nested in its item
    the text has a block for the outer list, whose line carries the
    text of the nested item too, and after it a block for the nested
    list. *)
Lemma renderer_nested_list_rendered :
  process_wiki_content ExampleRenderer.env (Some ExampleRenderer.nested)
    = Ok (ExampleRenderer.nested_text, Some ExampleRenderer.nested_markup) /\
  render_list ExampleRenderer.inner_list = lit "- B" ++ nl ++ nl.
Proof. split; vm_compute; reflexivity. Qed.

(** ** Image Locator *)

(** Unfold the plumbing of [M]. *)
Ltac run_m :=
  unfold bind, try_except, lift, ret, raise, get in *; cbn [fst snd] in *.

Section LocatorFacts.

(** A scanning loop counts what it appends and stops at the maximum. *)
Lemma scan_bounded (extract : node -> Result (option descriptor))
    (max_images : Z) (items : list node) :
  forall images count images' count',
    scan extract max_images items images count = Ok (images', count') ->
    Z.of_nat (length images) = count ->
    Z.of_nat (length images') = count' /\
    (count' <= Z.max count max_images)%Z.
Proof.
  induction items as [|item rest IH]; intros images count images' count' H Hc;
    cbn [scan] in H.
  - injection H as <- <-. split; [done | lia].
  - destruct (count >=? max_images)%Z eqn:Hge.
    + injection H as <- <-. split; [done | lia].
    + rewrite Z.geb_leb in Hge. apply Z.leb_gt in Hge.
      destruct (extract item) as [[d|]|]; cbn [rbind] in H; [| |done].
      * apply IH in H as [? ?]; [split; [done | lia] |].
        rewrite length_app. simpl. lia.
      * apply IH in H as [? ?]; [split; [done | lia] | done].
Qed.

Lemma scan_category_bounded (s : soup) (max_images : Z)
    (images : list descriptor) :
  scan_category s max_images = Ok images ->
  (Z.of_nat (length images) <= Z.max 0 max_images)%Z.
Proof.
  unfold scan_category. intros H.
  destruct (match soup_find_class (lit "ul") (lit "gallery") s with
            | Some gallery => _ | None => _ end) as [[images1 count1]|] eqn:H1;
    cbn [rbind] in H; [|done].
  assert (Z.of_nat (length images1) = count1 /\
          (count1 <= Z.max 0 max_images)%Z) as [Hl1 Hb1].
  { destruct (soup_find_class _ _ s).
    - by apply scan_bounded in H1.
    - injection H1 as <- <-. split; [done | lia]. }
  destruct (count1 <? max_images)%Z.
  - destruct (scan _ _ _ images1 count1) as [[images2 count2]|] eqn:H2;
      cbn [rbind] in H; [|done].
    injection H as <-. apply scan_bounded in H2 as [? ?]; [lia | done].
  - cbn [rbind] in H. injection H as <-. lia.
Qed.

Lemma scan_search_bounded (s : soup) (max_images : Z)
    (images : list descriptor) :
  scan_search s max_images = Ok images ->
  (Z.of_nat (length images) <= Z.max 0 max_images)%Z.
Proof.
  unfold scan_search. intros H.
  destruct (scan extract_modern_result _ _ [] 0%Z) as [[images1 count1]|] eqn:H1;
    cbn [rbind] in H; [|done].
  apply scan_bounded in H1 as [Hl1 Hb1]; [|done].
  destruct images1 as [|d images1].
  - destruct (scan extract_legacy_result _ _ [] count1)
      as [[images2 count2]|] eqn:H2; cbn [rbind] in H; [|done].
    injection H as <-. apply scan_bounded in H2 as [? ?]; [lia | done].
  - cbn [rbind] in H. injection H as <-. lia.
Qed.

(** Tier 2 returns at most the maximum; it raises only while it builds
    its address, before any request. *)
Lemma file_namespace_bounded (E : Env) (page_name : str) (max_images : Z)
    (w : World) :
  match get_commons_file_namespace E page_name max_images w with
  | (Ok images, _) => (Z.of_nat (length images) <= Z.max 0 max_images)%Z
  | (Raise _, w') => w' = w
  end.
Proof.
  unfold get_commons_file_namespace. run_m.
  destruct (Urllib.quote page_name) as [quoted|]; [|done].
  destruct (requests_get E (clock w) (search_url quoted)) as [response|];
    [|simpl; lia].
  destruct (negb (status_code response =? 200)%Z); [simpl; lia|].
  destruct (scan_search _ max_images) as [images|] eqn:Hs; [|simpl; lia].
  by apply scan_search_bounded in Hs.
Qed.

End LocatorFacts.

(** C7.  For every page title and every maximum count, the Image
    Locator returns a list (it never raises) and the list has at most
    max_images descriptors, whatever the fetched markup holds; a
    maximum that is not positive gives the empty list. *)
Theorem locator_at_most_max (E : Env) (page_name : str) (max_images : Z)
    (w : World) :
  exists images w',
    get_commons_category_images E page_name max_images w = (Ok images, w') /\
    (Z.of_nat (length images) <= Z.max 0 max_images)%Z /\
    (0 <= max_images -> Z.of_nat (length images) <= max_images)%Z.
Proof.
  enough (exists images w',
             get_commons_category_images E page_name max_images w
               = (Ok images, w') /\
             (Z.of_nat (length images) <= Z.max 0 max_images)%Z)
    as (images & w' & Hrun & Hmax)
    by (exists images, w'; split; [done | split; [done | lia]]).
  unfold get_commons_category_images. run_m.
  destruct (requests_get E (clock w) (commons_url page_name)) as [response|];
    [|eexists _, _; split; [done | simpl; lia]].
  set (w1 := tick w).
  pose proof (file_namespace_bounded E page_name max_images w1) as Htier2.
  destruct (contains (lit "Special:Search") (url response)).
  { destruct (get_commons_file_namespace E page_name max_images w1)
      as [[images|] w2]; eexists _, _; split; try done. simpl; lia. }
  destruct (negb (status_code response =? 200)%Z);
    [eexists _, _; split; [done | simpl; lia] |].
  destruct (scan_category _ max_images) as [[|d images]|] eqn:Hs.
  - destruct (get_commons_file_namespace E page_name max_images w1)
      as [[images|] w2]; eexists _, _; split; try done. simpl; lia.
  - eexists _, _. split; [done|]. by apply scan_category_bounded in Hs.
  - eexists _, _. split; [done | simpl; lia].
Qed.

(** C1 (amended).  When the request of Tier 1 is answered: if the
    answer was redirected to a search result, or has status 200 and
    its markup yields no descriptor, Tier 1 runs Tier 2 and returns
    what Tier 2 returns (the empty list should Tier 2 raise); if the
    answer was not redirected and its status is not 200, Tier 1
    returns the empty list after its one request, and Tier 2 is not
    run. *)
Theorem locator_fall_through (E : Env) (page_name : str) (max_images : Z)
    (w : World) (response : Response) :
  requests_get E (clock w) (commons_url page_name) = Ok response ->
  (contains (lit "Special:Search") (url response) = true \/
   (status_code response = 200%Z /\
    scan_category (html_parser E (text response)) max_images = Ok []) ->
   get_commons_category_images E page_name max_images w =
     match get_commons_file_namespace E page_name max_images (tick w) with
     | (Ok images, w') => (Ok images, w')
     | (Raise _, w') => (Ok [], w')
     end) /\
  (contains (lit "Special:Search") (url response) = false ->
   status_code response <> 200%Z ->
   get_commons_category_images E page_name max_images w = (Ok [], tick w)).
Proof.
  intros Hget. unfold get_commons_category_images. run_m. rewrite Hget.
  fold (tick w). split.
  - intros [Hredirect|[Hstatus Hscan]].
    + rewrite Hredirect.
      by destruct (get_commons_file_namespace _ _ _ _) as [[?|?] ?].
    + destruct (contains (lit "Special:Search") (url response)).
      * by destruct (get_commons_file_namespace _ _ _ _) as [[?|?] ?].
      * rewrite Hstatus, Hscan. cbn [negb Z.eqb].
        change (200 =? 200)%Z with true. cbn [negb].
        by destruct (get_commons_file_namespace _ _ _ _) as [[?|?] ?].
  - intros Hredirect Hstatus. rewrite Hredirect.
    apply Z.eqb_neq in Hstatus. by rewrite Hstatus.
Qed.

(** A category page with an empty gallery: the result of the media
    search is returned, after two requests. *)
Lemma locator_fall_through_witness :
  get_commons_category_images ExampleLocator.env (lit "Apple") 15 (world_at 0)
    = (Ok [ExampleLocator.apple], world_at 2).
Proof.
  destruct (locator_fall_through ExampleLocator.env (lit "Apple") 15
              (world_at 0)
              {| url := commons_url (lit "Apple"); status_code := 200;
                 text := ExampleLocator.empty_gallery_markup; content := [] |}
              eq_refl) as [Hfall _].
  rewrite Hfall.
  - vm_compute. reflexivity.
  - right. split; vm_compute; reflexivity.
Defined.

(** C1, as stated, fails for a status that is not 200: the category
    page answers 404, Tier 1 returns the empty list after its one
    request, although Tier 2, run at that point, finds an image. *)
Lemma locator_status_without_fallback :
  get_commons_category_images ExampleLocator.env (lit "Gravity") 15 (world_at 0)
    = (Ok [], world_at 1) /\
  get_commons_file_namespace ExampleLocator.env (lit "Gravity") 15 (world_at 1)
    = (Ok [ExampleLocator.apple], world_at 2).
Proof. split; vm_compute; reflexivity. Qed.

(** ** Thumbnail Upgrader *)

Section UpgraderFacts.
Variable E : Env.

(** The sizes below the minimum play no part in the search. *)
Lemma first_sized_skips (sizes : list N) (min_width : Z) (s : soup) :
  first_sized E sizes min_width s
    = first_sized E
        (List.filter (fun size => negb (Z.of_N size <? min_width)%Z) sizes)
        min_width s.
Proof.
  induction sizes as [|size rest IH]; [done|].
  cbn [first_sized List.filter].
  destruct (Z.of_N size <? min_width)%Z eqn:Hlt; cbn [negb]; [done|].
  cbn [first_sized]. rewrite Hlt. by rewrite IH.
Qed.

Lemma first_size_link_none (size : N) (size_links : list node) :
  (forall link, In link size_links ->
     Re.search_size E size (strip (get_text link)) = false) ->
  first_size_link E size size_links = None.
Proof.
  induction size_links as [|link rest IH]; intros H; [done|].
  cbn [first_size_link]. rewrite (H link) by (by left). cbn [andb].
  apply IH. intros l Hl. apply H. by right.
Qed.

(** No label matching a size that counts, no sized result. *)
Lemma first_sized_none (sizes : list N) (min_width : Z) (s : soup) :
  (forall size link,
      In size sizes -> (min_width <= Z.of_N size)%Z ->
      In link (soup_find_all (lit "a") s) ->
      Re.search_size E size (strip (get_text link)) = false) ->
  first_sized E sizes min_width s = None.
Proof.
  induction sizes as [|size rest IH]; intros H; [done|].
  cbn [first_sized].
  destruct (Z.of_N size <? min_width)%Z eqn:Hlt.
  - apply IH. intros sz link Hsz. apply H. by right.
  - apply Z.ltb_ge in Hlt. rewrite first_size_link_none.
    + apply IH. intros sz link Hsz. apply H. by right.
    + intros link Hlink. apply (H size link); [by left | done | done].
Qed.

(** The upgrader never raises; it makes one request and leaves the
    files alone. *)
Lemma find_larger_thumbnail_eq (file_page : str) (min_width : Z) (w : World) :
  find_larger_thumbnail E file_page min_width w
    = (Ok (larger_thumbnail_at E file_page min_width (clock w)), tick w).
Proof.
  unfold larger_thumbnail_at, find_larger_thumbnail, world_at, tick. run_m.
  cbn [clock].
  destruct (requests_get E (clock w) file_page) as [response|]; [|done].
  destruct (negb (status_code response =? 200)%Z); [done|].
  destruct (first_sized E candidate_sizes min_width _) as [href|].
  - by destruct (absolute_href href).
  - by destruct (full_image _) as [[?|]|].
Qed.

End UpgraderFacts.

(** C9 (amended).  When the detail page is fetched with status 200 and
    no anchor label matches a candidate size that is at least the
    requested minimum (the candidates below the minimum are passed
    over, whatever the labels say, so a page whose only label is 600 by
    450 qualifies for a minimum of 800), the Thumbnail Upgrader matches
    no sized candidate and falls back on the full-image block of the
    page: it returns the address of the picture of that block, and no
    result when the page has none, in which case the caller uses the
    original thumbnail. *)
Theorem upgrader_no_sized_match (E : Env) (file_page : str) (min_width : Z)
    (w : World) (response : Response) :
  requests_get E (clock w) file_page = Ok response ->
  status_code response = 200%Z ->
  (forall size link,
      In size candidate_sizes -> (min_width <= Z.of_N size)%Z ->
      In link (soup_find_all (lit "a") (html_parser E (text response))) ->
      Re.search_size E size (strip (get_text link)) = false) ->
  first_sized E candidate_sizes min_width (html_parser E (text response))
    = None /\
  find_larger_thumbnail E file_page min_width w
    = (Ok (match full_image (html_parser E (text response)) with
           | Ok picture => picture
           | Raise _ => None
           end),
       tick w) /\
  (soup_find_class (lit "div") (lit "fullImageLink")
     (html_parser E (text response)) = None ->
   forall thumbnail,
     or_else (larger_thumbnail_at E file_page min_width (clock w)) thumbnail
       = thumbnail).
Proof.
  intros Hget Hstatus Hlabels.
  pose proof (first_sized_none E candidate_sizes min_width _ Hlabels) as Hnone.
  assert (find_larger_thumbnail E file_page min_width w
          = (Ok (match full_image (html_parser E (text response)) with
                 | Ok picture => picture
                 | Raise _ => None
                 end),
             tick w)) as Hrun.
  { unfold find_larger_thumbnail. run_m. rewrite Hget, Hstatus, Hnone.
    change (200 =? 200)%Z with true. cbn [negb].
    by destruct (full_image _) as [[?|]|]. }
  split; [done|]. split; [done|].
  intros Hblock thumbnail.
  pose proof (find_larger_thumbnail_eq E file_page min_width w) as Heq.
  rewrite Hrun in Heq. injection Heq as <-.
  unfold full_image. by rewrite Hblock.
Qed.

(** The page whose only label is 600 by 450, for a minimum of 800. *)
Lemma upgrader_no_sized_match_witness :
  first_sized ExampleUpgrader.env candidate_sizes 800
    [ExampleUpgrader.size_link (lit "600") (lit "450")] = None /\
  find_larger_thumbnail ExampleUpgrader.env ExampleUpgrader.detail_page 800
      (world_at 0)
    = (Ok None, world_at 1) /\
  (forall thumbnail,
     or_else (larger_thumbnail_at ExampleUpgrader.env
                ExampleUpgrader.detail_page 800 0) thumbnail
       = thumbnail).
Proof.
  destruct (upgrader_no_sized_match ExampleUpgrader.env
              ExampleUpgrader.detail_page 800 (world_at 0)
              {| url := ExampleUpgrader.detail_page; status_code := 200;
                 text := ExampleUpgrader.landscape_markup; content := [] |}
              eq_refl eq_refl) as (Hnone & Hrun & Huse).
  - intros size link Hsize Hmin Hlink.
    apply (List.Forall_forall
             (fun size => (800 <= Z.of_N size)%Z ->
                Re.search_size ExampleUpgrader.env size (strip (get_text link))
                  = false)
             candidate_sizes); [|exact Hsize|exact Hmin].
    destruct Hlink as [<-|[]].
    repeat constructor; intros Hle; vm_compute in Hle |- *;
      first [reflexivity | by exfalso; apply Hle].
  - split; [exact Hnone|]. split; [exact Hrun|]. apply Huse. reflexivity.
Defined.

(** C9, as stated, fails, on two pages whose only size label is for a
    rendition 600 pixels wide, the minimum being 800.  On the first the
    label is 600 by 450 and nothing matches, but the page has a
    full-image block: the upgrader returns the picture of the block and
    the caller fetches that address, not the original thumbnail.  On
    the second the label is 600 by 800: the candidate 800 finds the
    height in the label, and the address of the rendition 600 wide is
    returned as the sized result. *)
Lemma upgrader_narrow_renditions :
  (find_larger_thumbnail ExampleUpgrader.env ExampleUpgrader.preview_page 800
       (world_at 0)
     = (Ok (Some (lit "https:" ++ ExampleUpgrader.preview_src)), world_at 1) /\
   or_else (larger_thumbnail_at ExampleUpgrader.env
              ExampleUpgrader.preview_page 800 0)
       (lit "https://upload.wikimedia.org/original-thumbnail.jpg")
     = lit "https:" ++ ExampleUpgrader.preview_src) /\
  find_larger_thumbnail ExampleUpgrader.env ExampleUpgrader.portrait_page 800
      (world_at 0)
    = (Ok (Some (lit "https:" ++ ExampleUpgrader.thumb_600)), world_at 1).
Proof. repeat split; vm_compute; reflexivity. Qed.

(** ** Image Downloader *)

Section DownloaderFacts.
Variable E : Env.

(** One iteration: two requests, at most one write, never an exception;
    the variable [filename] is bound when it ends. *)
Lemma download_one_eq (folder : str) (min_width : Z) (img_info : descriptor)
    (saved_images : list str) (filename_var : option str) (w : World) :
  download_one E folder min_width img_info saved_images filename_var w
    = (Ok (saved_images
             ++ List.map fst (saves_of (saved_at E folder min_width (clock w) img_info)),
           Some (filename img_info)),
       {| clock := S (S (clock w));
          files := write_all (saves_of (saved_at E folder min_width (clock w) img_info))
                     (files w);
          folders := folders w |}).
Proof.
  unfold download_one. rewrite find_larger_thumbnail_eq.
  unfold fetch_and_save, saved_at, write_file, tick. run_m. cbn [clock files folders].
  destruct (requests_get E (S (clock w)) _) as [response|];
    [|cbn; by rewrite app_nil_r].
  destruct (status_code response =? 200)%Z; [|cbn; by rewrite app_nil_r].
  destruct (Image_open E (content response)); [|cbn; by rewrite app_nil_r].
  destruct (writable E _); cbn; [done | by rewrite app_nil_r].
Qed.

Lemma write_all_app (a b : list (str * bytes)) (fs : gmap str bytes) :
  write_all (a ++ b) fs = write_all b (write_all a fs).
Proof. apply fold_left_app. Qed.

(** The loop: every descriptor has its turn. *)
Lemma download_loop_eq (folder : str) (min_width : Z)
    (images_list : list descriptor) :
  forall (saved_images : list str) (filename_var : option str) (w : World),
    download_loop E folder min_width images_list saved_images filename_var w
      = (Ok (saved_images
               ++ List.map fst (saves_from E folder min_width (clock w) images_list)),
         {| clock := (clock w + 2 * length images_list)%nat;
            files := write_all (saves_from E folder min_width (clock w) images_list)
                       (files w);
            folders := folders w |}).
Proof.
  induction images_list as [|img_info rest IH];
    intros saved_images filename_var w.
  - cbn. rewrite app_nil_r. destruct w. cbn. do 2 f_equal. lia.
  - cbn [download_loop saves_from]. unfold bind.
    rewrite download_one_eq, IH. cbn [clock files folders].
    rewrite List.map_app, app_assoc, write_all_app.
    do 2 f_equal. cbn [length]. lia.
Qed.

End DownloaderFacts.

Section BatchFacts.
Variable E : Env.

(** The whole function, once the folder is there. *)
Lemma download_batch_eq (images_list : list descriptor) (folder : str)
    (min_width : Z) (w : World) :
  folder_ready E folder w ->
  exists folders',
    download_thumbnail_images E images_list folder min_width w
      = (Ok (List.map fst (saves_from E folder min_width (clock w) images_list)),
         {| clock := (clock w + 2 * length images_list)%nat;
            files := write_all (saves_from E folder min_width (clock w) images_list)
                       (files w);
            folders := folders' |}).
Proof.
  intros Hready. unfold download_thumbnail_images, path_exists, makedirs, bind.
  destruct (bool_decide (folder ∈ folders w)
            || bool_decide (is_Some (files w !! folder))) eqn:Hex.
  - unfold ret. rewrite download_loop_eq. eauto.
  - apply orb_false_elim in Hex as [H1 H2].
    apply bool_decide_eq_false in H1, H2.
    destruct Hready as [?|[?|Hmk]]; [done|done|]. rewrite Hmk.
    rewrite download_loop_eq. cbn [clock files folders]. eauto.
Qed.

Lemma saves_from_app (folder : str) (min_width : Z) (l1 l2 : list descriptor) :
  forall n,
    saves_from E folder min_width n (l1 ++ l2)
      = saves_from E folder min_width n l1
        ++ saves_from E folder min_width (n + 2 * length l1) l2.
Proof.
  induction l1 as [|d l1 IH]; intros n; cbn [saves_from app length].
  - f_equal. lia.
  - rewrite IH, <- app_assoc. do 3 f_equal. lia.
Qed.

(** The destination is the folder joined with the sanitized name:
    nothing else of the descriptor enters the path. *)
Lemma saved_at_path (folder : str) (min_width : Z) (n : nat)
    (img_info : descriptor) (path : str) (data : bytes) :
  saved_at E folder min_width n img_info = Some (path, data) ->
  path = os_path_join folder (Re.sub_illegal (filename img_info)).
Proof.
  unfold saved_at. intros H.
  repeat case_match; try done. by injection H as <- _.
Qed.

Lemma write_all_keeps (saves : list (str * bytes)) (path : str) :
  List.Forall (fun s => fst s <> path) saves ->
  forall fs, write_all saves fs !! path = fs !! path.
Proof.
  induction 1 as [|[p b] saves Hp _ IH]; intros fs; [done|].
  cbn [write_all fold_left fst snd] in *. fold (write_all saves (<[p:=b]> fs)).
  rewrite IH. by apply lookup_insert_ne.
Qed.

(** The last write to a path decides its content. *)
Lemma write_all_last (before after : list (str * bytes)) (path : str)
    (data : bytes) (fs : gmap str bytes) :
  List.Forall (fun s => fst s <> path) after ->
  write_all (before ++ (path, data) :: after) fs !! path = Some data.
Proof.
  intros Hafter. rewrite write_all_app.
  cbn [write_all fold_left fst snd].
  fold (write_all after (<[path:=data]> (write_all before fs))).
  rewrite write_all_keeps by done. apply lookup_insert_eq.
Qed.

End BatchFacts.



(** C10.  When two descriptors of the input, the second after the
    first, have file names that sanitize to the same name, and each is
    transferred, decoded and written, then both are written to one and
    the same path, the folder joined with the sanitized name; the list
    returned holds that path twice; and the file holds the bytes of the
    second, unless a later descriptor is written there again. *)
Theorem downloader_same_name (E : Env) (folder : str) (min_width : Z)
    (w : World) (before between after : list descriptor)
    (first second : descriptor) (path1 path2 : str) (data1 data2 : bytes) :
  folder_ready E folder w ->
  Re.sub_illegal (filename first) = Re.sub_illegal (filename second) ->
  saved_at E folder min_width (clock w + 2 * length before) first
    = Some (path1, data1) ->
  saved_at E folder min_width
      (clock w + 2 * length (before ++ first :: between)) second
    = Some (path2, data2) ->
  List.Forall (fun s => fst s <> path2)
    (saves_from E folder min_width
       (clock w + 2 * length (before ++ first :: between ++ [second])) after) ->
  exists saved w',
    download_thumbnail_images E
        (before ++ first :: between ++ second :: after) folder min_width w
      = (Ok saved, w') /\
    path1 = os_path_join folder (Re.sub_illegal (filename first)) /\
    path2 = path1 /\
    (exists l1 l2 l3, saved = l1 ++ path1 :: l2 ++ path1 :: l3) /\
    files w' !! path1 = Some data2.
Proof.
  intros Hready Hname H1 H2 Hafter.
  pose proof (saved_at_path E _ _ _ _ _ _ H1) as Hp1.
  pose proof (saved_at_path E _ _ _ _ _ _ H2) as Hp2.
  assert (path2 = path1) as Heq by (rewrite Hp1, Hp2, Hname; reflexivity).
  destruct (download_batch_eq E (before ++ first :: between ++ second :: after)
              folder min_width w Hready) as [folders' ->].
  eexists _, _. split; [reflexivity|]. split; [done|]. split; [done|].
  assert (saves_from E folder min_width (clock w)
            (before ++ first :: between ++ second :: after)
          = (saves_from E folder min_width (clock w) before
             ++ (path1, data1)
             :: saves_from E folder min_width
                  (S (S (clock w + 2 * length before))) between)
            ++ (path2, data2)
            :: saves_from E folder min_width
                 (clock w + 2 * length (before ++ first :: between ++ [second]))
                 after) as ->.
  { rewrite saves_from_app. cbn [saves_from]. rewrite H1.
    rewrite saves_from_app. cbn [saves_from].
    replace (S (S (clock w + 2 * length before)) + 2 * length between)%nat
      with (clock w + 2 * length (before ++ first :: between))%nat
      by (rewrite length_app; cbn [length]; lia).
    rewrite H2. cbn [saves_of app]. rewrite <- !app_assoc. cbn [app].
    do 5 f_equal. rewrite !length_app. cbn [length]. rewrite length_app.
    cbn [length]. lia. }
  split.
  - rewrite Heq, !List.map_app. cbn [List.map fst].
    rewrite <- app_assoc. cbn [app].
    eexists _, _, _. reflexivity.
  - cbn [files]. rewrite <- Heq. by apply write_all_last.
Qed.

(** The first and the last of that batch have the same sanitized
    name. *)
Lemma downloader_same_name_witness :
  exists saved w',
    download_thumbnail_images ExampleDownloader.env
        ([] ++ ExampleDownloader.first
            :: [ExampleDownloader.broken; ExampleDownloader.missing;
                ExampleDownloader.textual]
            ++ ExampleDownloader.second :: [])
        ExampleDownloader.folder 800 (world_at 0)
      = (Ok saved, w') /\
    ExampleDownloader.saved_path
      = os_path_join ExampleDownloader.folder
          (Re.sub_illegal (filename ExampleDownloader.first)) /\
    ExampleDownloader.saved_path = ExampleDownloader.saved_path /\
    (exists l1 l2 l3,
        saved = l1 ++ ExampleDownloader.saved_path
                  :: l2 ++ ExampleDownloader.saved_path :: l3) /\
    files w' !! ExampleDownloader.saved_path = Some [2].
Proof.
  apply (downloader_same_name ExampleDownloader.env ExampleDownloader.folder
           800 (world_at 0) []
           [ExampleDownloader.broken; ExampleDownloader.missing;
            ExampleDownloader.textual] []
           ExampleDownloader.first ExampleDownloader.second
           ExampleDownloader.saved_path ExampleDownloader.saved_path [1] [2]).
  - right. right. reflexivity.
  - vm_compute. reflexivity.
  - vm_compute. reflexivity.
  - vm_compute. reflexivity.
  - constructor.
Defined.

(** * Further properties *)

(** ** Title Resolver *)

Section TitleFacts.

Lemma replace_char_map (a b : N) (s : str) :
  replace [a] [b] s = List.map (fun c => if a =? c then b else c) s.
Proof.
  unfold replace. induction s as [|c s IH]; [done|].
  cbn [replace_aux startswith length pred List.map app].
  rewrite andb_true_r. destruct (a =? c); cbn [app]; by rewrite IH.
Qed.

Lemma replace_char_absent (a b : N) (s : str) :
  a <> b -> ~ In a (replace [a] [b] s).
Proof.
  intros Hab. rewrite replace_char_map. intros Hin.
  apply in_map_iff in Hin as (c & Hc & _).
  destruct (a =? c) eqn:Hac; [congruence|].
  apply N.eqb_neq in Hac. congruence.
Qed.

End TitleFacts.

(** X1.  The Title Resolver never raises; it returns a title exactly
    when the address holds the marker [/wiki/], and [None] exactly
    when it does not; and a title it returns holds no underscore:
    every underscore of the address, and every one that
    percent-decoding brings out, has become a space. *)
Theorem title_without_underscore (wiki_url : str) :
  match extract_wiki_title wiki_url with
  | Ok (Some title) =>
      contains (lit "/wiki/") wiki_url = true /\ ~ In 95 title
  | Ok None => contains (lit "/wiki/") wiki_url = false
  | Raise _ => False
  end.
Proof.
  rewrite extract_wiki_title_eq.
  destruct (after_first (lit "/wiki/") wiki_url) eqn:Ha.
  - split; [apply contains_after_first; by rewrite Ha|].
    change (lit "_") with [95]. change (lit " ") with [32].
    by apply replace_char_absent.
  - by apply contains_false_after_first.
Qed.

Section CategoryAddress.

Lemma contains_char_absent (a : N) (s : str) :
  ~ In a s -> contains [a] s = false.
Proof.
  induction s as [|c s IH]; intros Hin; [done|].
  cbn [contains startswith]. rewrite andb_true_r.
  destruct (a =? c) eqn:Hac.
  - apply N.eqb_eq in Hac. subst. exfalso. apply Hin. by left.
  - apply IH. intros H. apply Hin. by right.
Qed.

Lemma truncate_at_delimiter_id (s : str) :
  ~ In 35 s -> ~ In 63 s -> truncate_at_delimiter s = s.
Proof.
  induction s as [|c s IH]; intros H1 H2; [done|].
  cbn [truncate_at_delimiter].
  destruct (c =? 35) eqn:E1.
  { apply N.eqb_eq in E1. subst. exfalso. apply H1. by left. }
  destruct (c =? 63) eqn:E2.
  { apply N.eqb_eq in E2. subst. exfalso. apply H2. by left. }
  cbn [orb]. rewrite IH; [done | |]; intros H; [apply H1 | apply H2]; by right.
Qed.

(** A change of characters that does not touch the characters of a
    pattern, and produces none of them, moves no occurrence of it. *)
Lemma startswith_map (f : N -> N) (sep s : str) :
  (forall a c, In a sep -> (a =? f c) = (a =? c)) ->
  startswith (List.map f s) sep = startswith s sep.
Proof.
  revert s. induction sep as [|a sep IH]; intros s Hf; [done|].
  destruct s as [|c s]; [done|]. cbn [List.map startswith].
  rewrite (Hf a c) by (by left). f_equal. apply IH.
  intros a' c' Ha'. apply Hf. by right.
Qed.

Lemma contains_map (f : N -> N) (sep s : str) :
  (forall a c, In a sep -> (a =? f c) = (a =? c)) ->
  contains sep (List.map f s) = contains sep s.
Proof.
  intros Hf. induction s as [|c s IH].
  - done.
  - cbn [List.map contains].
    change (f c :: List.map f s) with (List.map f (c :: s)).
    rewrite startswith_map by done. by rewrite IH.
Qed.

Lemma spaces_to_underscores_marker (a c : N) :
  In a (lit "/wiki/") -> (a =? (if 32 =? c then 95 else c)) = (a =? c).
Proof.
  intros Ha. destruct (32 =? c) eqn:Hc; [|done].
  apply N.eqb_eq in Hc. subst c.
  vm_compute in Ha. by repeat destruct Ha as [<-|Ha].
Qed.

Lemma plain_title_chars (page_name : str) (a : N) :
  List.Forall (fun c => plain_title_char c = true) page_name ->
  a = 95 \/ a = 35 \/ a = 63 \/ a = 37 ->
  ~ In a page_name.
Proof.
  intros Hall Ha Hin. rewrite List.Forall_forall in Hall.
  specialize (Hall a Hin). unfold plain_title_char in Hall.
  by destruct Ha as [->|[->|[->| ->]]].
Qed.

End CategoryAddress.

(** X2.  The address Tier 1 builds for a page name resolves back to
    it: for a page name that holds no underscore, no [#], [?] or [%],
    and no marker [/wiki/], the Title Resolver applied to the category
    address gives the name behind the prefix "Category:", its spaces
    restored. *)
Theorem category_address_resolves (page_name : str) :
  List.Forall (fun c => plain_title_char c = true) page_name ->
  contains (lit "/wiki/") page_name = false ->
  extract_wiki_title (commons_url page_name)
    = Ok (Some (lit "Category:" ++ page_name)).
Proof.
  intros Hplain Hmarker. rewrite extract_wiki_title_eq.
  unfold commons_url. change (lit " ") with [32]. change (lit "_") with [95].
  rewrite replace_char_map.
  set (underscored := List.map (fun c => if 32 =? c then 95 else c) page_name).
  assert (after_first (lit "/wiki/")
            (lit "https://commons.wikimedia.org/wiki/Category:" ++ underscored)
          = Some (lit "Category:" ++ underscored)) as ->.
  { generalize underscored. intros q. vm_compute. reflexivity. }
  assert (forall a, a = 35 \/ a = 63 \/ a = 37 ->
            ~ In a (lit "Category:" ++ underscored)) as Hclean.
  { intros a Ha Hin. apply in_app_or in Hin as [Hin|Hin].
    - vm_compute in Hin.
      destruct Ha as [->|[->| ->]]; by repeat destruct Hin as [?|Hin].
    - apply in_map_iff in Hin as (c & Hc & Hin).
      assert (c <> 32 -> a = c) as Hne.
      { intros Hn. destruct (32 =? c) eqn:E; [|done].
        apply N.eqb_eq in E. congruence. }
      destruct (N.eq_dec c 32) as [->|Hn].
      + vm_compute in Hc. by destruct Ha as [->|[->| ->]].
      + rewrite <- (Hne Hn) in Hin.
        apply (plain_title_chars page_name a Hplain); [tauto | done]. }
  assert (contains (lit "/wiki/") (lit "Category:" ++ underscored) = false)
    as Hone.
  { assert (contains (lit "/wiki/") underscored = false) as Hu.
    { unfold underscored. rewrite contains_map; [done|].
      intros a c. apply spaces_to_underscores_marker. }
    revert Hu. generalize underscored. intros q Hq.
    change (lit "Category:" ++ q) with (67 :: 97 :: 116 :: 101 :: 103 :: 111 :: 114 :: 121 :: 58 :: q).
    change (lit "/wiki/") with [47; 119; 105; 107; 105; 47] in *.
    cbn [contains startswith].
    repeat match goal with
           | |- context [(47 =? ?c) && _] =>
               change (47 =? c) with false; cbn [andb orb]
           end.
    exact Hq. }
  apply contains_false_after_first in Hone.
  rewrite (after_first_None_before _ _ Hone).
  rewrite truncate_at_delimiter_id by (apply Hclean; tauto).
  unfold Urllib.unquote. change (lit "%") with [37].
  rewrite contains_char_absent by (apply Hclean; tauto).
  rewrite replace_char_map, List.map_app. do 2 f_equal.
  unfold underscored. rewrite List.map_map.
  rewrite <- (List.map_id page_name) at 2.
  f_equal. apply List.map_ext_in.
  intros c Hc.
  assert (c <> 95) as Hn.
  { intros ->. by apply (plain_title_chars page_name 95 Hplain); [left|]. }
  destruct (32 =? c) eqn:E.
  - apply N.eqb_eq in E. by subst c.
  - destruct (95 =? c) eqn:E2; [|done]. apply N.eqb_eq in E2. congruence.
Qed.

(** A page name of two words. *)
Lemma category_address_resolves_witness :
  extract_wiki_title (commons_url (lit "Isaac Newton"))
    = Ok (Some (lit "Category:Isaac Newton")).
Proof.
  apply (category_address_resolves (lit "Isaac Newton")).
  - repeat constructor.
  - vm_compute. reflexivity.
Defined.

(** ** Content Renderer *)

Section ReplaceFacts.

Lemma replace_aux_skip (old new s : str) (k : nat) :
  (k <= length s)%nat ->
  replace_aux old new s k = replace_aux old new (drop k s) 0.
Proof.
  revert k. induction s as [|c s IH]; intros k Hk; simpl in *.
  - assert (k = 0%nat) as -> by lia. done.
  - destruct k as [|k]; [done|]. simpl. apply IH. lia.
Qed.

Lemma replace_aux_absent (old new s : str) :
  contains old s = false -> replace_aux old new s 0 = s.
Proof.
  induction s as [|c s IH]; [done|]. cbn [contains replace_aux].
  intros [Hs Hc]%orb_false_elim. rewrite Hs. by rewrite IH.
Qed.

(** An occurrence at the start is replaced, and the replacement goes
    on behind it. *)
Lemma replace_prefix (old new rest : str) :
  old <> [] ->
  replace old new (old ++ rest) = new ++ replace old new rest.
Proof.
  destruct old as [|a old]; [done|]. intros _. unfold replace.
  cbn [app replace_aux].
  assert (startswith (a :: old ++ rest) (a :: old) = true) as ->.
  { apply startswith_app. by exists rest. }
  f_equal. cbn [length pred]. rewrite replace_aux_skip.
  - by rewrite drop_app_length.
  - rewrite length_app. lia.
Qed.

End ReplaceFacts.

(** X3.  The category section: under the heading line, every category
    whose name follows the namespace prefix "Category:", and does not
    hold that text again, is listed by its bare name. *)
Theorem category_names_rendered (names : list str) :
  List.Forall (fun name => contains (lit "Category:") name = false) names ->
  render_categories (List.map (fun name => lit "Category:" ++ name) names)
    = nl ++ lit "## Categories" ++ nl
      ++ flat_map (fun name => lit "- " ++ name ++ nl) names.
Proof.
  intros Hnames. unfold render_categories. do 3 f_equal.
  induction Hnames as [|name names Hname _ IH]; [done|].
  cbn [List.map flat_map]. rewrite IH. do 2 f_equal.
  rewrite (replace_prefix (lit "Category:") [] name) by done.
  cbn [app]. unfold replace. change (lit "Category:") with (67 :: tl (lit "Category:")).
  by rewrite replace_aux_absent.
Qed.

(** Two categories. *)
Lemma category_names_rendered_witness :
  render_categories [lit "Category:Rivers"; lit "Category:Physics"]
    = nl ++ lit "## Categories" ++ nl
      ++ lit "- Rivers" ++ nl ++ lit "- Physics" ++ nl.
Proof.
  change [lit "Category:Rivers"; lit "Category:Physics"]
    with (List.map (fun name => lit "Category:" ++ name)
            [lit "Rivers"; lit "Physics"]).
  rewrite (category_names_rendered [lit "Rivers"; lit "Physics"]).
  - vm_compute. reflexivity.
  - repeat constructor.
Defined.

(** X4.  The Content Renderer never raises, and its text output is
    never empty and never begins or ends with white space, whatever
    the markup: it is the placeholder or a trimmed document. *)
Theorem renderer_output_trimmed (E : Env) (api_data : option Api.data) :
  match process_wiki_content E api_data with
  | Ok (plain_text, _) =>
      plain_text <> [] /\
      (forall c, head plain_text = Some c -> isspace c = false) /\
      (forall c, last plain_text = Some c -> isspace c = false)
  | Raise _ => False
  end.
Proof.
  destruct (markup_of api_data) as [html_content|] eqn:Hm.
  - destruct api_data as [d|]; [|done]. unfold markup_of in Hm.
    destruct (Api.text d) as [[h|]|] eqn:Ht; try done. injection Hm as ->.
    rewrite (process_wiki_content_eq E d html_content Ht).
    split; [|split; [apply strip_head | apply strip_last]].
    unfold plain_text_of. change (lit "# ") with [35; 32]. cbn [app].
    destruct (strip_first 35 (32 :: title_of E d ++ nl ++ nl
      ++ visible_blocks (find_all_located block_names (cleaned_soup E html_content))
      ++ trailer_of d) eq_refl) as [rest ->]. done.
  - assert (process_wiki_content E api_data = Ok (failure_placeholder, None))
      as ->.
    { destruct api_data as [d|]; [|done]. unfold markup_of in Hm.
      unfold process_wiki_content.
      by destruct (Api.text d) as [[h|]|]. }
    split; [done|]. split; intros c [= <-]; reflexivity.
Qed.

(** X5.  Blocks keep the order of the document: of two block elements
    of the cleaned markup, neither under a marked ancestor, the one
    that comes first in the document has its block first in the
    text. *)
Theorem renderer_block_order (E : Env) (d : Api.data) (html_content : str)
    (l1 l2 l3 : list located) (first second : located) :
  Api.text d = Some (Some html_content) ->
  soup_tags (cleaned_soup E html_content)
    = l1 ++ first :: l2 ++ second :: l3 ->
  has_name block_names (snd first) = true ->
  has_name block_names (snd second) = true ->
  in_unwanted_section (fst first) = false ->
  in_unwanted_section (fst second) = false ->
  exists before between after,
    process_wiki_content E (Some d)
      = Ok (strip (before ++ block_of (snd first) ++ between
                   ++ block_of (snd second) ++ after),
            Some html_content).
Proof.
  intros Ht Hsplit Hn1 Hn2 Hu1 Hu2.
  rewrite (process_wiki_content_eq E d html_content Ht).
  unfold plain_text_of, find_all_located. rewrite Hsplit.
  rewrite List.filter_app. cbn [List.filter]. rewrite Hn1.
  rewrite List.filter_app. cbn [List.filter]. rewrite Hn2.
  rewrite visible_blocks_app. unfold visible_blocks at 2.
  cbn [flat_map]. rewrite Hu1. rewrite flat_map_app. cbn [flat_map].
  rewrite Hu2.
  fold (visible_blocks
          (List.filter (fun l => has_name block_names (snd l)) l2)).
  fold (visible_blocks
          (List.filter (fun l => has_name block_names (snd l)) l3)).
  exists (lit "# " ++ title_of E d ++ nl ++ nl
          ++ visible_blocks
               (List.filter (fun l => has_name block_names (snd l)) l1)),
    (visible_blocks (List.filter (fun l => has_name block_names (snd l)) l2)),
    (visible_blocks (List.filter (fun l => has_name block_names (snd l)) l3)
     ++ trailer_of d).
  by rewrite <- !app_assoc.
Qed.

(** The heading and the list of a page with a heading, a paragraph and
    a list. *)
Lemma renderer_block_order_witness :
  exists before between after,
    process_wiki_content ExampleOrder.env (Some ExampleOrder.page)
      = Ok (strip (before ++ block_of ExampleOrder.heading ++ between
                   ++ block_of ExampleOrder.items ++ after),
            Some ExampleOrder.markup).
Proof.
  apply (renderer_block_order ExampleOrder.env ExampleOrder.page
           ExampleOrder.markup [] [([∅], ExampleOrder.paragraph)]
           [([∅; ∅], Elem (lit "li") ∅ [Text (lit "One")])]
           ([∅], ExampleOrder.heading) ([∅], ExampleOrder.items));
    vm_compute; reflexivity.
Defined.

(** ** Image Locator *)

Section ScanFacts.

Lemma absolute_is_absolute (prefix u : str) :
  absolute_address prefix = true ->
  absolute_address (absolute prefix u) = true.
Proof.
  unfold absolute_address, absolute. intros Hp.
  destruct (startswith u (lit "http")) eqn:Hu; [done|].
  apply startswith_app in Hp as [r ->]. apply startswith_app.
  exists (r ++ u). by rewrite app_assoc.
Qed.

Lemma make_normalised (thumb_url file_page fname : str) :
  filename_of (absolute commons_origin file_page) = Ok fname ->
  normalised {| filename := fname;
                thumbnail_url := absolute (lit "https:") thumb_url;
                file_page := absolute commons_origin file_page |}.
Proof.
  intros Hf. repeat split; cbn; [| |done]; by apply absolute_is_absolute.
Qed.

Lemma extract_thumb_item_normalised (item : node) (d : descriptor) :
  extract_thumb_item item = Ok (Some d) -> normalised d.
Proof.
  unfold extract_thumb_item. intros H.
  repeat case_match; try done; cbn [rbind] in H; try done.
  repeat (match type of H with
          | rbind ?r _ = _ => destruct r eqn:?; cbn [rbind] in H; [|done]
          end).
  injection H as <-. by apply make_normalised.
Qed.

Lemma extract_modern_result_normalised (result : node) (d : descriptor) :
  extract_modern_result result = Ok (Some d) -> normalised d.
Proof.
  unfold extract_modern_result. intros H.
  destruct (has_key (lit "href") result); [|done].
  destruct (attr_str (lit "href") result) as [href|]; cbn [rbind] in H; [|done].
  destruct (find (lit "img") result) as [img|]; [|done].
  destruct (has_key (lit "src") img); [|done].
  destruct (attr_str (lit "src") img) as [src|]; cbn [rbind] in H; [|done].
  destruct (filename_of _) as [fname|] eqn:Hf; cbn [rbind] in H; [|done].
  injection H as <-. by apply make_normalised.
Qed.

Lemma extract_legacy_result_normalised (result : node) (d : descriptor) :
  extract_legacy_result result = Ok (Some d) -> normalised d.
Proof.
  unfold extract_legacy_result. intros H.
  destruct (find (lit "a") result) as [link|]; [|done].
  destruct (find (lit "img") result) as [img|]; [|done].
  destruct (has_key (lit "href") link && has_key (lit "src") img); [|done].
  destruct (attr_str (lit "href") link) as [href|]; cbn [rbind] in H; [|done].
  destruct (attr_str (lit "src") img) as [src|]; cbn [rbind] in H; [|done].
  destruct (filename_of _) as [fname|] eqn:Hf; cbn [rbind] in H; [|done].
  injection H as <-. by apply make_normalised.
Qed.

(** A loop whose body gives descriptors with a property keeps the
    property of the list. *)
Lemma scan_Forall (P : descriptor -> Prop)
    (extract : node -> Result (option descriptor)) (max_images : Z)
    (items : list node) :
  (forall item d, extract item = Ok (Some d) -> P d) ->
  forall images count images' count',
    scan extract max_images items images count = Ok (images', count') ->
    List.Forall P images -> List.Forall P images'.
Proof.
  intros Hbody. induction items as [|item rest IH];
    intros images count images' count' H Himages; cbn [scan] in H.
  - by injection H as <- <-.
  - destruct (count >=? max_images)%Z; [by injection H as <- <-|].
    destruct (extract item) as [[d|]|] eqn:He; cbn [rbind] in H; [| |done].
    + apply IH in H; [done|]. apply List.Forall_app. split; [done|].
      constructor; [|done]. by apply (Hbody item).
    + by apply IH in H.
Qed.

Lemma scan_category_normalised (s : soup) (max_images : Z)
    (images : list descriptor) :
  scan_category s max_images = Ok images -> List.Forall normalised images.
Proof.
  unfold scan_category. intros H.
  destruct (match soup_find_class (lit "ul") (lit "gallery") s with
            | Some gallery => _ | None => _ end) as [[images1 count1]|] eqn:H1;
    cbn [rbind] in H; [|done].
  assert (List.Forall normalised images1) as Hn1.
  { destruct (soup_find_class _ _ s).
    - apply (scan_Forall normalised) in H1; [done | | done].
      apply extract_thumb_item_normalised.
    - by injection H1 as <- <-. }
  destruct (count1 <? max_images)%Z.
  - destruct (scan _ _ _ images1 count1) as [[images2 count2]|] eqn:H2;
      cbn [rbind] in H; [|done].
    injection H as <-.
    apply (scan_Forall normalised) in H2; [done | | done].
    apply extract_thumb_item_normalised.
  - cbn [rbind] in H. by injection H as <-.
Qed.

Lemma scan_search_normalised (s : soup) (max_images : Z)
    (images : list descriptor) :
  scan_search s max_images = Ok images -> List.Forall normalised images.
Proof.
  unfold scan_search. intros H.
  destruct (scan extract_modern_result _ _ [] 0%Z) as [[images1 count1]|] eqn:H1;
    cbn [rbind] in H; [|done].
  apply (scan_Forall normalised) in H1;
    [| apply extract_modern_result_normalised | done].
  destruct images1 as [|d images1].
  - destruct (scan extract_legacy_result _ _ [] count1)
      as [[images2 count2]|] eqn:H2; cbn [rbind] in H; [|done].
    injection H as <-.
    apply (scan_Forall normalised) in H2; [done | | done].
    apply extract_legacy_result_normalised.
  - cbn [rbind] in H. by injection H as <-.
Qed.

End ScanFacts.

Section TierFacts.
Variable E : Env.

(** The ways Tier 2 ends: it raises before any request, or it makes
    one request and returns nothing, or what the scan of the answer
    returns. *)
Lemma file_namespace_outcome (page_name : str) (max_images : Z) (w : World) :
  (exists e, get_commons_file_namespace E page_name max_images w = (Raise e, w)) \/
  get_commons_file_namespace E page_name max_images w = (Ok [], tick w) \/
  (exists s images,
      scan_search s max_images = Ok images /\
      get_commons_file_namespace E page_name max_images w
        = (Ok images, tick w)).
Proof.
  unfold get_commons_file_namespace. run_m.
  destruct (Urllib.quote page_name) as [quoted|]; [|left; eauto].
  destruct (requests_get E (clock w) (search_url quoted)) as [response|];
    [|right; by left].
  destruct (negb (status_code response =? 200)%Z); [right; by left|].
  destruct (scan_search _ max_images) as [images|] eqn:Hs; [|right; by left].
  right. right. eauto.
Qed.

(** The ways Tier 1 ends: after one request or two, with nothing or
    with what a scan returns. *)
Lemma category_images_outcome (page_name : str) (max_images : Z) (w : World) :
  exists images w',
    get_commons_category_images E page_name max_images w = (Ok images, w') /\
    (w' = tick w \/ w' = tick (tick w)) /\
    (images = [] \/
     (exists s, scan_category s max_images = Ok images) \/
     (exists s, scan_search s max_images = Ok images)).
Proof.
  unfold get_commons_category_images. run_m.
  destruct (requests_get E (clock w) (commons_url page_name)) as [response|];
    [|eexists _, _; split; [done|]; split; by left].
  pose proof (file_namespace_outcome page_name max_images (tick w)) as Htier2.
  assert (exists images w',
            match get_commons_file_namespace E page_name max_images (tick w) with
            | (Ok a, w'0) => (Ok a, w'0)
            | (Raise e, w'0) => (Ok [], w'0)
            end = (Ok images, w') /\
            (w' = tick w \/ w' = tick (tick w)) /\
            (images = [] \/
             (exists s, scan_category s max_images = Ok images) \/
             (exists s, scan_search s max_images = Ok images))) as Hfall.
  { destruct Htier2 as [[e ->]|[->|(s & images & Hs & ->)]].
    - eexists _, _. split; [done|]. split; by left.
    - eexists _, _. split; [done|]. split; [by right | by left].
    - eexists _, _. split; [done|]. split; [by right|]. right. right. eauto. }
  destruct (contains (lit "Special:Search") (url response)); [done|].
  destruct (negb (status_code response =? 200)%Z);
    [eexists _, _; split; [done|]; split; by left|].
  destruct (scan_category _ max_images) as [[|d images]|] eqn:Hs.
  - done.
  - eexists _, _. split; [done|]. split; [by left|]. right. left. eauto.
  - eexists _, _. split; [done|]. split; by left.
Qed.

End TierFacts.

(** X6.  Every descriptor the Image Locator returns is normalised: the
    address of its thumbnail and the address of its detail page are
    absolute (they begin with "http"), and its file name is the
    percent-decoded last segment of the address of the detail page. *)
Theorem locator_descriptors_normalised (E : Env) (page_name : str)
    (max_images : Z) (w : World) :
  exists images w',
    get_commons_category_images E page_name max_images w = (Ok images, w') /\
    List.Forall normalised images.
Proof.
  destruct (category_images_outcome E page_name max_images w)
    as (images & w' & Hrun & _ & Hfrom).
  exists images, w'. split; [done|].
  destruct Hfrom as [->|[[s Hs]|[s Hs]]].
  - constructor.
  - by apply scan_category_normalised in Hs.
  - by apply scan_search_normalised in Hs.
Qed.

(** X7.  A call of the Image Locator makes one request or two (the
    category page, then the media search if it falls through), and
    changes no file and no folder. *)
Theorem locator_request_budget (E : Env) (page_name : str) (max_images : Z)
    (w : World) :
  exists images w',
    get_commons_category_images E page_name max_images w = (Ok images, w') /\
    (clock w' = S (clock w) \/ clock w' = S (S (clock w))) /\
    files w' = files w /\ folders w' = folders w.
Proof.
  destruct (category_images_outcome E page_name max_images w)
    as (images & w' & Hrun & [-> | ->] & _);
    exists images; eexists; (split; [exact Hrun|]); cbn; tauto.
Qed.

Section EncodingFacts.

Lemma utf8_encode_char_encodable (c : N) :
  if encodable c then exists b, Urllib.utf8_encode_char c = Ok b
  else Urllib.utf8_encode_char c = Raise UnicodeEncodeError.
Proof.
  unfold encodable, Urllib.utf8_encode_char.
  destruct (c <? 128) eqn:H1; [apply N.ltb_lt in H1|apply N.ltb_ge in H1].
  { assert ((c <? 55296) = true) as -> by (apply N.ltb_lt; lia). cbn. eauto. }
  destruct (c <? 2048) eqn:H2; [apply N.ltb_lt in H2|apply N.ltb_ge in H2].
  { assert ((c <? 55296) = true) as -> by (apply N.ltb_lt; lia). cbn. eauto. }
  destruct (c <? 55296) eqn:H3; [apply N.ltb_lt in H3|apply N.ltb_ge in H3].
  { assert ((55296 <=? c) = false) as -> by (apply N.leb_gt; lia).
    assert ((c <? 65536) = true) as -> by (apply N.ltb_lt; lia). cbn. eauto. }
  assert ((55296 <=? c) = true) as -> by (apply N.leb_le; lia).
  destruct (c <=? 57343) eqn:H4; [apply N.leb_le in H4|apply N.leb_gt in H4].
  { assert ((57343 <? c) = false) as -> by (apply N.ltb_ge; lia). done. }
  assert ((57343 <? c) = true) as -> by (apply N.ltb_lt; lia).
  destruct (c <? 65536) eqn:H5; [apply N.ltb_lt in H5|apply N.ltb_ge in H5].
  { assert ((c <? 1114112) = true) as -> by (apply N.ltb_lt; lia). cbn. eauto. }
  destruct (c <? 1114112); cbn; eauto.
Qed.

Lemma utf8_encode_encodable (s : str) :
  if forallb encodable s then exists bs, Urllib.utf8_encode s = Ok bs
  else Urllib.utf8_encode s = Raise UnicodeEncodeError.
Proof.
  induction s as [|c s IH]; [cbn; eauto|].
  cbn [forallb Urllib.utf8_encode].
  pose proof (utf8_encode_char_encodable c) as Hc.
  destruct (encodable c).
  - destruct Hc as [b ->]. cbn [andb rbind].
    destruct (forallb encodable s).
    + destruct IH as [bs ->]. cbn. eauto.
    + by rewrite IH.
  - by rewrite Hc.
Qed.

(** [quote] fails on a surrogate, and on nothing else. *)
Lemma quote_encodable (s : str) :
  if forallb encodable s then exists quoted, Urllib.quote s = Ok quoted
  else Urllib.quote s = Raise UnicodeEncodeError.
Proof.
  unfold Urllib.quote. pose proof (utf8_encode_encodable s) as Hs.
  destruct (forallb encodable s).
  - destruct Hs as [bs ->]. cbn. eauto.
  - by rewrite Hs.
Qed.

End EncodingFacts.

(** X8.  Tier 2 builds its address before its [try]: for a page name
    that holds a surrogate it raises [UnicodeEncodeError] without
    making a request; for every other page name it makes exactly one
    request and returns a list, whatever the request and the scan
    do. *)
Theorem file_namespace_encoding (E : Env) (page_name : str) (max_images : Z)
    (w : World) :
  if forallb encodable page_name then
    exists images,
      get_commons_file_namespace E page_name max_images w
        = (Ok images, tick w)
  else
    get_commons_file_namespace E page_name max_images w
      = (Raise UnicodeEncodeError, w).
Proof.
  pose proof (quote_encodable page_name) as Hq.
  unfold get_commons_file_namespace. run_m.
  destruct (forallb encodable page_name).
  - destruct Hq as [quoted ->].
    destruct (requests_get E (clock w) (search_url quoted)) as [response|];
      [|eauto].
    destruct (negb (status_code response =? 200)%Z); [eauto|].
    destruct (scan_search _ max_images); eauto.
  - by rewrite Hq.
Qed.

Section FirstResults.

(** A loop that meets no exception appends the first descriptors of
    its items, as many as the maximum leaves room for. *)
Lemma scan_take (extract : node -> Result (option descriptor))
    (max_images : Z) (items : list node) :
  extracts_cleanly extract items ->
  forall images,
    scan extract max_images items images (Z.of_nat (length images))
      = Ok (images ++ take (quota max_images - length images)
                        (extracted extract items),
            Z.of_nat (length (images
                              ++ take (quota max_images - length images)
                                   (extracted extract items)))).
Proof.
  unfold quota. induction 1 as [|item rest [found Hfound] _ IH]; intros images.
  - cbn. rewrite take_nil, app_nil_r. done.
  - cbn [scan extracted flat_map]. rewrite Hfound.
    destruct (Z.of_nat (length images) >=? max_images)%Z eqn:Hge.
    + rewrite Z.geb_leb in Hge. apply Z.leb_le in Hge.
      replace (Z.to_nat max_images - length images)%nat with 0%nat by lia.
      cbn. by rewrite app_nil_r.
    + rewrite Z.geb_leb in Hge. apply Z.leb_gt in Hge. cbn [rbind].
      destruct found as [d|].
      * replace (Z.of_nat (length images) + 1)%Z
          with (Z.of_nat (length (images ++ [d])))
          by (rewrite length_app; cbn; lia).
        fold (extracted extract rest). rewrite IH.
        replace (Z.to_nat max_images - length images)%nat
          with (S (Z.to_nat max_images - length (images ++ [d])))
          by (rewrite length_app; cbn; lia).
        cbn [app take]. by rewrite <- !app_assoc.
      * fold (extracted extract rest). cbn [app]. apply IH.
Qed.

End FirstResults.

(** X9.  The scan of a category page that meets no exception returns
    the first [max_images] descriptors of the page, those of the
    gallery items before those of the thumbnail blocks, each group in
    page order; nothing is reordered and no duplicate is removed. *)
Theorem category_first_results (s : soup) (max_images : Z) :
  extracts_cleanly extract_thumb_item (gallery_items s) ->
  extracts_cleanly extract_thumb_item (thumb_items s) ->
  scan_category s max_images
    = Ok (take (quota max_images)
            (extracted extract_thumb_item (gallery_items s)
             ++ extracted extract_thumb_item (thumb_items s))).
Proof.
  intros Hg Ht. unfold scan_category.
  set (G := extracted extract_thumb_item (gallery_items s)).
  set (T := extracted extract_thumb_item (thumb_items s)).
  assert (match soup_find_class (lit "ul") (lit "gallery") s with
          | Some gallery =>
              scan extract_thumb_item max_images
                (find_all_class (lit "li") (lit "gallerybox") gallery) [] 0%Z
          | None => Ok ([], 0%Z)
          end
          = Ok (take (quota max_images) G,
                Z.of_nat (length (take (quota max_images) G)))) as ->.
  { unfold G, gallery_items in *.
    destruct (soup_find_class (lit "ul") (lit "gallery") s).
    - rewrite (scan_take _ _ _ Hg []). cbn [length app].
      by rewrite Nat.sub_0_r.
    - cbn. by rewrite take_nil. }
  cbn [rbind].
  destruct (Z.of_nat (length (take (quota max_images) G)) <? max_images)%Z
    eqn:Hlt.
  - apply Z.ltb_lt in Hlt. fold (thumb_items s).
    rewrite (scan_take _ _ _ Ht). cbn [rbind]. fold T. f_equal.
    rewrite length_take in *. unfold quota in *.
    assert (length G < Z.to_nat max_images)%nat as Hshort by lia.
    rewrite take_ge by lia. rewrite take_app.
    rewrite (take_ge G) by lia. f_equal. f_equal. lia.
  - apply Z.ltb_ge in Hlt. cbn [rbind]. f_equal.
    rewrite length_take in Hlt. unfold quota in *.
    rewrite take_app.
    replace (Z.to_nat max_images - length G)%nat with 0%nat by lia.
    cbn. by rewrite app_nil_r.
Qed.

(** A gallery of one picture and two thumbnail blocks, for a maximum
    of two. *)
Lemma category_first_results_witness :
  scan_category ExampleGallery.category_soup 2
    = Ok [ExampleGallery.found (lit "One.jpg");
          ExampleGallery.found (lit "Two.jpg")].
Proof.
  rewrite (category_first_results ExampleGallery.category_soup 2).
  - vm_compute. reflexivity.
  - repeat constructor. vm_compute. eauto.
  - repeat constructor; vm_compute; eauto.
Defined.

(** X10.  The scan of a search page that meets no exception returns
    the first [max_images] results of the modern shape, in page order,
    and turns to the results of the legacy shape only when it found
    none of the modern shape. *)
Theorem search_first_results (s : soup) (max_images : Z) :
  extracts_cleanly extract_modern_result (modern_items s) ->
  extracts_cleanly extract_legacy_result (legacy_items s) ->
  scan_search s max_images
    = Ok (match take (quota max_images)
                  (extracted extract_modern_result (modern_items s)) with
          | [] => take (quota max_images)
                    (extracted extract_legacy_result (legacy_items s))
          | found => found
          end).
Proof.
  intros Hm Hl. unfold scan_search. fold (modern_items s) (legacy_items s).
  rewrite (scan_take _ _ _ Hm []). cbn [length app rbind].
  rewrite Nat.sub_0_r.
  destruct (take (quota max_images)
              (extracted extract_modern_result (modern_items s))) as [|d found].
  - rewrite (scan_take _ _ _ Hl []). cbn [length app rbind].
    by rewrite Nat.sub_0_r.
  - done.
Qed.

(** The search page of the examples. *)
Lemma search_first_results_witness :
  scan_search ExampleLocator.search_soup 15 = Ok [ExampleLocator.apple].
Proof.
  rewrite (search_first_results ExampleLocator.search_soup 15).
  - vm_compute. reflexivity.
  - repeat constructor. vm_compute. eauto.
  - vm_compute. constructor.
Defined.

(** ** Thumbnail Upgrader *)

Section UpgraderResult.
Variable E : Env.

Lemma absolute_nonempty (u : str) : absolute_address u = true -> u <> [].
Proof. by destruct u. Qed.

Lemma larger_thumbnail_absolute (file_page : str) (min_width : Z) (n : nat)
    (u : str) :
  larger_thumbnail_at E file_page min_width n = Some u ->
  absolute_address u = true.
Proof.
  unfold larger_thumbnail_at, find_larger_thumbnail, world_at. run_m.
  cbn [clock].
  destruct (requests_get E n file_page) as [response|]; [|done].
  destruct (negb (status_code response =? 200)%Z); [done|].
  destruct (first_sized E candidate_sizes min_width _) as [href|].
  - destruct href as [s|l]; cbn; [|done]. intros [= <-].
    by apply absolute_is_absolute.
  - unfold full_image.
    destruct (soup_find_class _ _ _) as [img_div|]; [|done].
    destruct (find (lit "img") img_div) as [img|]; [|done].
    destruct (has_key (lit "src") img); [|done].
    destruct (attr_str (lit "src") img) as [src|]; cbn; [|done].
    intros [= <-]. by apply absolute_is_absolute.
Qed.

Lemma first_size_link_found (size : N) (links : list node) (href : attr_value) :
  first_size_link E size links = Some href ->
  exists link,
    In link links /\
    Re.search_size E size (strip (get_text link)) = true /\
    thumb_href (href_of link) = true /\
    href = href_of link.
Proof.
  induction links as [|link rest IH]; [done|]. cbn [first_size_link].
  destruct (Re.search_size E size (strip (get_text link))
            && thumb_href (href_of link)) eqn:Hm.
  - intros [= <-]. apply andb_true_iff in Hm as [? ?].
    exists link. repeat split; [by left | done | done].
  - intros (l & ? & ?)%IH. exists l. split; [by right | done].
Qed.

(** The search goes down the sizes: what it returns comes from the
    first size, not below the minimum, that has a matching anchor. *)
Lemma first_sized_largest (sizes : list N) (min_width : Z) (s : soup)
    (href : attr_value) :
  descending sizes ->
  first_sized E sizes min_width s = Some href ->
  exists size,
    In size sizes /\ (min_width <= Z.of_N size)%Z /\
    first_size_link E size (anchors s) = Some href /\
    forall larger,
      In larger sizes -> size < larger ->
      first_size_link E larger (anchors s) = None.
Proof.
  unfold anchors.
  induction sizes as [|x rest IH]; [done|]. intros [Hx Hrest].
  rewrite List.Forall_forall in Hx. cbn [first_sized].
  destruct (Z.of_N x <? min_width)%Z eqn:Hlt.
  - apply Z.ltb_lt in Hlt. intros (size & Hin & Hmin & Hlink & Hlarger)%IH;
      [|done].
    exists size. repeat split; [by right | done | done |].
    intros larger [<-|Hl] Hgt; [lia | by apply Hlarger].
  - apply Z.ltb_ge in Hlt.
    destruct (first_size_link E x (soup_find_all (lit "a") s)) as [h|] eqn:Hfx.
    + intros [= <-]. exists x. repeat split; [by left | done | done |].
      intros larger [<-|Hl] Hgt; [lia|]. specialize (Hx larger Hl). lia.
    + intros (size & Hin & Hmin & Hlink & Hlarger)%IH; [|done].
      exists size. repeat split; [by right | done | done |].
      intros larger [<-|Hl] Hgt; [done | by apply Hlarger].
Qed.

End UpgraderResult.

(** X11.  The Thumbnail Upgrader never raises, makes exactly one
    request and changes no file; an address it returns is absolute,
    hence not empty, so that the downloader fetches it in place of the
    thumbnail. *)
Theorem upgrader_safe (E : Env) (file_page : str) (min_width : Z) (w : World) :
  exists result,
    find_larger_thumbnail E file_page min_width w = (Ok result, tick w) /\
    match result with
    | Some u =>
        absolute_address u = true /\
        forall thumbnail, or_else (Some u) thumbnail = u
    | None => True
    end.
Proof.
  rewrite find_larger_thumbnail_eq. eexists. split; [reflexivity|].
  destruct (larger_thumbnail_at E file_page min_width (clock w)) as [u|] eqn:Hu;
    [|done].
  apply larger_thumbnail_absolute in Hu. split; [done|].
  intros thumbnail. by destruct u.
Qed.

(** X12.  A sized result is the target of an anchor whose label
    matches a candidate width that is at least the minimum and whose
    target has the thumbnail marker; no larger candidate has such an
    anchor, and the anchor is one of the page. *)
Theorem upgrader_largest_candidate (E : Env) (min_width : Z) (s : soup)
    (href : attr_value) :
  first_sized E candidate_sizes min_width s = Some href ->
  exists size link,
    In size candidate_sizes /\ (min_width <= Z.of_N size)%Z /\
    In link (anchors s) /\
    Re.search_size E size (strip (get_text link)) = true /\
    thumb_href (href_of link) = true /\
    href = href_of link /\
    forall larger,
      In larger candidate_sizes -> size < larger ->
      first_size_link E larger (anchors s) = None.
Proof.
  intros Hs.
  apply first_sized_largest in Hs as (size & Hin & Hmin & Hlink & Hlarger).
  - apply first_size_link_found in Hlink as (link & ? & ? & ? & ?).
    exists size, link. repeat split; done.
  - vm_compute. repeat split; repeat constructor.
Qed.

(** The page whose label is 600 by 450, for a minimum of 300: the
    candidate 600 is the largest that matches. *)
Lemma upgrader_largest_candidate_witness :
  exists size link,
    In size candidate_sizes /\ (300 <= Z.of_N size)%Z /\
    In link (anchors [ExampleUpgrader.size_link (lit "600") (lit "450")]) /\
    Re.search_size ExampleUpgrader.env size (strip (get_text link)) = true /\
    thumb_href (href_of link) = true /\
    AStr ExampleUpgrader.thumb_600 = href_of link /\
    forall larger,
      In larger candidate_sizes -> size < larger ->
      first_size_link ExampleUpgrader.env larger
        (anchors [ExampleUpgrader.size_link (lit "600") (lit "450")]) = None.
Proof.
  apply (upgrader_largest_candidate ExampleUpgrader.env 300
           [ExampleUpgrader.size_link (lit "600") (lit "450")]).
  vm_compute. reflexivity.
Defined.

(** ** Image Downloader *)

Section DestinationFacts.

Lemma sub_illegal_clean (s : str) :
  List.Forall (fun c => Re.illegal c = false) (Re.sub_illegal s).
Proof.
  unfold Re.sub_illegal. apply List.Forall_forall. intros c Hc.
  apply in_map_iff in Hc as (x & <- & _).
  by destruct (Re.illegal x) eqn:Hx.
Qed.

Lemma sub_illegal_lookup (s : str) (i : nat) (c : N) :
  s !! i = Some c -> Re.illegal c = false -> Re.sub_illegal s !! i = Some c.
Proof.
  unfold Re.sub_illegal. revert i.
  induction s as [|x s IH]; intros [|i] Hi Hc; try done.
  - cbn in Hi. injection Hi as ->. cbn. by rewrite Hc.
  - cbn in Hi. cbn. by apply IH.
Qed.

Lemma clean_no_leading_slash (name : str) :
  List.Forall (fun c => Re.illegal c = false) name ->
  startswith name (lit "/") = false.
Proof.
  destruct name as [|c name]; [done|]. intros Hc%List.Forall_inv.
  change (lit "/") with [47]. cbn [startswith]. rewrite andb_true_r.
  destruct (47 =? c) eqn:E; [|done]. apply N.eqb_eq in E. by subst c.
Qed.

(** Every write of a batch goes to the destination of one of its
    descriptors. *)
Lemma saves_from_destinations (E : Env) (folder : str) (min_width : Z)
    (images_list : list descriptor) :
  forall n,
    List.Forall
      (fun s => exists img_info,
           In img_info images_list /\ fst s = destination folder img_info)
      (saves_from E folder min_width n images_list).
Proof.
  induction images_list as [|d rest IH]; intros n; [constructor|].
  cbn [saves_from]. apply List.Forall_app. split.
  - destruct (saved_at E folder min_width n d) as [[p b]|] eqn:Hs;
      [|constructor].
    apply saved_at_path in Hs. repeat constructor.
    exists d. split; [by left | done].
  - eapply List.Forall_impl; [|apply IH].
    intros s (d' & Hd' & Hs). exists d'. split; [by right | done].
Qed.

(** The paths written, in the order of the descriptors. *)
Lemma saves_from_sublist (E : Env) (folder : str) (min_width : Z)
    (images_list : list descriptor) :
  forall n,
    sublist (List.map fst (saves_from E folder min_width n images_list))
      (List.map (destination folder) images_list).
Proof.
  induction images_list as [|d rest IH]; intros n; [constructor|].
  cbn [saves_from List.map].
  destruct (saved_at E folder min_width n d) as [[p b]|] eqn:Hs.
  - apply saved_at_path in Hs. cbn. rewrite Hs.
    apply sublist_skip, IH.
  - cbn. apply sublist_cons, IH.
Qed.

End DestinationFacts.

(** X13.  The destination of a descriptor lies directly in the folder:
    for a folder that does not end with a slash, it is the folder, a
    slash, and a name as long as the file name of the descriptor,
    with no illegal character (so no slash and no backslash), in which
    every legal character of the file name is at its place. *)
Theorem destination_in_folder (folder : str) (img_info : descriptor) (c : N) :
  last folder = Some c -> c <> 47 ->
  exists name,
    destination folder img_info = folder ++ lit "/" ++ name /\
    length name = length (filename img_info) /\
    List.Forall (fun x => Re.illegal x = false) name /\
    forall i x,
      filename img_info !! i = Some x -> Re.illegal x = false ->
      name !! i = Some x.
Proof.
  intros Hlast Hc. exists (Re.sub_illegal (filename img_info)).
  split; [|split; [|split]].
  - unfold destination, os_path_join.
    rewrite clean_no_leading_slash by apply sub_illegal_clean.
    rewrite Hlast. apply N.eqb_neq in Hc. by rewrite Hc.
  - unfold Re.sub_illegal. apply length_map.
  - apply sub_illegal_clean.
  - apply sub_illegal_lookup.
Qed.

(** The folder and a file name of the examples. *)
Lemma destination_in_folder_witness :
  exists name,
    destination ExampleDownloader.folder ExampleDownloader.first
      = ExampleDownloader.folder ++ lit "/" ++ name /\
    length name = length (filename ExampleDownloader.first) /\
    List.Forall (fun x => Re.illegal x = false) name /\
    forall i x,
      filename ExampleDownloader.first !! i = Some x ->
      Re.illegal x = false -> name !! i = Some x.
Proof.
  apply (destination_in_folder ExampleDownloader.folder
           ExampleDownloader.first 115); [reflexivity | discriminate].
Defined.

(** X14.  The list the downloader returns holds at most one path for
    each descriptor, in the order of the input: it is a sublist of the
    list of the destinations of the descriptors. *)
Theorem downloader_paths_in_order (E : Env) (images_list : list descriptor)
    (folder : str) (min_width : Z) (w : World) :
  folder_ready E folder w ->
  exists saved w',
    download_thumbnail_images E images_list folder min_width w
      = (Ok saved, w') /\
    sublist saved (List.map (destination folder) images_list) /\
    (length saved <= length images_list)%nat.
Proof.
  intros Hready.
  destruct (download_batch_eq E images_list folder min_width w Hready)
    as [folders' ->].
  eexists _, _. split; [reflexivity|].
  pose proof (saves_from_sublist E folder min_width images_list (clock w))
    as Hsub.
  split; [done|]. apply sublist_length in Hsub.
  by rewrite (List.length_map (destination folder)) in Hsub.
Qed.

Lemma downloader_paths_in_order_witness :
  exists saved w',
    download_thumbnail_images ExampleDownloader.env ExampleDownloader.batch
        ExampleDownloader.folder 800 (world_at 0)
      = (Ok saved, w') /\
    sublist saved
      (List.map (destination ExampleDownloader.folder) ExampleDownloader.batch) /\
    (length saved <= length ExampleDownloader.batch)%nat.
Proof.
  apply (downloader_paths_in_order ExampleDownloader.env).
  right. right. reflexivity.
Defined.

(** X15.  The downloader writes nowhere else: a path that is not the
    destination of a descriptor of the input holds after the run what
    it held before. *)
Theorem downloader_frame (E : Env) (images_list : list descriptor)
    (folder : str) (min_width : Z) (w : World) (path : str) :
  folder_ready E folder w ->
  (forall img_info, In img_info images_list ->
     destination folder img_info <> path) ->
  exists saved w',
    download_thumbnail_images E images_list folder min_width w
      = (Ok saved, w') /\
    files w' !! path = files w !! path.
Proof.
  intros Hready Hother.
  destruct (download_batch_eq E images_list folder min_width w Hready)
    as [folders' ->].
  eexists _, _. split; [reflexivity|]. cbn [files].
  apply write_all_keeps.
  eapply List.Forall_impl;
    [|apply (saves_from_destinations E folder min_width images_list)].
  intros s (d & Hd & ->). by apply Hother.
Qed.

Lemma downloader_frame_witness :
  exists saved w',
    download_thumbnail_images ExampleDownloader.env ExampleDownloader.batch
        ExampleDownloader.folder 800 (world_at 0)
      = (Ok saved, w') /\
    files w' !! lit "wiki_content.txt" = files (world_at 0) !! lit "wiki_content.txt".
Proof.
  apply (downloader_frame ExampleDownloader.env).
  - right. right. reflexivity.
  - intros d Hd. vm_compute in Hd.
    repeat destruct Hd as [<-|Hd]; try done; vm_compute; discriminate.
Defined.

(** X16.  The folder comes first: when it exists the downloader leaves
    the folders as they are; when it does not exist it is made, for an
    empty list of descriptors too; and when it cannot be made the
    downloader raises [OSError] before any request, and nothing is
    downloaded. *)
Theorem downloader_folder (E : Env) (images_list : list descriptor)
    (folder : str) (min_width : Z) (w : World) :
  if folder_exists folder w then
    exists saved w',
      download_thumbnail_images E images_list folder min_width w
        = (Ok saved, w') /\
      folders w' = folders w
  else if can_makedirs E folder then
    exists saved w',
      download_thumbnail_images E images_list folder min_width w
        = (Ok saved, w') /\
      folder ∈ folders w' /\ folders w ⊆ folders w'
  else
    download_thumbnail_images E images_list folder min_width w
      = (Raise OSError, w).
Proof.
  unfold folder_exists, download_thumbnail_images, path_exists, makedirs, bind.
  destruct (bool_decide (folder ∈ folders w)
            || bool_decide (is_Some (files w !! folder))).
  - unfold ret. rewrite download_loop_eq. eauto.
  - destruct (can_makedirs E folder); [|done].
    rewrite download_loop_eq. cbn [folders].
    eexists _, _. split; [reflexivity|]. set_solver.
Qed.

(** ** The script *)

Section ScriptFacts.
Variable E : Env.
Variable R : Runtime.

(** The fetch is one request and touches nothing else. *)
Lemma fetch_outcome (page_title : str) (w : World) :
  exists r, get_wiki_content_via_api R page_title w = (r, tick w).
Proof.
  unfold get_wiki_content_via_api, api_request. run_m.
  destruct (api_get R (clock w) page_title) as [response|]; [|eauto].
  destruct (negb (api_status_code response =? 200)%Z); [eauto|].
  destruct (json response) as [data|]; [|eauto].
  destruct (has_error data); eauto.
Qed.

Lemma write_text_world (path : str) (text : option str) (stdin : list str)
    (w : World) :
  let r := write_text E path text stdin w in
  clock (world r) = clock w /\ folders (world r) = folders w /\
  unread r = stdin /\
  (forall code, ending r <> Stop (SystemExit code)) /\
  (forall p, p <> path -> files (world r) !! p = files w !! p).
Proof.
  unfold write_text, world, unread, ending.
  destruct (writable E path); [|done].
  destruct text as [s|]; [destruct (Urllib.utf8_encode s)|]; cbn;
    repeat split; try done; intros p Hp; by apply lookup_insert_ne.
Qed.

(** The content part: one request, and no write outside the two
    content files. *)
Lemma content_part_world (page_title : str) (stdin : list str) (w : World) :
  let r := content_part E R page_title stdin w in
  clock (world r) = S (clock w) /\ folders (world r) = folders w /\
  unread r = stdin /\
  (forall code, ending r <> Stop (SystemExit code)) /\
  (forall p, content_path p = false -> files (world r) !! p = files w !! p).
Proof.
  unfold content_part, then_, call.
  destruct (fetch_outcome page_title w) as [fetched ->].
  assert (forall p, content_path p = false ->
            p <> lit "wiki_content.txt" /\ p <> lit "wiki_content.html")
    as Hpaths.
  { unfold content_path, Py.eqb. intros p [H1 H2]%orb_false_elim.
    by apply bool_decide_eq_false in H1, H2. }
  destruct fetched as [[d|]|e];
    cbn [fst snd world unread ending finish tick clock files folders];
    try done.
  destruct (truthy d);
    cbn [fst snd world unread ending finish tick clock files folders];
    [|done].
  unfold lift. destruct (process_wiki_content E (Some (read_keys d)))
    as [[text_content html_content]|e]; cbn [fst snd]; [|done].
  pose proof (write_text_world (lit "wiki_content.txt") (Some text_content)
                stdin (tick w)) as (Hc1 & Hf1 & Hu1 & He1 & Hk1).
  destruct (write_text E (lit "wiki_content.txt") (Some text_content) stdin
              (tick w)) as [[[[]|s1] stdin1] w1];
    unfold world, unread, ending in *; cbn [fst snd] in *.
  - pose proof (write_text_world (lit "wiki_content.html") html_content
                  stdin1 w1) as (Hc2 & Hf2 & Hu2 & He2 & Hk2).
    destruct (write_text E (lit "wiki_content.html") html_content stdin1 w1)
      as [[s2 stdin2] w2];
      unfold world, unread, ending in *; cbn [fst snd] in *.
    cbn [tick clock files folders] in *.
    split; [congruence|]. split; [congruence|]. split; [congruence|].
    split; [done|]. intros p [Hp1 Hp2]%Hpaths. by rewrite Hk2, Hk1.
  - cbn [tick clock files folders] in *.
    split; [done|]. split; [done|]. split; [done|]. split; [done|].
    intros p [Hp1 Hp2]%Hpaths. by rewrite Hk1.
Qed.

(** The locator: a list within the quota, after one request or two. *)
Lemma locator_world (page_name : str) (max_images : Z) (w : World) :
  exists images w',
    get_commons_category_images E page_name max_images w = (Ok images, w') /\
    (w' = tick w \/ w' = tick (tick w)) /\
    (length images <= quota max_images)%nat.
Proof.
  destruct (category_images_outcome E page_name max_images w)
    as (images & w' & -> & Hw & Himages).
  exists images, w'. split; [done|]. split; [done|]. unfold quota.
  destruct Himages as [->|[[s Hs]|[s Hs]]].
  - cbn. lia.
  - apply scan_category_bounded in Hs. lia.
  - apply scan_search_bounded in Hs. lia.
Qed.

(** The downloader, ready folder or not. *)
Lemma downloader_world (images_list : list descriptor) (folder : str)
    (min_width : Z) (w : World) :
  let r := download_thumbnail_images E images_list folder min_width w in
  (clock w <= clock (snd r) <= clock w + 2 * length images_list)%nat /\
  (forall p, (forall img_info, In img_info images_list ->
                destination folder img_info <> p) ->
     files (snd r) !! p = files w !! p).
Proof.
  unfold download_thumbnail_images, path_exists, makedirs, bind.
  assert (forall p, (forall img_info, In img_info images_list ->
                       destination folder img_info <> p) ->
            forall n fs,
              write_all (saves_from E folder min_width n images_list) fs !! p
                = fs !! p) as Hkeep.
  { intros p Hp n fs. apply write_all_keeps.
    eapply List.Forall_impl;
      [|apply (saves_from_destinations E folder min_width images_list)].
    intros s (d & Hd & ->). by apply Hp. }
  destruct (bool_decide (folder ∈ folders w)
            || bool_decide (is_Some (files w !! folder))).
  - unfold ret. rewrite download_loop_eq. cbn. split; [lia|].
    intros p Hp. by apply Hkeep.
  - destruct (can_makedirs E folder); [|cbn; split; [lia|done]].
    rewrite download_loop_eq. cbn. split; [lia|].
    intros p Hp. by apply Hkeep.
Qed.

Lemma destination_wiki_images (img_info : descriptor) :
  startswith (destination (lit "wiki_images") img_info) (lit "wiki_images/")
    = true.
Proof.
  apply startswith_app. exists (Re.sub_illegal (filename img_info)).
  unfold destination, os_path_join.
  by rewrite clean_no_leading_slash by apply sub_illegal_clean.
Qed.

(** The images part: at most two requests and two for each picture of
    the quota, and no write outside the folder of the pictures. *)
Lemma images_part_world (page_title : str) (stdin : list str) (w : World) :
  let r := images_part E R page_title stdin w in
  (clock w <= clock (world r)
   <= clock w + 2 + 2 * quota (number_or R 15 (default [] (stdin !! 0%nat))))%nat /\
  (forall code, ending r <> Stop (SystemExit code)) /\
  (forall p, startswith p (lit "wiki_images/") = false ->
     files (world r) !! p = files w !! p).
Proof.
  unfold images_part, ask_number, then_, input, finish, call, world, ending.
  destruct stdin as [|user_max [|user_width stdin]]; cbn [fst snd];
    [split; [lia|done] | split; [lia|done] |].
  cbn [lookup list_lookup default]. unfold id.
  destruct (locator_world page_title (number_or R 15 user_max) w)
    as (images & w' & -> & Hw & Hlen).
  assert (clock w <= clock w' <= clock w + 2 /\ files w' = files w)%nat
    as [Hclock Hfiles].
  { destruct Hw as [->| ->]; cbn; split; (lia || done). }
  destruct images as [|d images]; cbn [fst snd].
  { split; [lia|]. split; [done|]. intros p _. by rewrite Hfiles. }
  pose proof (downloader_world (d :: images) (lit "wiki_images")
                (number_or R 800 user_width) w') as [Hc Hk].
  destruct (download_thumbnail_images E (d :: images) (lit "wiki_images")
              (number_or R 800 user_width) w') as [[saved|e] w''];
    cbn [fst snd] in *.
  all: split; [lia|]; split; [done|].
  all: intros p Hp; rewrite Hk, Hfiles; [done|].
  all: intros img_info _ <-; by rewrite destination_wiki_images in Hp.
Qed.

End ScriptFacts.

Section ScriptRuns.
Variable E : Env.
Variable R : Runtime.

Lemma before_first_marker_nil (rest : str) :
  truncate_at_delimiter (before_first (lit "/wiki/") rest) = [] <->
  empty_title_segment rest || startswith rest (lit "/wiki/") = true.
Proof.
  rewrite truncate_at_delimiter_nil. unfold empty_title_segment.
  destruct rest as [|c s]; [by split; [|left]|].
  rewrite bool_decide_eq_false_2 by done.
  cbn [before_first].
  destruct (startswith (c :: s) (lit "/wiki/")) eqn:Hm.
  - rewrite orb_true_r. split; [done | by left].
  - rewrite orb_false_r. change (lit "#") with [35]. change (lit "?") with [63].
    cbn [startswith orb]. rewrite orb_true_iff.
    split; [intros [?|?]; [done|tauto] | tauto].
Qed.

(** What the resolver gives for a refused address, and for the
    others. *)
Lemma refused_title (wiki_url : str) :
  match extract_wiki_title wiki_url with
  | Ok None | Ok (Some []) => refused wiki_url = true
  | Ok (Some (_ :: _)) => refused wiki_url = false
  | Raise _ => False
  end.
Proof.
  rewrite extract_wiki_title_eq. unfold refused.
  destruct (after_first (lit "/wiki/") wiki_url) as [rest|]; [|done].
  pose proof (before_first_marker_nil rest) as Hnil.
  change (lit "_") with [95]. change (lit " ") with [32].
  destruct (replace [95] [32] _) as [|c title] eqn:Ht.
  - apply (proj1 (replace_char_nil _ _ _)) in Ht.
    apply (proj1 (unquote_nil _)) in Ht. by apply Hnil.
  - apply not_true_iff_false. intros Hr%Hnil.
    apply (proj2 (unquote_nil _)) in Hr.
    apply (proj2 (replace_char_nil 95 32 _)) in Hr. congruence.
Qed.

Lemma main_refused (wiki_url : str) (stdin : list str) (w : World) :
  refused wiki_url = true ->
  main E R (wiki_url :: stdin) w = (Stop (SystemExit 1), stdin, w).
Proof.
  intros Hr. pose proof (refused_title wiki_url) as Ht.
  unfold main, then_, input, call, lift.
  destruct (extract_wiki_title wiki_url) as [[[|c title]|]|]; try done.
  congruence.
Qed.

Lemma main_accepted (wiki_url : str) (stdin : list str) (w : World) :
  refused wiki_url = false ->
  exists page_title,
    page_title <> [] /\
    extract_wiki_title wiki_url = Ok (Some page_title) /\
    main E R (wiki_url :: stdin) w
      = (run! _ := content_part E R page_title in
         run! download_images := input in
         if negb (Py.eqb (strip (lower R download_images)) (lit "y"))
         then exit 0
         else images_part E R page_title)%script stdin w.
Proof.
  intros Hr. pose proof (refused_title wiki_url) as Ht.
  unfold main, then_ at 1 2, input at 1, call at 1, lift.
  destruct (extract_wiki_title wiki_url) as [[[|c title]|]|];
    try done; try congruence.
  by exists (c :: title).
Qed.

(** The content part reads no line of the input. *)
Lemma content_part_stdin (page_title : str) (stdin : list str) (w : World) :
  content_part E R page_title stdin w
    = (ending (content_part E R page_title [] w), stdin,
       world (content_part E R page_title [] w)).
Proof.
  unfold content_part, then_, call, ending, world.
  destruct (get_wiki_content_via_api R page_title w) as [[[d|]|e] w1];
    cbn [fst snd finish]; try done.
  destruct (truthy d); cbn [fst snd finish]; [|done].
  destruct (lift (process_wiki_content E (Some (read_keys d))) w1)
    as [[[text_content html_content]|e] w2]; cbn [fst snd]; [|done].
  unfold write_text.
  destruct (writable E (lit "wiki_content.txt")); cbn [fst snd]; [|done].
  destruct (Urllib.utf8_encode text_content); cbn [fst snd clock files folders];
    [|done].
  destruct (writable E (lit "wiki_content.html")); cbn [fst snd]; [|done].
  destruct html_content as [html|]; [|done].
  by destruct (Urllib.utf8_encode html).
Qed.

Lemma number_or_invalid (default : Z) (user : str) :
  int R user = None -> number_or R default user = default.
Proof. unfold number_or. intros ->. by destruct (strip user). Qed.

End ScriptRuns.


(** X18.  The script writes to the two content files and into the
    folder of the pictures, and nowhere else: any other path holds
    after a run, however it ends, what it held before. *)
Theorem script_frame (E : Env) (R : Runtime) (stdin : list str) (w : World)
    (path : str) :
  script_path path = false ->
  files (world (main E R stdin w)) !! path = files w !! path.
Proof.
  unfold script_path. intros [Hcontent Himages]%orb_false_elim.
  fold (content_path path) in Hcontent.
  destruct stdin as [|wiki_url stdin]; [done|].
  destruct (refused wiki_url) eqn:Hr; [by rewrite main_refused|].
  destruct (main_accepted E R wiki_url stdin w Hr) as (t & _ & _ & ->).
  unfold then_.
  pose proof (content_part_world E R t stdin w) as (_ & _ & _ & _ & Hk).
  specialize (Hk path Hcontent).
  destruct (content_part E R t stdin w) as [[[[]|s] stdin1] w1];
    unfold world in *; cbn [fst snd] in *; [|done].
  unfold input. destruct stdin1 as [|answer stdin1]; cbn [fst snd]; [done|].
  destruct (negb _); [done|].
  pose proof (images_part_world E R t stdin1 w1) as (_ & _ & Hki).
  unfold world in Hki. by rewrite Hki.
Qed.

(** A path of another program: the script of the narration. *)
Lemma script_frame_witness :
  files (world (main ExampleScript.env ExampleScript.runtime
                  [ExampleScript.address; lit "y"] (world_at 0)))
    !! lit "script.txt"
  = files (world_at 0) !! lit "script.txt".
Proof.
  apply (script_frame ExampleScript.env ExampleScript.runtime). reflexivity.
Defined.

(** X19.  A run makes at most three requests besides those of the
    downloads, and at most two for each picture it may download: one
    to the API, one or two to Commons, and two for each of at most
    [max_imgs] descriptors, where [max_imgs] is what the third line of
    the input gives and 15 by default. *)
Theorem script_request_budget (E : Env) (R : Runtime) (stdin : list str)
    (w : World) :
  (clock w <= clock (world (main E R stdin w))
   <= clock w + 3 + 2 * quota (asked_count R stdin))%nat.
Proof.
  destruct stdin as [|wiki_url stdin]; [cbn; lia|].
  destruct (refused wiki_url) eqn:Hr; [rewrite main_refused by done; cbn; lia|].
  destruct (main_accepted E R wiki_url stdin w Hr) as (t & _ & _ & ->).
  unfold then_.
  pose proof (content_part_world E R t stdin w) as (Hc & _ & Hu & _ & _).
  destruct (content_part E R t stdin w) as [[[[]|s] stdin1] w1];
    unfold world, unread in *; cbn [fst snd] in *; [|lia].
  subst stdin1. unfold input.
  destruct stdin as [|answer stdin]; cbn [fst snd]; [lia|].
  destruct (negb _); [cbn; lia|].
  pose proof (images_part_world E R t stdin w1) as (Hci & _ & _).
  change (asked_count R (wiki_url :: answer :: stdin))
    with (number_or R 15 (default [] (stdin !! 0%nat))).
  unfold world in *. lia.
Qed.

(** X20.  A parse object that has keys and no markup crashes the
    script: the placeholder is written to [wiki_content.txt], the
    file [wiki_content.html] is emptied, and the run dies of the
    [TypeError] of writing [None], before it asks about the images. *)
Theorem script_placeholder_crash (E : Env) (R : Runtime)
    (wiki_url page_title : str) (stdin : list str) (w : World)
    (response : ApiResponse) (data : answer_body) (wiki_data : parse_object) :
  extract_wiki_title wiki_url = Ok (Some page_title) ->
  page_title <> [] ->
  api_get R (clock w) page_title = Ok response ->
  api_status_code response = 200%Z ->
  json response = Ok data ->
  has_error data = false ->
  parse data = Some wiki_data ->
  truthy wiki_data = true ->
  markup_of (Some (read_keys wiki_data)) = None ->
  writable E (lit "wiki_content.txt") = true ->
  writable E (lit "wiki_content.html") = true ->
  main E R (wiki_url :: stdin) w
    = (Stop TypeError, stdin,
       {| clock := S (clock w);
          files := <[lit "wiki_content.html" := []]>
                     (<[lit "wiki_content.txt" := failure_placeholder]>
                        (files w));
          folders := folders w |}).
Proof.
  intros Htitle Hne Hget Hstatus Hjson Herror Hparse Htruthy Hmarkup Htxt Hhtml.
  unfold main, then_ at 1 2, input at 1, call at 1, lift at 1.
  rewrite Htitle. destruct page_title as [|c page_title]; [done|].
  unfold then_ at 1, content_part, then_ at 1, call at 1.
  unfold get_wiki_content_via_api, api_request. run_m.
  rewrite Hget, Hstatus. cbn [negb Z.eqb Pos.eqb]. change (200 =? 200)%Z with true.
  cbn [negb]. rewrite Hjson, Herror, Hparse, Htruthy.
  assert (process_wiki_content E (Some (read_keys wiki_data))
          = Ok (failure_placeholder, None)) as ->.
  { unfold process_wiki_content, markup_of in *.
    by destruct (Api.text (read_keys wiki_data)) as [[html|]|]. }
  unfold then_, call, write_text. cbn [fst snd].
  rewrite Htxt.
  assert (Urllib.utf8_encode failure_placeholder = Ok failure_placeholder)
    as -> by (vm_compute; reflexivity).
  cbn [clock files folders tick]. by rewrite Hhtml.
Qed.

(** The runtime whose API answers with a title and no text. *)
Lemma script_placeholder_crash_witness :
  main ExampleScript.env ExampleScript.runtime
      [ExampleScript.address; lit "y"] (world_at 0)
    = (Stop TypeError, [lit "y"],
       {| clock := 1;
          files := <[lit "wiki_content.html" := []]>
                     (<[lit "wiki_content.txt" := failure_placeholder]>
                        (files (world_at 0)));
          folders := folders (world_at 0) |}).
Proof.
  apply (script_placeholder_crash ExampleScript.env ExampleScript.runtime
           ExampleScript.address (lit "Gravity") [lit "y"] (world_at 0)
           {| api_status_code := 200;
              json := Ok {| has_error := false;
                            parse := Some ExampleScript.titled |} |}
           {| has_error := false; parse := Some ExampleScript.titled |}
           ExampleScript.titled);
    try reflexivity. discriminate.
Defined.

(** X21.  At the two prompts for a number, a line that [int] refuses
    counts as a blank line: the run ends the same way and leaves the
    same world as with the defaults. *)
Theorem script_invalid_number (E : Env) (R : Runtime)
    (wiki_url download_images user_max user_width : str)
    (stdin : list str) (w : World) :
  int R user_max = None ->
  int R user_width = None ->
  ending (main E R (wiki_url :: download_images :: user_max :: user_width
                      :: stdin) w)
    = ending (main E R (wiki_url :: download_images :: [] :: [] :: stdin) w)
  /\ world (main E R (wiki_url :: download_images :: user_max :: user_width
                        :: stdin) w)
       = world (main E R (wiki_url :: download_images :: [] :: [] :: stdin) w).
Proof.
  intros Hmax Hwidth.
  destruct (refused wiki_url) eqn:Hr; [by rewrite !main_refused|].
  destruct (main_accepted E R wiki_url
              (download_images :: user_max :: user_width :: stdin) w Hr)
    as (t & _ & Ht & ->).
  destruct (main_accepted E R wiki_url
              (download_images :: [] :: [] :: stdin) w Hr)
    as (t' & _ & Ht' & ->).
  assert (t' = t) as -> by congruence.
  unfold then_.
  rewrite (content_part_stdin E R t (download_images :: user_max :: _)).
  rewrite (content_part_stdin E R t (download_images :: [] :: _)).
  destruct (ending (content_part E R t [] w)) as [[]|s]; [|done].
  unfold input. cbn [fst snd]. destruct (negb _); [done|].
  unfold images_part, ask_number, then_, input, finish.
  rewrite (number_or_invalid R 15 user_max Hmax).
  rewrite (number_or_invalid R 800 user_width Hwidth).
  done.
Qed.

Lemma script_invalid_number_witness :
  ending (main ExampleScript.env ExampleScript.runtime
            [ExampleScript.address; lit "y"; lit "many"; lit "wide"]
            (world_at 0))
    = ending (main ExampleScript.env ExampleScript.runtime
                [ExampleScript.address; lit "y"; []; []] (world_at 0))
  /\ world (main ExampleScript.env ExampleScript.runtime
              [ExampleScript.address; lit "y"; lit "many"; lit "wide"]
              (world_at 0))
       = world (main ExampleScript.env ExampleScript.runtime
                  [ExampleScript.address; lit "y"; []; []] (world_at 0)).
Proof.
  apply (script_invalid_number ExampleScript.env ExampleScript.runtime);
    reflexivity.
Defined.

(** X22.  A run whose answer to the question about the images is not
    [y] (in any case, white space around it apart) downloads nothing:
    it makes at most the request to the API, makes no folder, writes at
    most the two content files, and does not reach the end of the
    script. *)
Theorem script_declined (E : Env) (R : Runtime)
    (wiki_url download_images : str) (stdin : list str) (w : World) :
  Py.eqb (strip (lower R download_images)) (lit "y") = false ->
  (clock (world (main E R (wiki_url :: download_images :: stdin) w))
   <= S (clock w))%nat /\
  folders (world (main E R (wiki_url :: download_images :: stdin) w))
    = folders w /\
  (forall path, content_path path = false ->
     files (world (main E R (wiki_url :: download_images :: stdin) w)) !! path
       = files w !! path) /\
  exists s, ending (main E R (wiki_url :: download_images :: stdin) w) = Stop s.
Proof.
  intros Hno.
  destruct (refused wiki_url) eqn:Hr.
  { rewrite main_refused by done. cbn. repeat split; eauto. }
  destruct (main_accepted E R wiki_url (download_images :: stdin) w Hr)
    as (t & _ & _ & ->).
  unfold then_.
  pose proof (content_part_world E R t (download_images :: stdin) w)
    as (Hc & Hf & Hu & _ & Hk).
  destruct (content_part E R t (download_images :: stdin) w)
    as [[[[]|s] stdin1] w1];
    unfold world, ending, unread in *; cbn [fst snd] in *.
  - subst stdin1. unfold input. cbn [fst snd]. rewrite Hno.
    cbn. split; [lia|]. split; [done|]. split; [done|]. eauto.
  - split; [lia|]. split; [done|]. split; [done|]. eauto.
Qed.

Lemma script_declined_witness :
  (clock (world (main ExampleScript.env ExampleScript.runtime
                   [ExampleScript.address; lit " N "] (world_at 0)))
   <= S (clock (world_at 0)))%nat /\
  folders (world (main ExampleScript.env ExampleScript.runtime
                    [ExampleScript.address; lit " N "] (world_at 0)))
    = folders (world_at 0) /\
  (forall path, content_path path = false ->
     files (world (main ExampleScript.env ExampleScript.runtime
                     [ExampleScript.address; lit " N "] (world_at 0))) !! path
       = files (world_at 0) !! path) /\
  exists s, ending (main ExampleScript.env ExampleScript.runtime
                      [ExampleScript.address; lit " N "] (world_at 0)) = Stop s.
Proof.
  apply (script_declined ExampleScript.env ExampleScript.runtime).
  reflexivity.
Defined.

(** ** What the downloader leaves behind *)

Section DownloaderResult.
Variable E : Env.

(** A path that was written holds the data of one of the writes. *)
Lemma write_all_written (saves : list (str * bytes)) (path : str)
    (fs : gmap str bytes) :
  In path (List.map fst saves) ->
  exists data, In (path, data) saves /\ write_all saves fs !! path = Some data.
Proof.
  induction saves as [|[p data] saves IH] using rev_ind; [done|].
  rewrite List.map_app, in_app_iff, write_all_app.
  cbn [List.map fst write_all fold_left snd].
  destruct (decide (p = path)) as [->|Hp].
  - intros _. exists data. split; [apply in_app_iff; right; by left|].
    apply lookup_insert_eq.
  - intros [Hin|[?|[]]]; [|done].
    destruct (IH Hin) as (data' & Hdata & Hlook).
    exists data'. split; [apply in_app_iff; by left|].
    by rewrite lookup_insert_ne.
Qed.

Lemma saves_from_source (folder : str) (min_width : Z)
    (images_list : list descriptor) (s : str * bytes) :
  forall n,
    In s (saves_from E folder min_width n images_list) ->
    exists img_info k,
      In img_info images_list /\
      saved_at E folder min_width k img_info = Some s.
Proof.
  induction images_list as [|d rest IH]; intros n; [done|].
  cbn [saves_from]. rewrite in_app_iff. intros [Hs|Hs].
  - exists d, n. split; [by left|].
    destruct (saved_at E folder min_width n d); cbn in Hs; [|done].
    by destruct Hs as [->|[]].
  - destruct (IH _ Hs) as (d' & k & Hd' & Hk). exists d', k.
    split; [by right | done].
Qed.

Lemma saved_at_response (folder : str) (min_width : Z) (n : nat)
    (img_info : descriptor) (path : str) (data : bytes) :
  saved_at E folder min_width n img_info = Some (path, data) ->
  exists img_url response size,
    requests_get E (S n) img_url = Ok response /\
    status_code response = 200%Z /\
    Image_open E (content response) = Ok size /\
    data = content response.
Proof.
  unfold saved_at. intros H.
  destruct (requests_get E (S n) _) as [response|] eqn:Hget; [|done].
  destruct (status_code response =? 200)%Z eqn:Hstatus; [|done].
  destruct (Image_open E (content response)) as [size|] eqn:Hopen; [|done].
  destruct (writable E _); [|done]. injection H as _ <-.
  apply Z.eqb_eq in Hstatus. eauto 8.
Qed.

End DownloaderResult.



(** X24.  Every path the downloader returns names a file that holds,
    after the run, the very bytes of an answer with status 200 that
    the picture library could open, and the path is the destination
    of a descriptor of the input. *)
Theorem downloader_saved_pictures (E : Env) (images_list : list descriptor)
    (folder : str) (min_width : Z) (w : World) :
  folder_ready E folder w ->
  exists saved w',
    download_thumbnail_images E images_list folder min_width w
      = (Ok saved, w') /\
    forall path,
      In path saved ->
      exists img_info n img_url response size,
        In img_info images_list /\
        path = destination folder img_info /\
        requests_get E n img_url = Ok response /\
        status_code response = 200%Z /\
        Image_open E (content response) = Ok size /\
        files w' !! path = Some (content response).
Proof.
  intros Hready.
  destruct (download_batch_eq E images_list folder min_width w Hready)
    as [folders' ->].
  eexists _, _. split; [reflexivity|]. cbn [files]. intros path Hpath.
  destruct (write_all_written _ path (files w) Hpath) as (data & Hin & Hlook).
  destruct (saves_from_source E _ _ _ _ _ Hin) as (d & k & Hd & Hsaved).
  pose proof (saved_at_path E _ _ _ _ _ _ Hsaved) as Hdest.
  destruct (saved_at_response E _ _ _ _ _ _ Hsaved)
    as (img_url & response & size & Hget & Hstatus & Hopen & ->).
  exists d, (S k), img_url, response, size. done.
Qed.

Lemma downloader_saved_pictures_witness :
  exists saved w',
    download_thumbnail_images ExampleDownloader.env ExampleDownloader.batch
        ExampleDownloader.folder 800 (world_at 0)
      = (Ok saved, w') /\
    forall path,
      In path saved ->
      exists img_info n img_url response size,
        In img_info ExampleDownloader.batch /\
        path = destination ExampleDownloader.folder img_info /\
        requests_get ExampleDownloader.env n img_url = Ok response /\
        status_code response = 200%Z /\
        Image_open ExampleDownloader.env (content response) = Ok size /\
        files w' !! path = Some (content response).
Proof.
  apply (downloader_saved_pictures ExampleDownloader.env).
  right. right. reflexivity.
Defined.

(** X25.  The renderer reads four things of a parse object: the
    markup, the title it shows (the display title, else the title),
    the categories and the external links.  Two objects that agree on
    these give the same output; the sections, which it collects into
    a dictionary, and a title next to a display title change
    nothing. *)
Theorem renderer_reads (E : Env) (d1 d2 : Api.data) :
  Api.text d1 = Api.text d2 ->
  shown_title d1 = shown_title d2 ->
  Api.categories d1 = Api.categories d2 ->
  Api.externallinks d1 = Api.externallinks d2 ->
  process_wiki_content E (Some d1) = process_wiki_content E (Some d2).
Proof.
  intros Htext Htitle Hcats Hlinks.
  destruct (Api.text d2) as [[html_content|]|] eqn:Ht2.
  - rewrite (process_wiki_content_eq E d1 html_content Htext).
    rewrite (process_wiki_content_eq E d2 html_content Ht2).
    unfold plain_text_of, title_of, trailer_of.
    fold (shown_title d1). fold (shown_title d2).
    by rewrite Htitle, Hcats, Hlinks.
  - unfold process_wiki_content. by rewrite Htext, Ht2.
  - unfold process_wiki_content. by rewrite Htext, Ht2.
Qed.

(** The page of the examples, with sections and with a title next to
    its display title. *)
Lemma renderer_reads_witness :
  process_wiki_content ExampleOrder.env (Some ExampleOrder.page)
    = process_wiki_content ExampleOrder.env
        (Some {| Api.text := Api.text ExampleOrder.page;
                 Api.displaytitle := Api.displaytitle ExampleOrder.page;
                 Api.title := Some (lit "Other");
                 Api.sections :=
                   Some [{| Api.index := lit "1"; Api.line := lit "History" |}];
                 Api.categories := None;
                 Api.externallinks := None |}).
Proof.
  apply (renderer_reads ExampleOrder.env); reflexivity.
Defined.
